(** * json-file-store.js: a shallow embedding and its properties

    The store keeps each cache entry as a JSON document [<path>.json], with
    large binary buffers moved to sibling files [<path>-<index>.bin], and
    keeps the sizes of all entries in [<cachePath>/meta.json].

    Conventions of the embedding:
    - JavaScript numbers are integers ([Z]), printed in decimal, as
      [JSON.stringify] prints the integers of magnitude below 10^21; strings
      are sequences of 8-bit code units ([string]);
    - a JavaScript object is an association list in insertion order, which is
      the order of enumeration for property names that are not array
      indices; arrays and objects are values, buffers that are filled after
      they are shared are references ([Pending]);
    - a text file that holds JSON is represented by the tree it denotes
      ([JSON.parse (JSON.stringify t)] is [t]); its length in code units is
      the length of [JSON_stringify_text];
    - the file system is a finite map from file names to contents; a file
      can be written under any name (the directories exist), the only
      file-system failure is ENOENT, and a read returns all the bytes asked
      for that the file has;
    - asynchronous steps run in program order; the tasks handed to
      [Promise.all] run one after the other, all of them, and the first
      failure (in list order) is the failure of the whole;
    - [Array.prototype.sort] is stable. *)

From Stdlib Require Import ZArith Lia.
From Stdlib.Strings Require Import Byte Ascii String.
From stdpp Require Import gmap strings list pretty sorting.

Open Scope Z_scope.

(** ** JavaScript values *)

(** Values are parametric in what a buffer node carries: bytes for the values
    handed to [write] and returned by [read], nothing for JSON documents, a
    reference for the tree that [JSON.parse] builds while some buffers are
    still to be filled. *)
#[local] Unset Elimination Schemes.
Inductive js (B : Type) : Type :=
  | JNull
  | JBool (b : bool)
  | JNumber (n : Z)
  | JString (s : string)
  | JArray (l : list (js B))
  | JObject (kvs : list (string * js B))
  | JBuffer (b : B).
#[local] Set Elimination Schemes.

Arguments JNull {B}.
Arguments JBool {B} b.
Arguments JNumber {B} n.
Arguments JString {B} s.
Arguments JArray {B} l.
Arguments JObject {B} kvs.
Arguments JBuffer {B} b.

(** A structured value: buffers are byte sequences. *)
Definition value : Type := js (list byte).

(** A JSON document: no buffer nodes. *)
Definition json : Type := js Empty_set.

Section js_induction.
Context {B : Type} (P : js B → Prop).
Hypothesis HNull : P JNull.
Hypothesis HBool : ∀ b, P (JBool b).
Hypothesis HNumber : ∀ n, P (JNumber n).
Hypothesis HString : ∀ s, P (JString s).
Hypothesis HArray : ∀ l, Forall P l → P (JArray l).
Hypothesis HObject : ∀ kvs, Forall (λ kv, P kv.2) kvs → P (JObject kvs).
Hypothesis HBuffer : ∀ b, P (JBuffer b).

Fixpoint js_ind (v : js B) : P v :=
  match v with
  | JNull => HNull
  | JBool b => HBool b
  | JNumber n => HNumber n
  | JString s => HString s
  | JArray l =>
      HArray l
        ((fix go (l : list (js B)) : Forall P l :=
            match l with
            | [] => Forall_nil_2 P
            | x :: l' => Forall_cons_2 P x l' (js_ind x) (go l')
            end) l)
  | JObject kvs =>
      HObject kvs
        ((fix go (kvs : list (string * js B)) : Forall (λ kv, P kv.2) kvs :=
            match kvs with
            | [] => Forall_nil_2 _
            | kv :: kvs' =>
                Forall_cons_2 (λ kv, P kv.2) kv kvs' (js_ind kv.2) (go kvs')
            end) kvs)
  | JBuffer b => HBuffer b
  end.
End js_induction.

(** Property lookup in an object literal: the first binding of the key. *)
Fixpoint assoc {A : Type} (k : string) (kvs : list (string * A)) : option A :=
  match kvs with
  | [] => None
  | (k', x) :: kvs' => if bool_decide (k' = k) then Some x else assoc k kvs'
  end.

(** [v.k] for the property names the store inspects ([type], [data],
    [index], [size], [key]): own properties of objects; [undefined] ([None])
    on every other value. *)
Definition get {B : Type} (k : string) (v : js B) : option (js B) :=
  match v with
  | JObject kvs => assoc k kvs
  | _ => None
  end.

(** JavaScript truthiness. *)
Definition truthy {B : Type} (v : js B) : bool :=
  match v with
  | JNull => false
  | JBool b => b
  | JNumber n => negb (n =? 0)
  | JString s => negb (bool_decide (s = ""))
  | JArray _ | JObject _ | JBuffer _ => true
  end.

(** [o && ...] on a possibly undefined property. *)
Definition truthy_prop {B : Type} (o : option (js B)) : bool :=
  match o with
  | Some v => truthy v
  | None => false
  end.

(** [o === s] for a string literal [s]. *)
Definition is_string {B : Type} (s : string) (o : option (js B)) : bool :=
  match o with
  | Some (JString s') => bool_decide (s' = s)
  | _ => false
  end.

(** [typeof o === 'number']. *)
Definition is_number {B : Type} (o : option (js B)) : bool :=
  match o with
  | Some (JNumber _) => true
  | _ => false
  end.

(** ** Errors and results *)

Inductive error : Type :=
  | ENOENT          (* a file-system error whose code is 'ENOENT' *)
  | TypeError       (* property access on undefined or null, bad Buffer.from argument *)
  | RangeError      (* Buffer.alloc with a negative size *)
  | SyntaxError     (* JSON.parse on a file that is not JSON *)
  | MetaNotJson     (* Error('fs-cache meta file is not valid json') *)
  | EntryTooLarge (newDataLength maxsize : Z)
                    (* Error(`not setting cache value ..., value is length
                       ${newDataLength} and maxsize is ${maxsize}`) *)
  | IllShapedMeta   (* meta.json holds JSON that is not an index object: the
                       model stops there *)
  | OutOfFuel.      (* the bound of a loop of the model was reached; never
                       returned by the store (see [unlink_loop_fuel]) *)

Inductive result (A : Type) : Type :=
  | Ok (a : A)
  | Err (e : error).

Arguments Ok {A} a.
Arguments Err {A} e.

Definition rbind {A B : Type} (r : result A) (k : A → result B) : result B :=
  match r with
  | Ok a => k a
  | Err e => Err e
  end.

Notation "'let?' x := r 'in' k" := (rbind r (λ x, k))
  (at level 10, x pattern, r at level 100, k at level 200).

(** A function that threads a state and may fail, over the elements of a
    list, from left to right. *)
Definition mapM_state {A B S : Type} (f : A → S → result (B * S))
  : list A → S → result (list B * S) :=
  fix go (l : list A) (st : S) {struct l} : result (list B * S) :=
    match l with
    | [] => Ok ([], st)
    | x :: l' =>
        let? (y, st1) := f x st in
        let? (ys, st2) := go l' st1 in
        Ok (y :: ys, st2)
    end.

(** ** Bytes *)

Definition Z_of_byte (b : byte) : Z := Z.of_N (Byte.to_N b).

(** The conversion of a number to an unsigned 8-bit integer. *)
Definition byte_of_Z (z : Z) : byte :=
  default x00 (Byte.of_N (Z.to_N (z mod 256))).

(** UTF-8 encoding of a string of 8-bit code units. *)
Definition utf8_of_char (c : ascii) : list byte :=
  let n := Z.of_N (N_of_ascii c) in
  if n <? 128 then [byte_of_Z n]
  else [byte_of_Z (192 + n / 64); byte_of_Z (128 + n mod 64)].

Fixpoint utf8 (s : string) : list byte :=
  match s with
  | EmptyString => []
  | String c s' => utf8_of_char c ++ utf8 s'
  end.

(** ** Files *)

Inductive content : Type :=
  | FJson (d : json)          (* a text file holding the JSON text of [d] *)
  | FBin (bs : list byte).    (* any other file *)

Abbreviation fs := (gmap string content).

(** ** The platform *)

(** What Node does where the store hands it values of unexpected types is not
    part of the store: the conversion of a value that is not a number to a
    number ([None] is NaN), and [Buffer.from] on an object that is neither an
    array nor a buffer. The development is parametric in both. *)
Class Platform : Type := {
  ToNumber_other : value → option Z;
  Buffer_from_object : list (string * value) → result (list byte);
}.

(** A platform for running the store on concrete values: [null] and the
    booleans convert to 0 and 1, every other non-number to NaN, and
    [Buffer.from] rejects plain objects. *)
Definition basic_platform : Platform :=
  {| ToNumber_other v :=
       match v with
       | JNull => Some 0
       | JBool b => Some (if b then 1 else 0)
       | _ => None
       end;
     Buffer_from_object _ := Err TypeError |}.

Section Store.
Context `{Platform}.

Definition ToNumber (v : value) : option Z :=
  match v with
  | JNumber n => Some n
  | _ => ToNumber_other v
  end.

(** An array element stored into a byte buffer. *)
Definition ToUint8 (v : value) : byte :=
  match ToNumber v with
  | Some n => byte_of_Z n
  | None => x00
  end.

(** [Buffer.from(v)]. *)
Definition Buffer_from (v : value) : result (list byte) :=
  match v with
  | JString s => Ok (utf8 s)
  | JArray l => Ok (map ToUint8 l)
  | JBuffer bs => Ok bs
  | JObject kvs => Buffer_from_object kvs
  | JNull | JBool _ | JNumber _ => Err TypeError
  end.

(** [Buffer.alloc(size)]: a zero-filled buffer. *)
Definition Buffer_alloc (size : Z) : result (list byte) :=
  if size <? 0 then Err RangeError else Ok (replicate (Z.to_nat size) x00).

(** [v.length]. *)
Definition length_prop (v : value) : option value :=
  match v with
  | JString s => Some (JNumber (Z.of_nat (String.length s)))
  | JArray l => Some (JNumber (Z.of_nat (length l)))
  | JBuffer bs => Some (JNumber (Z.of_nat (length bs)))
  | JObject kvs => assoc "length" kvs
  | JNull | JBool _ | JNumber _ => None
  end.

(** [o >= k] for a number literal [k]. *)
Definition ge_number (o : option value) (k : Z) : bool :=
  match o with
  | Some v =>
      match ToNumber v with
      | Some n => k <=? n
      | None => false
      end
  | None => false
  end.

(** ** JSON text *)

Definition hex_digit (n : Z) : ascii :=
  default "0"%char (String.get (Z.to_nat n) "0123456789abcdef").

(** The double quote, code unit 34. *)
Definition dquote : string := String (ascii_of_N 34) EmptyString.

(** The escape of one code unit inside a JSON string literal. *)
Definition quote_char (c : ascii) : string :=
  let n := Z.of_N (N_of_ascii c) in
  if n =? 8 then "\b"
  else if n =? 9 then "\t"
  else if n =? 10 then "\n"
  else if n =? 12 then "\f"
  else if n =? 13 then "\r"
  else if n =? 34 then String "\"%char dquote
  else if n =? 92 then "\\"
  else if n <? 32 then
    "\u00" +:+ String (hex_digit (n / 16)) (String (hex_digit (n mod 16)) EmptyString)
  else String c EmptyString.

Fixpoint quote_chars (s : string) : string :=
  match s with
  | EmptyString => EmptyString
  | String c s' => quote_char c +:+ quote_chars s'
  end.

Definition QuoteJSONString (s : string) : string :=
  dquote +:+ quote_chars s +:+ dquote.

Fixpoint join_commas (l : list string) : string :=
  match l with
  | [] => ""
  | [s] => s
  | s :: l' => s +:+ "," +:+ join_commas l'
  end.

(** The text [JSON.stringify] produces for a document, without indentation. *)
Fixpoint JSON_stringify_text (d : json) : string :=
  match d with
  | JNull => "null"
  | JBool true => "true"
  | JBool false => "false"
  | JNumber n => pretty n
  | JString s => QuoteJSONString s
  | JArray l => "[" +:+ join_commas (map JSON_stringify_text l) +:+ "]"
  | JObject kvs =>
      "{" +:+
      join_commas
        (map (λ kv, QuoteJSONString kv.1 +:+ ":" +:+ JSON_stringify_text kv.2) kvs)
      +:+ "}"
  | JBuffer b => match b with end
  end.

(** ** Encoding: [JSON.stringify(data, replacerFunction)] *)

(** One element of [externalBuffers]. *)
Record ExternalBuffer : Type := {
  eb_index : Z;
  eb_buffer : list byte;
}.

(** The variables the replacer closes over. *)
Record enc_state : Type := {
  externalBuffers : list ExternalBuffer;
  externalBuffersLength : Z;
}.

Definition enc_init : enc_state :=
  {| externalBuffers := []; externalBuffersLength := 0 |}.

(** [Buffer.prototype.toJSON]: buffers serialize to
    [{type: 'Buffer', data: [...]}]; other values have no [toJSON]. *)
Definition buffer_json {B : Type} (bs : list byte) : js B :=
  JObject [("type", JString "Buffer");
           ("data", JArray (map (λ b, JNumber (Z_of_byte b)) bs))].

Definition toJSON (v : value) : value :=
  match v with
  | JBuffer bs => buffer_json bs
  | _ => v
  end.

Definition placeholder {B : Type} (index size : Z) : js B :=
  JObject [("type", JString "ExternalBuffer");
           ("index", JNumber index);
           ("size", JNumber size)].

(** The test of [replacerFunction]:
    [value && value.type === 'Buffer' && value.data
     && value.data.length >= 1024]. *)
Definition shouldExternalize (v : value) : bool :=
  truthy v && is_string "Buffer" (get "type" v) &&
  match get "data" v with
  | Some d => truthy d && ge_number (length_prop d) 1024
  | None => false
  end.

Definition replacerFunction (v : value) (st : enc_state)
  : result (value * enc_state) :=
  if shouldExternalize v then
    match get "data" v with
    | Some d =>
        let? buffer := Buffer_from d in
        let pushed :=
          externalBuffers st ++
          [{| eb_index := Z.of_nat (length (externalBuffers st));
              eb_buffer := buffer |}] in
        Ok (placeholder (Z.of_nat (length pushed) - 1) (Z.of_nat (length buffer)),
            {| externalBuffers := pushed;
               externalBuffersLength :=
                 externalBuffersLength st + Z.of_nat (length buffer) |})
    | None => Ok (v, st)
    end
  else Ok (v, st).

(** The JSON tree of a value on which the replacer has nothing left to do:
    buffers appear in their [toJSON] form. *)
Fixpoint plain (v : value) : json :=
  match v with
  | JNull => JNull
  | JBool b => JBool b
  | JNumber n => JNumber n
  | JString s => JString s
  | JArray l => JArray (map plain l)
  | JObject kvs => JObject (map (λ kv, (kv.1, plain kv.2)) kvs)
  | JBuffer bs => buffer_json bs
  end.

(** [SerializeJSONProperty]: [toJSON], then the replacer, then the properties
    of what the replacer returned. The replacer returns either its argument,
    whose properties are visited in turn, or a placeholder, whose properties
    are a string and two numbers (see [serialize_equation]). *)
Fixpoint serialize (v : value) (st : enc_state) {struct v}
  : result (json * enc_state) :=
  let? (v2, st') := replacerFunction (toJSON v) st in
  if shouldExternalize (toJSON v) then Ok (plain v2, st')
  else
    match v with
    | JArray l =>
        let? (ds, st'') := mapM_state serialize l st' in
        Ok (JArray ds, st'')
    | JObject kvs =>
        let? (ds, st'') :=
          mapM_state
            (λ kv st, let? (d, st1) := serialize kv.2 st in Ok ((kv.1, d), st1))
            kvs st' in
        Ok (JObject ds, st'')
    | _ => Ok (plain v2, st')
    end.

(** ** Decoding: [JSON.parse(dataString, bufferReceiver)] *)

(** A buffer of the tree under construction: a buffer made by [Buffer.from],
    which nothing else refers to, or the buffer of the element [slot] of
    [externalBuffers], made by [Buffer.alloc] and filled after the parse. *)
Inductive rbuf : Type :=
  | Fresh (bs : list byte)
  | Pending (slot : nat).

Definition revived : Type := js rbuf.

(** The value a tree denotes, given the present contents of the shared
    buffers. *)
Fixpoint resolve (h : list ExternalBuffer) (r : revived) : value :=
  match r with
  | JNull => JNull
  | JBool b => JBool b
  | JNumber n => JNumber n
  | JString s => JString s
  | JArray l => JArray (map (resolve h) l)
  | JObject kvs => JObject (map (λ kv, (kv.1, resolve h kv.2)) kvs)
  | JBuffer (Fresh bs) => JBuffer bs
  | JBuffer (Pending slot) => JBuffer (from_option eb_buffer [] (h !! slot))
  end.

(** [Buffer.from(value.data)] copies what [value.data] holds when the reviver
    runs; the buffer made by [Buffer.alloc] is the one recorded in
    [externalBuffers]. *)
Definition bufferReceiver (v : revived) (h : list ExternalBuffer)
  : result (revived * list ExternalBuffer) :=
  if truthy v && is_string "Buffer" (get "type" v) && truthy_prop (get "data" v)
  then
    match get "data" v with
    | Some d => let? bs := Buffer_from (resolve h d) in Ok (JBuffer (Fresh bs), h)
    | None => Ok (v, h)
    end
  else if truthy v && is_string "ExternalBuffer" (get "type" v) &&
          is_number (get "index" v) && is_number (get "size" v)
  then
    match get "index" v, get "size" v with
    | Some (JNumber index), Some (JNumber size) =>
        let? buffer := Buffer_alloc size in
        Ok (JBuffer (Pending (length h)),
            h ++ [{| eb_index := index; eb_buffer := buffer |}])
    | _, _ => Ok (v, h)
    end
  else Ok (v, h).

(** [InternalizeJSONProperty]: the properties first, in order, then the
    reviver on the node. *)
Fixpoint internalize (d : json) (h : list ExternalBuffer) {struct d}
  : result (revived * list ExternalBuffer) :=
  match d with
  | JNull => bufferReceiver JNull h
  | JBool b => bufferReceiver (JBool b) h
  | JNumber n => bufferReceiver (JNumber n) h
  | JString s => bufferReceiver (JString s) h
  | JArray l =>
      let? (rs, h') := mapM_state internalize l h in
      bufferReceiver (JArray rs) h'
  | JObject kvs =>
      let? (rs, h') :=
        mapM_state
          (λ kv h, let? (r, h1) := internalize kv.2 h in Ok ((kv.1, r), h1))
          kvs h in
      bufferReceiver (JObject rs) h'
  | JBuffer b => match b with end
  end.

(** ** The file system *)

(** An asynchronous computation: it changes the file system and succeeds or
    is rejected. *)
Definition M (A : Type) : Type := fs → result A * fs.

Definition ret {A : Type} (a : A) : M A := λ st, (Ok a, st).

Definition throw {A : Type} (e : error) : M A := λ st, (Err e, st).

Definition bind {A B : Type} (m : M A) (k : A → M B) : M B :=
  λ st,
    match m st with
    | (Ok a, st') => k a st'
    | (Err e, st') => (Err e, st')
    end.

(** [try { m } catch (err) { handler err }]. *)
Definition catch {A : Type} (m : M A) (handler : error → M A) : M A :=
  λ st,
    match m st with
    | (Ok a, st') => (Ok a, st')
    | (Err e, st') => handler e st'
    end.

Definition lift {A : Type} (r : result A) : M A := λ st, (r, st).

Notation "'let!' x := m 'in' k" := (bind m (λ x, k))
  (at level 10, x pattern, m at level 100, k at level 200).
Notation "m ;; k" := (bind m (λ _, k))
  (at level 100, k at level 200, right associativity).

(** [Promise.all(tasks)]. *)
Fixpoint Promise_all {A : Type} (tasks : list (M A)) : M (list A) :=
  match tasks with
  | [] => ret []
  | t :: ts =>
      λ st,
        let (r, st1) := t st in
        let (rs, st2) := Promise_all ts st1 in
        (let? a := r in let? l := rs in Ok (a :: l), st2)
  end.

Definition fs_readFile (name : string) : M content :=
  λ st,
    match st !! name with
    | Some c => (Ok c, st)
    | None => (Err ENOENT, st)
    end.

Definition fs_writeFile (name : string) (c : content) : M unit :=
  λ st, (Ok tt, <[name := c]> st).

Definition fs_unlink (name : string) : M unit :=
  λ st,
    match st !! name with
    | Some _ => (Ok tt, delete name st)
    | None => (Err ENOENT, st)
    end.

(** The bytes of a file. *)
Definition content_bytes (c : content) : list byte :=
  match c with
  | FJson d => utf8 (JSON_stringify_text d)
  | FBin bs => bs
  end.

(** [JSON.parse] of the contents of a file read as text. *)
Definition JSON_parse (c : content) : result json :=
  match c with
  | FJson d => Ok d
  | FBin _ => Err SyntaxError
  end.

(** [fs.open(name, 'r')], [fs.read(fd, buffer, 0, buffer.length, 0)],
    [fs.close(fd)]: as many bytes as the file has, at most [buffer.length],
    are copied to the start of the buffer. *)
Definition fs_read_into (name : string) (buffer : list byte) : M (list byte) :=
  let! c := fs_readFile name in
  ret (take (length buffer) (content_bytes c) ++
       drop (length (content_bytes c)) buffer).

(** ** The metadata index *)

Record Entry : Type := {
  entry_path : string;
  entry_size : Z;
  entry_created : Z;
}.

(** [{ size, entries }]; [entries] is an object used as a map from paths to
    entries, in insertion order. *)
Record Metadata : Type := {
  meta_size : Z;
  meta_entries : list (string * Entry);
}.

(** [obj[k] = x]: an existing property keeps its place. *)
Fixpoint assoc_set {A : Type} (k : string) (x : A) (kvs : list (string * A))
  : list (string * A) :=
  match kvs with
  | [] => [(k, x)]
  | (k', y) :: kvs' =>
      if bool_decide (k' = k) then (k, x) :: kvs' else (k', y) :: assoc_set k x kvs'
  end.

(** [delete obj[k]]. *)
Definition assoc_delete {A : Type} (k : string) (kvs : list (string * A))
  : list (string * A) :=
  filter (λ kv, kv.1 ≠ k) kvs.

(** [Object.values(obj)]. *)
Definition Object_values {A : Type} (kvs : list (string * A)) : list A :=
  map snd kvs.

Definition entry_to_json (e : Entry) : json :=
  JObject [("path", JString (entry_path e));
           ("size", JNumber (entry_size e));
           ("created", JNumber (entry_created e))].

Definition metadata_to_json (m : Metadata) : json :=
  JObject [("size", JNumber (meta_size m));
           ("entries",
            JObject (map (λ kv, (kv.1, entry_to_json kv.2)) (meta_entries m)))].

Definition entry_of_json (d : json) : option Entry :=
  match d with
  | JObject [("path", JString p); ("size", JNumber s); ("created", JNumber c)] =>
      Some {| entry_path := p; entry_size := s; entry_created := c |}
  | _ => None
  end.

Fixpoint entries_of_json (kvs : list (string * json))
  : option (list (string * Entry)) :=
  match kvs with
  | [] => Some []
  | (k, d) :: kvs' =>
      match entry_of_json d, entries_of_json kvs' with
      | Some e, Some es => Some ((k, e) :: es)
      | _, _ => None
      end
  end.

(** The index a JSON document denotes, when it has the shape
    [writeMetaFile] writes. *)
Definition metadata_of_json (d : json) : option Metadata :=
  match d with
  | JObject [("size", JNumber s); ("entries", JObject kvs)] =>
      match entries_of_json kvs with
      | Some es => Some {| meta_size := s; meta_entries := es |}
      | None => None
      end
  | _ => None
  end.

Definition metaFilePath (cachePath : string) : string :=
  cachePath +:+ "/meta.json".

Definition readMetaFile (cachePath : string) : M Metadata :=
  catch
    (let! fileContents := fs_readFile (metaFilePath cachePath) in
     let! metadata := lift (JSON_parse fileContents) in
     match metadata_of_json metadata with
     | Some m => ret m
     | None => throw IllShapedMeta
     end)
    (λ err,
       match err with
       | ENOENT => ret {| meta_size := 0; meta_entries := [] |}
       | SyntaxError => throw MetaNotJson
       | _ => throw err
       end).

Definition writeMetaFile (cachePath : string) (metadata : Metadata) : M unit :=
  fs_writeFile (metaFilePath cachePath) (FJson (metadata_to_json metadata)).

(** ** The store operations *)

Definition json_name (path : string) : string := path +:+ ".json".

Definition bin_name (path : string) (index : Z) : string :=
  path +:+ "-" +:+ pretty index +:+ ".bin".

(** [for (let i = 0; i < Infinity; i++) await unlink(path + '-' + i + '.bin')]:
    the loop ends by a rejection only. *)
Fixpoint unlink_loop (fuel : nat) (path : string) (i : Z) : M unit :=
  match fuel with
  | O => throw OutOfFuel
  | S fuel' => fs_unlink (bin_name path i) ;; unlink_loop fuel' path (i + 1)
  end.

(** [if (cachePath)]: neither undefined nor the empty string. *)
Definition given (cachePath : option string) : option string :=
  match cachePath with
  | Some c => if bool_decide (c = "") then None else Some c
  | None => None
  end.

(** [exports.delete(path, { path: cachePath })]. The bound of the loop is
    one more than the number of files, each turn removing one. *)
Definition exports_delete (path : string) (cachePath : option string) : M unit :=
  fs_unlink (json_name path) ;;
  catch
    (λ st, unlink_loop (S (size st)) path 0 st)
    (λ err,
       match err with
       | ENOENT => ret tt
       | _ => throw err
       end) ;;
  match given cachePath with
  | Some cachePath =>
      let! metadata := readMetaFile cachePath in
      match assoc path (meta_entries metadata) with
      | None => throw TypeError
      | Some entry =>
          writeMetaFile cachePath
            {| meta_size := meta_size metadata - entry_size entry;
               meta_entries := meta_entries metadata |}
      end
  | None => ret tt
  end.

(** [Array.prototype.sort] with the comparator on [created]: a stable sort. *)
Fixpoint insert_by_created (e : Entry) (l : list Entry) : list Entry :=
  match l with
  | [] => [e]
  | x :: l' =>
      if entry_created x <? entry_created e
      then x :: insert_by_created e l'
      else e :: x :: l'
  end.

Definition sort_by_created (l : list Entry) : list Entry :=
  foldr insert_by_created [] l.

(** The [while] loop of [reduceCacheSize]. *)
Fixpoint evict_loop (entriesByDate : list Entry) (sizeDeleted bytesToReduce : Z)
    (entriesToDelete : list Entry) (metadata : Metadata)
  : result (list Entry * Metadata) :=
  if sizeDeleted <? bytesToReduce then
    match entriesByDate with
    | [] => Err TypeError
    | entry :: entriesByDate' =>
        evict_loop entriesByDate' (sizeDeleted + entry_size entry) bytesToReduce
          (entriesToDelete ++ [entry])
          {| meta_size := meta_size metadata - entry_size entry;
             meta_entries := assoc_delete (entry_path entry) (meta_entries metadata) |}
    end
  else Ok (entriesToDelete, metadata).

(** [reduceCacheSize(metadata, bytesToReduce)]: the index is changed in place
    and returned, so the index of the caller is the one returned here. *)
Definition reduceCacheSize (metadata : Metadata) (bytesToReduce : Z) : M Metadata :=
  let entriesByDate := sort_by_created (Object_values (meta_entries metadata)) in
  let! (entriesToDelete, metadata) :=
    lift (evict_loop entriesByDate 0 bytesToReduce [] metadata) in
  Promise_all (map (λ entry, exports_delete (entry_path entry) None) entriesToDelete) ;;
  ret metadata.

(** [dataString.length]. *)
Definition dataString_length (dataString : json) : Z :=
  Z.of_nat (String.length (JSON_stringify_text dataString)).

(** [exports.write(path, data, { path: cachePath, maxsize })]; [now] is what
    [Date.now()] returns. The message of the size error is built from
    [data.key], which faults when [data] is [null]. *)
Definition exports_write (path : string) (data : value)
    (cachePath : string) (maxsize : Z) (now : Z) : M unit :=
  let! (dataString, st) := lift (serialize data enc_init) in
  let newDataLength := dataString_length dataString + externalBuffersLength st in
  (if maxsize <? newDataLength then
     match data with
     | JNull => throw TypeError
     | _ => throw (EntryTooLarge newDataLength maxsize)
     end
   else ret tt) ;;
  let! metadata := readMetaFile cachePath in
  let newCacheSize := meta_size metadata + newDataLength in
  let! metadata :=
    (if maxsize <? newCacheSize
     then reduceCacheSize metadata (newCacheSize - maxsize)
     else ret metadata) in
  fs_writeFile (json_name path) (FJson dataString) ;;
  let metadata :=
    {| meta_size := meta_size metadata + newDataLength;
       meta_entries :=
         assoc_set path
           {| entry_path := path; entry_size := newDataLength; entry_created := now |}
           (meta_entries metadata) |} in
  writeMetaFile cachePath metadata ;;
  Promise_all
    (map (λ externalBuffer,
            fs_writeFile (bin_name path (eb_index externalBuffer))
              (FBin (eb_buffer externalBuffer)))
       (externalBuffers st)) ;;
  ret tt.

(** [exports.read(path)]. *)
Definition exports_read (path : string) : M value :=
  let! dataString := fs_readFile (json_name path) in
  let! parsed := lift (JSON_parse dataString) in
  let! (data, externalBuffers) := lift (internalize parsed []) in
  let! filled :=
    Promise_all
      (map (λ externalBuffer,
              let! buffer :=
                fs_read_into (bin_name path (eb_index externalBuffer))
                  (eb_buffer externalBuffer) in
              ret {| eb_index := eb_index externalBuffer; eb_buffer := buffer |})
         externalBuffers) in
  ret (resolve filled data).

(** ** Definitions used to state the properties *)

(** The sum of the sizes of a list of entries. *)
Definition sum_sizes (l : list Entry) : Z :=
  foldr (λ e acc, entry_size e + acc) 0 l.

(** Invariant I1: the recorded total is the sum over the entries map. *)
Definition size_invariant (m : Metadata) : Prop :=
  meta_size m = sum_sizes (Object_values (meta_entries m)).

(** Ascending order of creation time. *)
Definition created_le (a b : Entry) : Prop := entry_created a ≤ entry_created b.

(** The file system after the segment files of [path] are written. *)
Definition write_segments (path : string) (ebs : list ExternalBuffer) (st : fs) : fs :=
  foldl (λ st eb, <[bin_name path (eb_index eb) := FBin (eb_buffer eb)]> st) st ebs.

(** The entries of an index in the order in which eviction takes them. *)
Definition entriesByDate (m : Metadata) : list Entry :=
  sort_by_created (Object_values (meta_entries m)).

(** What eviction with target [bytesToReduce] does to the index [m]: the
    entries taken, [popped], are the shortest front of the entries in
    ascending order of creation time whose sizes add up to the target; [m']
    is [m] without their sizes and without the keys they name. *)
Definition oldest_first_eviction (m : Metadata) (bytesToReduce : Z)
    (popped rest : list Entry) (m' : Metadata) : Prop :=
  entriesByDate m ≡ₚ Object_values (meta_entries m) ∧
  StronglySorted created_le (entriesByDate m) ∧
  entriesByDate m = popped ++ rest ∧
  (∀ e e', e ∈ popped → e' ∈ rest → entry_created e ≤ entry_created e') ∧
  bytesToReduce ≤ sum_sizes popped ∧
  (∀ j, (j < length popped)%nat → sum_sizes (take j popped) < bytesToReduce) ∧
  meta_size m' = meta_size m - sum_sizes popped ∧
  (∀ k, assoc k (meta_entries m') =
        if decide (k ∈ map entry_path popped) then None
        else assoc k (meta_entries m)).

(** The index after [exports.write] has recorded an entry of [size] bytes. *)
Definition with_entry (path : string) (size now : Z) (m : Metadata) : Metadata :=
  {| meta_size := meta_size m + size;
     meta_entries :=
       assoc_set path
         {| entry_path := path; entry_size := size; entry_created := now |}
         (meta_entries m) |}.

(** A sequence of operations on one cache. *)
Inductive operation : Type :=
  | OpWrite (path : string) (data : value) (now : Z)
  | OpDelete (path : string) (cachePath : option string).

Fixpoint run_operations (cachePath : string) (maxsize : Z) (ops : list operation)
  : M unit :=
  match ops with
  | [] => ret tt
  | OpWrite path data now :: ops' =>
      exports_write path data cachePath maxsize now ;;
      run_operations cachePath maxsize ops'
  | OpDelete path cachePath' :: ops' =>
      exports_delete path cachePath' ;;
      run_operations cachePath maxsize ops'
  end.

(** The shape [bufferReceiver] takes for a serialized buffer, and the shape it
    takes for a placeholder. *)
Definition buffer_like {B : Type} (v : js B) : bool :=
  is_string "Buffer" (get "type" v) && truthy_prop (get "data" v).

Definition placeholder_like {B : Type} (v : js B) : bool :=
  is_string "ExternalBuffer" (get "type" v) &&
  is_number (get "index" v) && is_number (get "size" v).

(** A test that holds at every node of a value. *)
Fixpoint all_nodes (P : value → bool) (v : value) : bool :=
  P v &&
  match v with
  | JArray l => forallb (all_nodes P) l
  | JObject kvs => forallb (λ kv, all_nodes P kv.2) kvs
  | _ => true
  end.

(** The elements of a plain object that has the form of a serialized
    buffer: [type] is 'Buffer' and [data] is an array. *)
Definition serialized_data (v : value) : option (list value) :=
  if is_string "Buffer" (get "type" v) then
    match get "data" v with
    | Some (JArray l) => Some l
    | _ => None
    end
  else None.

(** The same, when there are 1024 elements or more. *)
Definition large_serialized_data (v : value) : option (list value) :=
  match serialized_data v with
  | Some l => if 1024 <=? Z.of_nat (length l) then Some l else None
  | None => None
  end.

(** Every plain object of the value that [bufferReceiver] would take for a
    serialized buffer has the form of one: its [data] is an array. *)
Definition array_buffers (v : value) : bool :=
  all_nodes
    (λ v, match serialized_data v with
          | Some _ => true
          | None => negb (buffer_like v)
          end) v.

(** No plain object of the value has the shape of a serialized buffer or of
    a placeholder. *)
Definition shape_free (v : value) : bool :=
  all_nodes (λ v, negb (buffer_like v) && negb (placeholder_like v)) v.

(** A traversal from left to right that numbers the segments it extracts:
    [next] is the index of the next segment. *)
Definition thread_segments {A B : Type} (f : A → nat → B * list (list byte))
  : list A → nat → list B * list (list byte) :=
  fix go (l : list A) (next : nat) {struct l} : list B * list (list byte) :=
    match l with
    | [] => ([], [])
    | x :: l' =>
        let (y, segs1) := f x next in
        let (ys, segs2) := go l' (next + length segs1)%nat in
        (y :: ys, segs1 ++ segs2)
    end.

(** The encoding as the specification words it (section 4.1): a depth-first
    traversal in which a buffer-shaped node, a buffer or an object of the
    form [{type: 'Buffer', data: [...]}], of 1024 bytes or more is replaced
    by a placeholder that carries its index and size, its bytes being
    appended to the segment list, and a smaller one stays inline. The result
    is the document and the segments extracted, in order. *)
Fixpoint spec_encode (v : value) (next : nat) : json * list (list byte) :=
  match v with
  | JNull => (JNull, [])
  | JBool b => (JBool b, [])
  | JNumber n => (JNumber n, [])
  | JString s => (JString s, [])
  | JArray l =>
      let (ds, segs) := thread_segments spec_encode l next in
      (JArray ds, segs)
  | JObject kvs =>
      match large_serialized_data (JObject kvs) with
      | Some l =>
          (placeholder (Z.of_nat next) (Z.of_nat (length l)), [map ToUint8 l])
      | None =>
          let (ds, segs) :=
            thread_segments
              (λ kv next, let (d, segs) := spec_encode kv.2 next in ((kv.1, d), segs))
              kvs next in
          (JObject ds, segs)
      end
  | JBuffer bs =>
      if 1024 <=? Z.of_nat (length bs)
      then (placeholder (Z.of_nat next) (Z.of_nat (length bs)), [bs])
      else (buffer_json bs, [])
  end.

(** The state of the replacer after it has extracted [segs]. *)
Definition push_segments (st : enc_state) (segs : list (list byte)) : enc_state :=
  {| externalBuffers :=
       externalBuffers st ++
       imap (λ i bs,
               {| eb_index := Z.of_nat (length (externalBuffers st) + i);
                  eb_buffer := bs |}) segs;
     externalBuffersLength :=
       externalBuffersLength st + Z.of_nat (length (concat segs)) |}.

(** The elements [read] records for the placeholders of segments numbered
    from [next]: zero-filled buffers of the sizes of the segments. *)
Definition pending_of (next : nat) (segs : list (list byte)) : list ExternalBuffer :=
  imap (λ i bs,
          {| eb_index := Z.of_nat (next + i);
             eb_buffer := replicate (length bs) x00 |}) segs.

(** The same elements once their buffers hold the segments. *)
Definition filled_of (next : nat) (segs : list (list byte)) : list ExternalBuffer :=
  imap (λ i bs, {| eb_index := Z.of_nat (next + i); eb_buffer := bs |}) segs.

(** The buffers of [hp] from position [k] on hold the segments [segs]. *)
Definition agrees (hp : list ExternalBuffer) (k : nat) (segs : list (list byte)) : Prop :=
  ∀ i bs, segs !! i = Some bs → eb_buffer <$> hp !! (k + i)%nat = Some bs.

(** What the read of one pending buffer leaves in it, when the segment file
    exists. *)
Definition fill_from (st : fs) (path : string) (e : ExternalBuffer)
  : option ExternalBuffer :=
  match st !! bin_name path (eb_index e) with
  | Some c =>
      Some {| eb_index := eb_index e;
              eb_buffer :=
                take (length (eb_buffer e)) (content_bytes c) ++
                drop (length (content_bytes c)) (eb_buffer e) |}
  | None => None
  end.

(** A buffer that holds zeros only. *)
Definition zeroed (e : ExternalBuffer) : Prop :=
  eb_buffer e = replicate (length (eb_buffer e)) x00.

(** What [read] leaves in a pending buffer whose segment file holds [c]:
    the first bytes of the file, as many as the buffer has room for, and
    zeros after the end of a shorter file. *)
Definition filled_with (e : ExternalBuffer) (c : content) : ExternalBuffer :=
  {| eb_index := eb_index e;
     eb_buffer :=
       take (length (eb_buffer e)) (content_bytes c) ++
       replicate (length (eb_buffer e) - length (content_bytes c)) x00 |}.

(** ** Sample values and caches *)

(** The index of a cache that holds one entry, [c/a], of 6 bytes, created at
    time 100, and the files of that cache. *)
Definition index_a : Metadata :=
  {| meta_size := 6;
     meta_entries :=
       [("c/a", {| entry_path := "c/a"; entry_size := 6; entry_created := 100 |})] |}.

Definition cache_a : fs :=
  <["c/meta.json" := FJson (metadata_to_json index_a)]>
    (<["c/a.json" := FJson (JString "aaaa")]> ∅).

(** An index whose recorded total, 50, exceeds the sizes of its entries. *)
Definition index_short : Metadata :=
  {| meta_size := 50;
     meta_entries :=
       [("c/a", {| entry_path := "c/a"; entry_size := 6; entry_created := 100 |})] |}.

(** A plain object shaped like a serialized buffer of 1024 bytes. *)
Definition large_buffer_object : value :=
  JObject [("type", JString "Buffer"); ("data", JArray (replicate 1024 (JNumber 7)))].

(** A buffer of 1023 bytes, a buffer of 1024 bytes and a plain object in the
    form of a serialized buffer of 1024 bytes. *)
Definition three_buffers : value :=
  JArray [JBuffer (replicate 1023 x00); JBuffer (replicate 1024 x01);
          large_buffer_object].

(** A nested value with a large and a small buffer. *)
Definition nested_value : value :=
  JObject [("a", JBuffer (replicate 1024 xff));
           ("b", JArray [JString "x"; JNull; JBuffer [x01; x02]]);
           ("c", JObject [("n", JNumber 7)])].

(** A plain object that has the shape of a serialized buffer. *)
Definition buffer_object : value :=
  JObject [("type", JString "Buffer"); ("data", JArray [JNumber 1; JNumber 2])].

(** A plain object that has the shape of a placeholder. *)
Definition placeholder_object : value :=
  JObject [("type", JString "ExternalBuffer"); ("index", JNumber 0); ("size", JNumber 1)].

(** An entry [p] whose document is a placeholder for 4 bytes and whose
    segment file holds 2 bytes. *)
Definition truncated_entry : fs :=
  <["p-0.bin" := FBin [x01; x02]]> (<["p.json" := FJson (placeholder 0 4)]> ∅).

(** An index as the store builds it: no path is listed twice and each entry
    is listed under its own path. *)
Definition index_wf (m : Metadata) : Prop :=
  NoDup (map fst (meta_entries m)) ∧
  Forall (λ kv, entry_path kv.2 = kv.1) (meta_entries m).

(** ** Further definitions used to state the properties *)

(** The files of the entry [path]: its document and its segment files, which
    are numbered from 0. *)
Definition entry_file (path name : string) : Prop :=
  name = json_name path ∨ ∃ index, 0 ≤ index ∧ name = bin_name path index.

(** The closure of the replacer is consistent: the element at position [i]
    of [externalBuffers] carries the index [i], and [externalBuffersLength]
    is the number of bytes of all the buffers. *)
Definition segments_numbered (est : enc_state) : Prop :=
  (∀ i e, externalBuffers est !! i = Some e → eb_index e = Z.of_nat i) ∧
  externalBuffersLength est =
    Z.of_nat (length (concat (map eb_buffer (externalBuffers est)))).

(** The operations of a sequence of writes, each given by its path, its
    value and the time at which it runs. *)
Definition writes (ws : list (string * value * Z)) : list operation :=
  map (λ w, OpWrite w.1.1 w.1.2 w.2) ws.

(** ** Further sample values and caches *)

(** An entry [p] with its document and the segment files 0 and 2: the
    segment file 1 is missing. *)
Definition gapped_entry : fs :=
  <["p-2.bin" := FBin [x03]]>
    (<["p-0.bin" := FBin [x01]]> (<["p.json" := FJson JNull]> ∅)).

(** A cache whose index lists [c/a], the document of which is gone. *)
Definition stale_cache : fs :=
  <["c/meta.json" := FJson (metadata_to_json index_a)]> ∅.

(** A cache whose index file does not hold JSON. *)
Definition corrupt_cache : fs := <["c/meta.json" := FBin [x00]]> ∅.


(** The entry of [index_a]. *)
Definition entry_a : Entry :=
  {| entry_path := "c/a"; entry_size := 6; entry_created := 100 |}.

(** A buffer of 1024 bytes, and the closure of the replacer once it is
    extracted. *)
Definition big_buffer : value := JBuffer (replicate 1024 x01).

Definition big_buffer_extracted : enc_state :=
  {| externalBuffers := [{| eb_index := 0; eb_buffer := replicate 1024 x01 |}];
     externalBuffersLength := 1024 |}.

(** The states of the file system after [big_buffer] is written under [c/a]
    into an empty cache, and after a string is then written under [c/b]. *)
Definition two_entries : fs * fs :=
  let st1 := (exports_write "c/a" big_buffer "c" 5000 100 ∅).2 in
  (st1, (exports_write "c/b" (JString "bbbb") "c" 5000 200 st1).2).

(** ** Definitions for eviction and for detection by shape *)

(** What eviction with target [bytesToReduce] does to an index [m] that
    lists each entry once, under its own path: the entries taken, [popped],
    are the shortest front of the entries in ascending order of creation time
    whose sizes add up to the target, [rest] are the others; [m'] is [m]
    without the sizes of the entries taken, and lists, under the same keys,
    the entries of [m] that were not taken, and only them. *)
Definition evicts_oldest_first (m : Metadata) (bytesToReduce : Z)
    (popped rest : list Entry) (m' : Metadata) : Prop :=
  entriesByDate m ≡ₚ Object_values (meta_entries m) ∧
  StronglySorted created_le (entriesByDate m) ∧
  entriesByDate m = popped ++ rest ∧
  (∀ e e', e ∈ popped → e' ∈ rest → entry_created e ≤ entry_created e') ∧
  bytesToReduce ≤ sum_sizes popped ∧
  (∀ j, (j < length popped)%nat → sum_sizes (take j popped) < bytesToReduce) ∧
  meta_size m' = meta_size m - sum_sizes popped ∧
  (∀ k e, assoc k (meta_entries m') = Some e ↔
          assoc k (meta_entries m) = Some e ∧ e ∉ popped) ∧
  Object_values (meta_entries m') ≡ₚ rest.

(** Three entries, listed in the index in an order that is not the order of
    their creation times, and a cache that holds them. *)
Definition entry_b : Entry :=
  {| entry_path := "c/b"; entry_size := 6; entry_created := 300 |}.

Definition entry_d : Entry :=
  {| entry_path := "c/d"; entry_size := 6; entry_created := 200 |}.

Definition index_three : Metadata :=
  {| meta_size := 18;
     meta_entries := [("c/b", entry_b); ("c/a", entry_a); ("c/d", entry_d)] |}.

Definition cache_three : fs :=
  <["c/meta.json" := FJson (metadata_to_json index_three)]>
    (<["c/d.json" := FJson (JString "dddd")]>
       (<["c/a.json" := FJson (JString "aaaa")]>
          (<["c/b.json" := FJson (JString "bbbb")]> ∅))).







(** * Properties *)

(** ** Objects as association lists *)

Lemma assoc_fmap {A B : Type} (f : A → B) k (kvs : list (string * A)) :
  assoc k (map (λ kv, (kv.1, f kv.2)) kvs) = f <$> assoc k kvs.
Proof.
  induction kvs as [|[k' x] kvs IH]; [done|]. simpl.
  by case_bool_decide.
Qed.

Lemma assoc_delete_lookup {A : Type} k k' (kvs : list (string * A)) :
  assoc k (assoc_delete k' kvs) = if decide (k = k') then None else assoc k kvs.
Proof.
  unfold assoc_delete. induction kvs as [|[k0 x] kvs IH]; simpl.
  { by case_decide. }
  rewrite filter_cons. simpl.
  destruct (decide (k0 ≠ k')) as [Hne|Heq]; simpl.
  - rewrite IH. repeat case_decide; repeat case_bool_decide; congruence.
  - apply dec_stable in Heq. subst k0. rewrite IH.
    repeat case_decide; repeat case_bool_decide; congruence.
Qed.

Lemma assoc_set_lookup {A : Type} k k' (x : A) (kvs : list (string * A)) :
  assoc k (assoc_set k' x kvs) = if decide (k = k') then Some x else assoc k kvs.
Proof.
  induction kvs as [|[k0 y] kvs IH]; simpl.
  { case_bool_decide; case_decide; congruence. }
  case_bool_decide; simpl.
  - subst k0. repeat case_bool_decide; case_decide; congruence.
  - rewrite IH. repeat case_bool_decide; case_decide; congruence.
Qed.

(** ** Sorting by creation time *)

Lemma insert_by_created_perm e l : insert_by_created e l ≡ₚ e :: l.
Proof.
  induction l as [|x l IH]; [done|]. simpl.
  destruct (entry_created x <? entry_created e); [|done].
  rewrite IH. apply Permutation_swap.
Qed.

Lemma sort_by_created_perm l : sort_by_created l ≡ₚ l.
Proof.
  induction l as [|x l IH]; [done|]. simpl.
  by rewrite insert_by_created_perm, IH.
Qed.

Lemma insert_by_created_sorted e l :
  StronglySorted created_le l → StronglySorted created_le (insert_by_created e l).
Proof.
  induction 1 as [|x l Hl IH Hx]; simpl.
  { repeat constructor. }
  destruct (entry_created x <? entry_created e) eqn:Hlt.
  - constructor; [done|].
    apply Z.ltb_lt in Hlt.
    rewrite insert_by_created_perm. constructor; [unfold created_le; lia|done].
  - apply Z.ltb_ge in Hlt.
    constructor; [by constructor|].
    constructor; [done|].
    eapply Forall_impl; [exact Hx|]. unfold created_le. intros; simpl in *; lia.
Qed.

Lemma sort_by_created_sorted l : StronglySorted created_le (sort_by_created l).
Proof.
  induction l as [|x l IH]; simpl; [constructor|].
  by apply insert_by_created_sorted.
Qed.

(** The sort is stable: entries with the same creation time keep the order
    in which [Object.values] lists them. *)
Lemma insert_by_created_filter c e l :
  filter (λ x, entry_created x = c) (insert_by_created e l) =
  filter (λ x, entry_created x = c) (e :: l).
Proof.
  induction l as [|x l IH]; [done|]. simpl.
  destruct (entry_created x <? entry_created e) eqn:Hlt; [|done].
  apply Z.ltb_lt in Hlt.
  rewrite (filter_cons _ x), IH, !filter_cons.
  repeat case_decide; try done; lia.
Qed.

Lemma sort_by_created_stable c l :
  filter (λ x, entry_created x = c) (sort_by_created l) =
  filter (λ x, entry_created x = c) l.
Proof.
  induction l as [|x l IH]; [done|]. simpl.
  by rewrite insert_by_created_filter, !filter_cons, IH.
Qed.

Lemma sum_sizes_app l1 l2 : sum_sizes (l1 ++ l2) = sum_sizes l1 + sum_sizes l2.
Proof. induction l1 as [|e l1 IH]; simpl; [done|]. rewrite IH. lia. Qed.

Lemma sum_sizes_perm l1 l2 : l1 ≡ₚ l2 → sum_sizes l1 = sum_sizes l2.
Proof. induction 1; simpl; lia. Qed.

(** ** The eviction loop *)

(** The entries left after the [delete metadata.entries[entry.path]] of each
    evicted entry. *)
Lemma evict_loop_ok l : ∀ sd btr acc m popped m',
  evict_loop l sd btr acc m = Ok (popped, m') →
  ∃ p rest,
    l = p ++ rest ∧ popped = acc ++ p ∧
    btr ≤ sd + sum_sizes p ∧
    (∀ j, (j < length p)%nat → sd + sum_sizes (take j p) < btr) ∧
    meta_size m' = meta_size m - sum_sizes p ∧
    meta_entries m' =
      foldl (λ es e, assoc_delete (entry_path e) es) (meta_entries m) p.
Proof.
  induction l as [|e l IH]; intros sd btr acc m popped m'; simpl.
  - destruct (sd <? btr) eqn:Hlt; [done|]. intros [= <- <-].
    apply Z.ltb_ge in Hlt. exists [], []. simpl.
    rewrite app_nil_r. repeat split; try done; try lia; intros; simpl in *; lia.
  - destruct (sd <? btr) eqn:Hlt.
    + apply Z.ltb_lt in Hlt. intros Hev.
      apply IH in Hev as (p & rest & -> & -> & Hge & Hlts & Hsz & Hes).
      exists (e :: p), rest. simpl in *.
      rewrite <- app_assoc. repeat split; try done; try lia.
      intros [|j] Hj; simpl; [lia|].
      specialize (Hlts j). lia.
    + intros [= <- <-]. apply Z.ltb_ge in Hlt. exists [], (e :: l). simpl.
      rewrite app_nil_r. repeat split; try done; try lia; intros; simpl in *; lia.
Qed.

Lemma evict_loop_total l : ∀ sd btr acc m,
  (∃ k, btr ≤ sd + sum_sizes (take k l)) →
  ∃ r, evict_loop l sd btr acc m = Ok r.
Proof.
  induction l as [|e l IH]; intros sd btr acc m [k Hk]; simpl.
  - rewrite take_nil in Hk. simpl in Hk.
    destruct (sd <? btr) eqn:Hlt; [apply Z.ltb_lt in Hlt; lia|eauto].
  - destruct (sd <? btr) eqn:Hlt; [|eauto].
    apply Z.ltb_lt in Hlt. apply IH.
    destruct k as [|k]; simpl in Hk; [lia|].
    exists k. lia.
Qed.

Lemma evict_loop_underflow l : ∀ sd btr acc m,
  (∀ k, sd + sum_sizes (take k l) < btr) →
  evict_loop l sd btr acc m = Err TypeError.
Proof.
  induction l as [|e l IH]; intros sd btr acc m Hk; simpl.
  - specialize (Hk 0%nat). simpl in Hk.
    destruct (sd <? btr) eqn:Hlt; [done|]. apply Z.ltb_ge in Hlt. lia.
  - pose proof (Hk 0%nat) as H0. simpl in H0.
    destruct (sd <? btr) eqn:Hlt; [|apply Z.ltb_ge in Hlt; lia].
    apply IH. intros k. specialize (Hk (S k)). simpl in Hk. lia.
Qed.

Lemma foldl_assoc_delete_lookup k (p : list Entry) : ∀ es : list (string * Entry),
  assoc k (foldl (λ es e, assoc_delete (entry_path e) es) es p) =
  if decide (k ∈ map entry_path p) then None else assoc k es.
Proof.
  induction p as [|e p IH]; intros es; simpl.
  { destruct (decide (k ∈ [])) as [Hin|]; [by apply elem_of_nil in Hin|done]. }
  rewrite IH, assoc_delete_lookup.
  destruct (decide (k ∈ map entry_path p)) as [Hin|Hnin],
    (decide (k = entry_path e)) as [Heq|Hne],
    (decide (k ∈ entry_path e :: map entry_path p)) as [Hc|Hc];
    try done; exfalso.
  - apply Hc, elem_of_cons. by right.
  - apply Hc, elem_of_cons. by right.
  - apply Hc, elem_of_cons. by left.
  - apply elem_of_cons in Hc as [?|?]; done.
Qed.

(** ** File names *)

Lemma append_cons c (s1 s2 : string) : String c s1 +:+ s2 = String c (s1 +:+ s2).
Proof. reflexivity. Qed.

Lemma append_assoc (s1 s2 s3 : string) : (s1 +:+ s2) +:+ s3 = s1 +:+ (s2 +:+ s3).
Proof.
  induction s1 as [|c s1 IH]; [done|]. rewrite !append_cons. by rewrite IH.
Qed.

Lemma chars_append (s1 s2 : string) :
  list_ascii_of_string (s1 +:+ s2) =
  list_ascii_of_string s1 ++ list_ascii_of_string s2.
Proof.
  induction s1 as [|c s1 IH]; [done|]. rewrite append_cons. simpl. by rewrite IH.
Qed.

Lemma append_inv_tail (s1 s2 s : string) : s1 +:+ s = s2 +:+ s → s1 = s2.
Proof.
  intros Heq. apply (f_equal list_ascii_of_string) in Heq.
  rewrite !chars_append in Heq. apply app_inv_tail in Heq.
  apply (f_equal string_of_list_ascii) in Heq.
  by rewrite !string_of_list_ascii_of_string in Heq.
Qed.

(** A name that ends in [.bin] is not a name that ends in [.json]. *)
Lemma bin_json_suffix (s1 s2 : string) : s1 +:+ ".bin" ≠ s2 +:+ ".json".
Proof.
  intros Heq. apply (f_equal list_ascii_of_string) in Heq.
  rewrite !chars_append in Heq. apply (f_equal reverse) in Heq.
  rewrite !reverse_app in Heq. simpl in Heq. discriminate Heq.
Qed.

Lemma bin_name_suffix path index :
  bin_name path index = (path +:+ "-" +:+ pretty index) +:+ ".bin".
Proof. unfold bin_name. by rewrite !append_assoc. Qed.

Lemma bin_name_inj path i j : bin_name path i = bin_name path j → i = j.
Proof.
  unfold bin_name. intros Heq.
  apply String.app_inj in Heq. apply (String.app_inj "-") in Heq.
  apply append_inv_tail in Heq. by apply pretty_Z_inj in Heq.
Qed.

Lemma bin_name_not_json path index path' : bin_name path index ≠ json_name path'.
Proof. rewrite bin_name_suffix. apply bin_json_suffix. Qed.

Lemma bin_name_not_meta path index cachePath :
  bin_name path index ≠ metaFilePath cachePath.
Proof.
  rewrite bin_name_suffix. unfold metaFilePath.
  change "/meta.json" with ("/meta" +:+ ".json").
  rewrite <- (append_assoc cachePath). apply bin_json_suffix.
Qed.

(** ** The index file *)

Lemma entries_of_to_json (es : list (string * Entry)) :
  entries_of_json (map (λ kv, (kv.1, entry_to_json kv.2)) es) = Some es.
Proof.
  induction es as [|[k [p s c]] es IH]; simpl; [done|]. by rewrite IH.
Qed.

Lemma metadata_of_to_json (m : Metadata) :
  metadata_of_json (metadata_to_json m) = Some m.
Proof. destruct m as [s es]. simpl. by rewrite entries_of_to_json. Qed.

(** Reading the index does not touch the file system. *)
Lemma readMetaFile_state cachePath st : (readMetaFile cachePath st).2 = st.
Proof.
  unfold readMetaFile, catch, bind, fs_readFile, lift.
  destruct (st !! metaFilePath cachePath) as [[d|bs]|]; simpl; try done.
  by destruct (metadata_of_json d).
Qed.

Lemma readMetaFile_absent cachePath st :
  st !! metaFilePath cachePath = None →
  readMetaFile cachePath st = (Ok {| meta_size := 0; meta_entries := [] |}, st).
Proof.
  intros Hn. unfold readMetaFile, catch, bind, fs_readFile. by rewrite Hn.
Qed.

Lemma readMetaFile_written cachePath m st :
  st !! metaFilePath cachePath = Some (FJson (metadata_to_json m)) →
  readMetaFile cachePath st = (Ok m, st).
Proof.
  intros Hs. unfold readMetaFile, catch, bind, fs_readFile, lift. rewrite Hs.
  cbn [JSON_parse]. by rewrite metadata_of_to_json.
Qed.

(** ** Writing and removing files *)

Lemma Promise_all_writeFile path (ebs : list ExternalBuffer) : ∀ st,
  Promise_all
    (map (λ externalBuffer,
            fs_writeFile (bin_name path (eb_index externalBuffer))
              (FBin (eb_buffer externalBuffer))) ebs) st =
  (Ok (map (λ _, tt) ebs), write_segments path ebs st).
Proof.
  unfold write_segments.
  induction ebs as [|eb ebs IH]; intros st; simpl; [done|].
  unfold fs_writeFile at 1. by rewrite IH.
Qed.

Lemma segments_written_other path (ebs : list ExternalBuffer) name : ∀ st : fs,
  (∀ index, name ≠ bin_name path index) →
  write_segments path ebs st !! name = st !! name.
Proof.
  unfold write_segments.
  induction ebs as [|eb ebs IH]; intros st Hne; simpl; [done|].
  rewrite IH by done. by rewrite lookup_insert_ne.
Qed.

Lemma segments_written_lookup path (ebs : list ExternalBuffer) eb : ∀ st : fs,
  NoDup (map eb_index ebs) → eb ∈ ebs →
  write_segments path ebs st !! bin_name path (eb_index eb) =
    Some (FBin (eb_buffer eb)).
Proof.
  unfold write_segments.
  induction ebs as [|eb' ebs IH]; intros st Hnd Hin; simpl.
  { by apply elem_of_nil in Hin. }
  apply NoDup_cons in Hnd as [Hnotin Hnd].
  apply elem_of_cons in Hin as [->|Hin]; [|by apply IH].
  assert (∀ st : fs,
    st !! bin_name path (eb_index eb') = Some (FBin (eb_buffer eb')) →
    foldl (λ st eb, <[bin_name path (eb_index eb) := FBin (eb_buffer eb)]> st) st ebs
      !! bin_name path (eb_index eb') = Some (FBin (eb_buffer eb'))) as Hkeep.
  { clear IH Hnd. induction ebs as [|eb ebs IH]; intros st0 Hst0; simpl; [done|].
    apply IH.
    - intros Hin. apply Hnotin. simpl. apply elem_of_cons. by right.
    - rewrite lookup_insert_ne; [done|].
      intros Heq. apply bin_name_inj in Heq.
      apply Hnotin. simpl. apply elem_of_cons. by left. }
  apply Hkeep. by rewrite lookup_insert_eq.
Qed.

(** The loop that removes the segment files ends, by ENOENT, before the
    bound of the model is reached. *)
Lemma unlink_loop_fuel path : ∀ fuel i (st : fs),
  (size st < fuel)%nat →
  ∃ st', unlink_loop fuel path i st = (Err ENOENT, st') ∧
         ∀ name, (∀ index, name ≠ bin_name path index) → st' !! name = st !! name.
Proof.
  induction fuel as [|fuel IH]; intros i st Hsz; [lia|]. simpl.
  unfold bind, fs_unlink.
  destruct (st !! bin_name path i) as [c|] eqn:Hs; [|by eauto].
  destruct (IH (i + 1) (delete (bin_name path i) st)) as (st' & Hrun & Hother).
  { assert (size st = S (size (delete (bin_name path i) st))) as Hsize; [|lia].
    rewrite <- (insert_id st (bin_name path i) c Hs) at 1.
    rewrite <- insert_delete_eq.
    apply map_size_insert_None, lookup_delete_eq. }
  exists st'. split; [done|].
  intros name Hne. rewrite Hother by done. by rewrite lookup_delete_ne.
Qed.

(** ** [exports.delete] and [reduceCacheSize] *)

(** Without [cachePath], [delete] of an entry whose document exists removes
    the document and segment files and nothing else. *)
Lemma exports_delete_files path st c :
  st !! json_name path = Some c →
  ∃ st', exports_delete path None st = (Ok tt, st') ∧
         st' !! json_name path = None ∧
         ∀ name, name ≠ json_name path → (∀ index, name ≠ bin_name path index) →
                 st' !! name = st !! name.
Proof.
  intros Hs. unfold exports_delete, bind, catch, fs_unlink. rewrite Hs.
  destruct (unlink_loop_fuel path (S (size (delete (json_name path) st))) 0
              (delete (json_name path) st)) as (st' & Hrun & Hother); [lia|].
  rewrite Hrun. simpl. exists st'. split; [done|]. split.
  - rewrite Hother; [apply lookup_delete_eq|].
    intros index Heq. by apply (bin_name_not_json path index path).
  - intros name Hne Hbin. rewrite Hother by done. by rewrite lookup_delete_ne.
Qed.

Lemma reduceCacheSize_ok metadata bytesToReduce st m' st' :
  reduceCacheSize metadata bytesToReduce st = (Ok m', st') →
  ∃ popped units,
    evict_loop (entriesByDate metadata) 0 bytesToReduce [] metadata = Ok (popped, m') ∧
    Promise_all (map (λ entry, exports_delete (entry_path entry) None) popped) st =
      (Ok units, st').
Proof.
  unfold reduceCacheSize, bind, lift, entriesByDate.
  destruct (evict_loop _ 0 bytesToReduce [] metadata) as [[popped m1]|e]; [|done].
  destruct (Promise_all _ st) as [[units|e] st1] eqn:Hp; [|done].
  intros [= <- <-]. eauto.
Qed.

Lemma reduceCacheSize_unfold metadata bytesToReduce popped m' st :
  evict_loop (entriesByDate metadata) 0 bytesToReduce [] metadata = Ok (popped, m') →
  reduceCacheSize metadata bytesToReduce st =
  (Promise_all (map (λ entry, exports_delete (entry_path entry) None) popped) ;;
   ret m') st.
Proof.
  intros Hev. unfold reduceCacheSize, bind, lift. fold (entriesByDate metadata).
  by rewrite Hev.
Qed.

Lemma reduceCacheSize_underflow metadata bytesToReduce st :
  (∀ k, sum_sizes (take k (entriesByDate metadata)) < bytesToReduce) →
  reduceCacheSize metadata bytesToReduce st = (Err TypeError, st).
Proof.
  intros Hk. unfold reduceCacheSize, bind, lift. fold (entriesByDate metadata).
  by rewrite evict_loop_underflow.
Qed.

(** With sizes that are not negative, the running total stays below the
    target exactly when the total of all entries does. *)
Lemma sum_sizes_take_le (l : list Entry) k :
  Forall (λ e, 0 ≤ entry_size e) l → sum_sizes (take k l) ≤ sum_sizes l.
Proof.
  intros Hl. revert k. induction Hl as [|e l He Hl IH]; intros [|k]; simpl; try lia.
  - assert (0 ≤ sum_sizes l); [|lia].
    clear IH. induction Hl; simpl; lia.
  - specialize (IH k). lia.
Qed.

(** ** [exports.write] *)

(** The steps of a write that succeeds. *)
Lemma exports_write_ok path data cachePath maxsize now st st' :
  exports_write path data cachePath maxsize now st = (Ok tt, st') →
  ∃ d est m m' st_e,
    serialize data enc_init = Ok (d, est) ∧
    dataString_length d + externalBuffersLength est ≤ maxsize ∧
    readMetaFile cachePath st = (Ok m, st) ∧
    (if maxsize <? meta_size m + (dataString_length d + externalBuffersLength est)
     then reduceCacheSize m
            (meta_size m + (dataString_length d + externalBuffersLength est) - maxsize)
            st = (Ok m', st_e)
     else m' = m ∧ st_e = st) ∧
    st' =
      write_segments path (externalBuffers est)
        (<[metaFilePath cachePath :=
             FJson (metadata_to_json
               {| meta_size :=
                    meta_size m' + (dataString_length d + externalBuffersLength est);
                  meta_entries :=
                    assoc_set path
                      {| entry_path := path;
                         entry_size := dataString_length d + externalBuffersLength est;
                         entry_created := now |}
                      (meta_entries m') |})]>
           (<[json_name path := FJson d]> st_e)).
Proof.
  unfold exports_write, bind, lift.
  destruct (serialize data enc_init) as [[d est]|e]; [|done].
  destruct (maxsize <? dataString_length d + externalBuffersLength est) eqn:Hbig.
  { by destruct data. }
  apply Z.ltb_ge in Hbig. unfold ret at 1.
  pose proof (readMetaFile_state cachePath st) as Hst.
  destruct (readMetaFile cachePath st) as [[m|e] st0]; simpl in Hst; subst st0;
    [|done].
  destruct (maxsize <? meta_size m + (dataString_length d + externalBuffersLength est))
    eqn:Hover.
  - destruct (reduceCacheSize m _ st) as [[m'|e] st_e] eqn:Hred; [|done].
    unfold writeMetaFile, fs_writeFile at 1 2. rewrite Promise_all_writeFile.
    unfold ret. intros [= <-].
    exists d, est, m, m', st_e. rewrite Hover. by repeat split.
  - unfold ret at 1. unfold writeMetaFile, fs_writeFile at 1 2.
    rewrite Promise_all_writeFile. unfold ret. intros [= <-].
    exists d, est, m, m, st. rewrite Hover. by repeat split.
Qed.

(** The index a successful write leaves in the index file. *)
Lemma exports_write_index path data cachePath maxsize now st st' :
  exports_write path data cachePath maxsize now st = (Ok tt, st') →
  ∃ d est m m' st_e,
    serialize data enc_init = Ok (d, est) ∧
    dataString_length d + externalBuffersLength est ≤ maxsize ∧
    readMetaFile cachePath st = (Ok m, st) ∧
    (if maxsize <? meta_size m + (dataString_length d + externalBuffersLength est)
     then reduceCacheSize m
            (meta_size m + (dataString_length d + externalBuffersLength est) - maxsize)
            st = (Ok m', st_e)
     else m' = m ∧ st_e = st) ∧
    readMetaFile cachePath st' =
      (Ok {| meta_size :=
               meta_size m' + (dataString_length d + externalBuffersLength est);
             meta_entries :=
               assoc_set path
                 {| entry_path := path;
                    entry_size := dataString_length d + externalBuffersLength est;
                    entry_created := now |}
                 (meta_entries m') |}, st').
Proof.
  intros Hw. apply exports_write_ok in Hw as (d & est & m & m' & st_e & ? & ? & ? & ? & ->).
  exists d, est, m, m', st_e. repeat split; try done.
  apply readMetaFile_written.
  rewrite segments_written_other.
  - apply lookup_insert_eq.
  - intros index Heq. symmetry in Heq. by apply bin_name_not_meta in Heq.
Qed.

(** ** Eviction in the index (claim C9) *)

Lemma evict_loop_ok_spec m bytesToReduce popped m' :
  evict_loop (entriesByDate m) 0 bytesToReduce [] m = Ok (popped, m') →
  ∃ rest, oldest_first_eviction m bytesToReduce popped rest m'.
Proof.
  intros Hev.
  apply evict_loop_ok in Hev as (p & rest & Hsplit & -> & Hge & Hlts & Hsz & Hes).
  simpl. exists rest.
  pose proof (sort_by_created_sorted (Object_values (meta_entries m))) as Hsorted.
  fold (entriesByDate m) in Hsorted.
  unfold oldest_first_eviction. split_and!.
  - apply sort_by_created_perm.
  - done.
  - done.
  - intros e e' He He'. rewrite Hsplit in Hsorted.
    by apply (StronglySorted_app_1_elem_of created_le p rest).
  - lia.
  - intros j Hj. specialize (Hlts j Hj). lia.
  - lia.
  - intros k. rewrite Hes. apply foldl_assoc_delete_lookup.
Qed.

Lemma evict_loop_spec m bytesToReduce :
  (∃ k, bytesToReduce ≤ sum_sizes (take k (entriesByDate m))) →
  ∃ popped rest m',
    evict_loop (entriesByDate m) 0 bytesToReduce [] m = Ok (popped, m') ∧
    oldest_first_eviction m bytesToReduce popped rest m'.
Proof.
  intros [k Hk].
  destruct (evict_loop_total (entriesByDate m) 0 bytesToReduce [] m)
    as [[popped m'] Hev]; [by exists k|].
  destruct (evict_loop_ok_spec _ _ _ _ Hev) as [rest Hspec]. eauto.
Qed.

(** C9: when the running total of the entries' sizes, in eviction order,
    never reaches [bytesToReduce], the loop takes an entry from the empty list
    and faults on [entry.size]; eviction is rejected with that fault, before
    any file is deleted. *)
Theorem eviction_underflow_faults m bytesToReduce st :
  (∀ k, sum_sizes (take k (entriesByDate m)) < bytesToReduce) →
  evict_loop (entriesByDate m) 0 bytesToReduce [] m = Err TypeError ∧
  reduceCacheSize m bytesToReduce st = (Err TypeError, st).
Proof.
  intros Hk. split.
  - by apply evict_loop_underflow.
  - by apply reduceCacheSize_underflow.
Qed.

(** With sizes that are not negative, the total of all sizes decides. *)
Lemma eviction_underflow_total m bytesToReduce st :
  Forall (λ e, 0 ≤ entry_size e) (Object_values (meta_entries m)) →
  sum_sizes (Object_values (meta_entries m)) < bytesToReduce →
  reduceCacheSize m bytesToReduce st = (Err TypeError, st).
Proof.
  intros Hpos Htotal. apply reduceCacheSize_underflow. intros k.
  assert (Forall (λ e, 0 ≤ entry_size e) (entriesByDate m)) as Hpos'.
  { unfold entriesByDate. by rewrite sort_by_created_perm. }
  pose proof (sum_sizes_take_le _ k Hpos').
  rewrite <- (sum_sizes_perm _ _ (sort_by_created_perm _)) in Htotal.
  unfold entriesByDate in *. lia.
Qed.

(** ** Oversize values (claim C5) *)

(** A value whose encoded size exceeds [maxsize] is rejected before any file
    is read or written; the rejection is the size error unless the value is
    [null]. *)
Lemma write_too_large path data cachePath maxsize now st d est :
  serialize data enc_init = Ok (d, est) →
  maxsize < dataString_length d + externalBuffersLength est →
  exports_write path data cachePath maxsize now st =
    (Err (match data with
          | JNull => TypeError
          | _ => EntryTooLarge (dataString_length d + externalBuffersLength est) maxsize
          end), st).
Proof.
  intros Hser Hlt. unfold exports_write, bind, lift. rewrite Hser.
  apply Z.ltb_lt in Hlt. rewrite Hlt. by destruct data.
Qed.

(** C5, at [null]: the encoded size of [null] is 4; with [maxsize = 3] the
    write is rejected before any I/O, but with the fault raised by
    [data.key] while the message of the size error is built, not with the
    size error. *)
Theorem write_null_too_large path cachePath now st :
  serialize JNull enc_init = Ok (JNull, enc_init) ∧
  dataString_length JNull + externalBuffersLength enc_init = 4 ∧
  exports_write path JNull cachePath 3 now st = (Err TypeError, st) ∧
  exports_write path JNull cachePath 3 now st ≠ (Err (EntryTooLarge 4 3), st).
Proof.
  split; [reflexivity|]. split; [reflexivity|].
  split; [reflexivity|discriminate].
Qed.

(** ** Deleting a missing entry (claim C8) *)

(** C8: [delete] of a path whose document file does not exist is rejected
    with ENOENT and leaves the file system, hence the index file, as it was,
    with or without [cachePath]. *)
Theorem delete_missing_entry path cachePath st :
  st !! json_name path = None →
  exports_delete path cachePath st = (Err ENOENT, st).
Proof. intros Hn. unfold exports_delete, bind, fs_unlink. by rewrite Hn. Qed.

(** ** [exports.delete] with [cachePath] (claim C2) *)

Lemma readMetaFile_ext cachePath (st1 st2 : fs) :
  st1 !! metaFilePath cachePath = st2 !! metaFilePath cachePath →
  (readMetaFile cachePath st1).1 = (readMetaFile cachePath st2).1.
Proof.
  intros Heq. unfold readMetaFile, catch, bind, fs_readFile, lift. rewrite Heq.
  destruct (st2 !! metaFilePath cachePath) as [[d|bs]|]; simpl; try done.
  by destruct (metadata_of_json d).
Qed.

(** For every entry of the index whose document exists, [delete] with
    [cachePath] succeeds and leaves an index that still holds the entry:
    only the recorded total changes. *)
Lemma exports_delete_index path cachePath st c m entry :
  cachePath ≠ "" →
  st !! json_name path = Some c →
  json_name path ≠ metaFilePath cachePath →
  readMetaFile cachePath st = (Ok m, st) →
  assoc path (meta_entries m) = Some entry →
  ∃ st',
    exports_delete path (Some cachePath) st = (Ok tt, st') ∧
    readMetaFile cachePath st' =
      (Ok {| meta_size := meta_size m - entry_size entry;
             meta_entries := meta_entries m |}, st').
Proof.
  intros Hc Hs Hne Hmeta Hentry.
  unfold exports_delete, bind, catch, fs_unlink. rewrite Hs.
  destruct (unlink_loop_fuel path (S (size (delete (json_name path) st))) 0
              (delete (json_name path) st)) as (st1 & Hrun & Hother); [lia|].
  rewrite Hrun. simpl. rewrite bool_decide_eq_false_2 by done.
  assert (st1 !! metaFilePath cachePath = st !! metaFilePath cachePath) as Hsame.
  { rewrite Hother.
    - by rewrite lookup_delete_ne.
    - intros index Heq. symmetry in Heq. by apply bin_name_not_meta in Heq. }
  pose proof (readMetaFile_ext cachePath st1 st Hsame) as Hr.
  pose proof (readMetaFile_state cachePath st1) as Hst1.
  destruct (readMetaFile cachePath st1) as [r1 st1'].
  simpl in Hr, Hst1. subst st1'. rewrite Hmeta in Hr. simpl in Hr. subst r1.
  rewrite Hentry. unfold writeMetaFile, fs_writeFile.
  eexists. split; [done|].
  apply readMetaFile_written. apply lookup_insert_eq.
Qed.

(** ** Encoding (claim C6) *)

Lemma byte_of_Z_of_byte b : byte_of_Z (Z_of_byte b) = b.
Proof. by destruct b. Qed.

Lemma ToUint8_byte b : ToUint8 (JNumber (Z_of_byte b)) = b.
Proof. unfold ToUint8, ToNumber. apply byte_of_Z_of_byte. Qed.

Lemma Buffer_from_bytes bs :
  Buffer_from (JArray (map (λ b, JNumber (Z_of_byte b)) bs)) = Ok bs.
Proof.
  simpl. f_equal. induction bs as [|b bs IH]; simpl; [done|].
  by rewrite ToUint8_byte, IH.
Qed.

Lemma get_data_buffer_json {B : Type} bs :
  get "data" (@buffer_json B bs) =
  Some (JArray (map (λ b, JNumber (Z_of_byte b)) bs)).
Proof. reflexivity. Qed.

Lemma get_type_buffer_json {B : Type} bs :
  get "type" (@buffer_json B bs) = Some (JString "Buffer").
Proof. reflexivity. Qed.

Lemma shouldExternalize_buffer bs :
  shouldExternalize (buffer_json bs) = (1024 <=? Z.of_nat (length bs)).
Proof.
  unfold shouldExternalize.
  rewrite get_data_buffer_json, get_type_buffer_json.
  unfold ge_number, length_prop, ToNumber. simpl truthy. simpl is_string.
  cbn [andb]. by rewrite length_map.
Qed.

Lemma shouldExternalize_buffer_like v :
  shouldExternalize v = true → buffer_like v = true.
Proof.
  unfold shouldExternalize, buffer_like.
  destruct (truthy v); [|done]. destruct (is_string "Buffer" (get "type" v)); [|done].
  simpl. destruct (get "data" v) as [d|]; [|done]. simpl.
  by destruct (truthy d).
Qed.

Lemma shouldExternalize_no_type v :
  get "type" v = None → shouldExternalize v = false.
Proof.
  intros Hn. unfold shouldExternalize. rewrite Hn. simpl.
  by rewrite andb_false_r.
Qed.

Lemma replacerFunction_keep v st :
  shouldExternalize v = false → replacerFunction v st = Ok (v, st).
Proof.
  intros Hs. unfold replacerFunction. by rewrite Hs.
Qed.

Lemma push_segments_nil st : push_segments st [] = st.
Proof.
  destruct st as [ebs n]. unfold push_segments. simpl.
  by rewrite app_nil_r, Z.add_0_r.
Qed.

Lemma push_segments_length st segs :
  length (externalBuffers (push_segments st segs)) =
  (length (externalBuffers st) + length segs)%nat.
Proof. simpl. by rewrite length_app, length_imap. Qed.

Lemma push_segments_app st segs1 segs2 :
  push_segments (push_segments st segs1) segs2 = push_segments st (segs1 ++ segs2).
Proof.
  unfold push_segments. simpl. f_equal.
  - rewrite <- app_assoc. f_equal. rewrite imap_app. f_equal.
    apply imap_ext. intros i bs _. simpl.
    rewrite length_app, length_imap. do 2 f_equal. lia.
  - rewrite concat_app, length_app. lia.
Qed.

Lemma serialized_data_Some v l :
  serialized_data v = Some l →
  get "type" v = Some (JString "Buffer") ∧ get "data" v = Some (JArray l).
Proof.
  unfold serialized_data, is_string.
  destruct (get "type" v) as [[| | | s | | |]|]; try done.
  case_bool_decide; [subst s|done].
  destruct (get "data" v) as [[| | | | l' | |]|]; try done.
  by intros [= ->].
Qed.

Lemma serialized_data_buffer_like v l :
  serialized_data v = Some l → buffer_like v = true.
Proof.
  intros [Ht Hd]%serialized_data_Some. unfold buffer_like. by rewrite Ht, Hd.
Qed.

Lemma shouldExternalize_buffer_shaped (o : value) (l : list value) :
  get "type" o = Some (JString "Buffer") →
  get "data" o = Some (JArray l) →
  shouldExternalize o = (1024 <=? Z.of_nat (length l)).
Proof.
  intros Ht Hd. unfold shouldExternalize. rewrite Ht, Hd.
  destruct o; try discriminate Ht. reflexivity.
Qed.

Lemma replacerFunction_buffer_shaped (o : value) (l : list value) st :
  get "type" o = Some (JString "Buffer") →
  get "data" o = Some (JArray l) →
  replacerFunction o st =
  if 1024 <=? Z.of_nat (length l)
  then Ok (placeholder (Z.of_nat (length (externalBuffers st)))
             (Z.of_nat (length l)),
           push_segments st [map ToUint8 l])
  else Ok (o, st).
Proof.
  intros Ht Hd.
  pose proof (shouldExternalize_buffer_shaped o l Ht Hd) as Hs.
  destruct (1024 <=? Z.of_nat (length l)) eqn:Hbig.
  - unfold replacerFunction. rewrite Hd, Hs. cbn [Buffer_from rbind].
    unfold push_segments. cbn [imap concat]. rewrite length_app, app_nil_r.
    cbn [length]. rewrite length_map, Nat.add_0_r.
    do 3 f_equal. lia.
  - by apply replacerFunction_keep.
Qed.

(** The replacer on a serialized buffer: the threshold. *)
Lemma replacerFunction_buffer bs st :
  replacerFunction (buffer_json bs) st =
  if 1024 <=? Z.of_nat (length bs)
  then Ok (placeholder (Z.of_nat (length (externalBuffers st)))
             (Z.of_nat (length bs)),
           push_segments st [bs])
  else Ok (buffer_json bs, st).
Proof.
  destruct (1024 <=? Z.of_nat (length bs)) eqn:Hbig.
  - unfold replacerFunction.
    rewrite shouldExternalize_buffer, Hbig, get_data_buffer_json.
    rewrite Buffer_from_bytes. cbn [rbind].
    unfold push_segments. simpl. rewrite length_app. simpl.
    rewrite app_nil_r, Nat.add_0_r.
    do 3 f_equal. lia.
  - apply replacerFunction_keep. by rewrite shouldExternalize_buffer.
Qed.

Lemma mapM_state_cons {A B S : Type} (f : A → S → result (B * S)) x l st :
  mapM_state f (x :: l) st =
  let? (y, st1) := f x st in
  let? (ys, st2) := mapM_state f l st1 in
  Ok (y :: ys, st2).
Proof. reflexivity. Qed.

Lemma thread_segments_cons {A B : Type} (f : A → nat → B * list (list byte)) x l next :
  thread_segments f (x :: l) next =
  let (y, segs1) := f x next in
  let (ys, segs2) := thread_segments f l (next + length segs1)%nat in
  (y :: ys, segs1 ++ segs2).
Proof. reflexivity. Qed.

Lemma mapM_state_encode {A B : Type}
    (f : A → enc_state → result (B * enc_state))
    (g : A → nat → B * list (list byte)) (l : list A) :
  Forall (λ x, ∀ st,
            f x st = Ok ((g x (length (externalBuffers st))).1,
                         push_segments st (g x (length (externalBuffers st))).2)) l →
  ∀ st,
    mapM_state f l st =
    Ok ((thread_segments g l (length (externalBuffers st))).1,
        push_segments st (thread_segments g l (length (externalBuffers st))).2).
Proof.
  induction 1 as [|x l Hx Hl IH]; intros st.
  { cbn [mapM_state thread_segments fst snd]. by rewrite push_segments_nil. }
  rewrite mapM_state_cons, Hx. cbn [rbind]. rewrite IH. cbn [rbind].
  rewrite push_segments_length, push_segments_app, thread_segments_cons.
  destruct (g x (length (externalBuffers st))) as [y segs1]. cbn [fst snd].
  by destruct (thread_segments g l (length (externalBuffers st) + length segs1))
    as [ys segs2].
Qed.

(** On a value that is neither an array, an object nor a buffer, the
    replacer returns its argument. *)
Lemma serialize_leaf v st :
  match v with JArray _ | JObject _ | JBuffer _ => False | _ => True end →
  serialize v st = Ok (plain v, st).
Proof.
  destruct v; try done; intros _; cbn [serialize toJSON];
    rewrite replacerFunction_keep by (by apply shouldExternalize_no_type);
    cbn [rbind]; by rewrite shouldExternalize_no_type.
Qed.

Lemma plain_placeholder index size : plain (placeholder index size) = placeholder index size.
Proof. reflexivity. Qed.

Lemma plain_buffer_json bs : plain (buffer_json bs) = buffer_json bs.
Proof.
  unfold buffer_json. cbn [plain map fst snd]. by rewrite List.map_map.
Qed.

Lemma forallb_Forall {A : Type} (P : A → bool) (Q : A → Prop) (l : list A) :
  forallb P l = true → Forall (λ x, P x = true → Q x) l → Forall Q l.
Proof.
  induction l as [|x l IH]; simpl; [constructor|].
  intros [Hx Hl]%andb_true_iff HQ. apply Forall_cons in HQ as [HQx HQl].
  constructor; auto.
Qed.

Lemma serialize_numbers (bs : list byte) st :
  serialize (JArray (map (λ b, JNumber (Z_of_byte b)) bs)) st =
  Ok (JArray (map (λ b, JNumber (Z_of_byte b)) bs), st).
Proof.
  cbn [serialize toJSON]. rewrite replacerFunction_keep by done. cbn [rbind].
  rewrite shouldExternalize_no_type by done.
  assert (∀ st, mapM_state serialize (map (λ b, JNumber (Z_of_byte b)) bs) st =
                Ok (map (λ b, JNumber (Z_of_byte b)) bs, st)) as ->; [|done].
  clear st. induction bs as [|b bs IH]; intros st; [done|].
  cbn [map]. rewrite mapM_state_cons, serialize_leaf by done. cbn [rbind plain].
  by rewrite IH.
Qed.

(** One step of the traversal of the properties of an object, on a property
    that is neither an array, an object nor a buffer. *)
Ltac serialize_field :=
  rewrite mapM_state_cons; cbn [snd fst];
  rewrite serialize_leaf by done; cbn [rbind plain].

Lemma serialize_placeholder_fields index size st :
  mapM_state
    (λ kv st, let? (d, st1) := serialize kv.2 st in Ok ((kv.1, d), st1))
    [("type", JString "ExternalBuffer"); ("index", JNumber index);
     ("size", JNumber size)] st =
  Ok ([("type", JString "ExternalBuffer"); ("index", JNumber index);
       ("size", JNumber size)], st).
Proof. by do 3 serialize_field. Qed.

(** The equation of [SerializeJSONProperty]: [toJSON], then the replacer,
    then the properties of the value that the replacer returned. *)
Lemma serialize_equation v st :
  serialize v st =
  let? (v2, st') := replacerFunction (toJSON v) st in
  match v2 with
  | JArray l =>
      let? (ds, st'') := mapM_state serialize l st' in
      Ok (JArray ds, st'')
  | JObject kvs =>
      let? (ds, st'') :=
        mapM_state
          (λ kv st, let? (d, st1) := serialize kv.2 st in Ok ((kv.1, d), st1))
          kvs st' in
      Ok (JObject ds, st'')
  | _ => Ok (plain v2, st')
  end.
Proof.
  destruct v as [| b | n | s | l | kvs | bs].
  - rewrite serialize_leaf by done. cbn [toJSON]. by rewrite replacerFunction_keep.
  - rewrite serialize_leaf by done. cbn [toJSON].
    by rewrite replacerFunction_keep by by apply shouldExternalize_no_type.
  - rewrite serialize_leaf by done. cbn [toJSON].
    by rewrite replacerFunction_keep by by apply shouldExternalize_no_type.
  - rewrite serialize_leaf by done. cbn [toJSON].
    by rewrite replacerFunction_keep by by apply shouldExternalize_no_type.
  - cbn [serialize toJSON]. rewrite replacerFunction_keep by done. cbn [rbind].
    by rewrite shouldExternalize_no_type.
  - cbn [serialize toJSON].
    destruct (shouldExternalize (JObject kvs)) eqn:Hs.
    + assert (∃ d, get "data" (JObject kvs) = Some d) as [d Hd].
      { unfold shouldExternalize in Hs.
        destruct (get "data" (JObject kvs)); [eauto|]. by rewrite andb_false_r in Hs. }
      unfold replacerFunction. rewrite Hd, Hs.
      destruct (Buffer_from d) as [buffer|e]; [|done]. cbn [rbind].
      unfold placeholder at 2. by rewrite serialize_placeholder_fields.
    + by rewrite replacerFunction_keep.
  - cbn [serialize toJSON]. rewrite replacerFunction_buffer, shouldExternalize_buffer.
    destruct (1024 <=? Z.of_nat (length bs)); cbn [rbind].
    + unfold placeholder at 2. by rewrite serialize_placeholder_fields.
    + unfold buffer_json at 2. serialize_field.
      rewrite mapM_state_cons. cbn [snd fst]. rewrite serialize_numbers.
      cbn [rbind mapM_state]. by rewrite plain_buffer_json.
Qed.

(** [JSON.stringify] with [replacerFunction] yields the document and the
    segments of the specification's traversal. *)
Lemma serialize_spec_encode v : ∀ st,
  array_buffers v = true →
  serialize v st =
  Ok ((spec_encode v (length (externalBuffers st))).1,
      push_segments st (spec_encode v (length (externalBuffers st))).2).
Proof.
  induction v as [| b | n | s | l IH | kvs IH | bs] using js_ind; intros st Hv.
  - cbn [spec_encode fst snd]. rewrite push_segments_nil. by apply serialize_leaf.
  - cbn [spec_encode fst snd]. rewrite push_segments_nil. by apply serialize_leaf.
  - cbn [spec_encode fst snd]. rewrite push_segments_nil. by apply serialize_leaf.
  - cbn [spec_encode fst snd]. rewrite push_segments_nil. by apply serialize_leaf.
  - unfold array_buffers in Hv. simpl in Hv.
    cbn [serialize toJSON]. rewrite replacerFunction_keep by done.
    cbn [rbind shouldExternalize truthy get is_string andb].
    rewrite (mapM_state_encode serialize spec_encode).
    + cbn [rbind spec_encode].
      by destruct (thread_segments spec_encode l (length (externalBuffers st))).
    + apply (forallb_Forall _ _ _ Hv).
      eapply Forall_impl; [exact IH|]. intros x Hx Hnb st0. by apply Hx.
  - unfold array_buffers in Hv. cbn [all_nodes] in Hv.
    apply andb_true_iff in Hv as [Hnode Hkids].
    assert (shouldExternalize (JObject kvs) =
            match large_serialized_data (JObject kvs) with
            | Some _ => true
            | None => false
            end) as Hs.
    { unfold large_serialized_data.
      destruct (serialized_data (JObject kvs)) as [l|] eqn:Hsd.
      - apply serialized_data_Some in Hsd as [Ht Hd].
        rewrite (shouldExternalize_buffer_shaped _ l Ht Hd).
        by destruct (1024 <=? Z.of_nat (length l)).
      - apply negb_true_iff in Hnode.
        destruct (shouldExternalize (JObject kvs)) eqn:Hse; [|done].
        apply shouldExternalize_buffer_like in Hse. congruence. }
    cbn [serialize toJSON spec_encode]. rewrite Hs.
    destruct (large_serialized_data (JObject kvs)) as [l|] eqn:Hlarge.
    + unfold large_serialized_data in Hlarge.
      destruct (serialized_data (JObject kvs)) as [l'|] eqn:Hsd; [|done].
      apply serialized_data_Some in Hsd as [Ht Hd].
      rewrite (replacerFunction_buffer_shaped _ l' st Ht Hd).
      destruct (1024 <=? Z.of_nat (length l')); [|done].
      injection Hlarge as <-. cbn [rbind fst snd]. by rewrite plain_placeholder.
    + rewrite replacerFunction_keep by done. cbn [rbind].
      rewrite (mapM_state_encode _
                 (λ kv next, let (d, segs) := spec_encode kv.2 next in ((kv.1, d), segs))).
      * cbn [rbind].
        match goal with
        | |- context [thread_segments ?g kvs ?n] => by destruct (thread_segments g kvs n)
        end.
      * apply (forallb_Forall _ _ _ Hkids).
        eapply Forall_impl; [exact IH|]. intros [k x] Hx Hnb st0. simpl in *.
        rewrite Hx by done. simpl.
        by destruct (spec_encode x (length (externalBuffers st0))).
  - cbn [serialize toJSON]. rewrite replacerFunction_buffer, shouldExternalize_buffer.
    cbn [spec_encode].
    destruct (1024 <=? Z.of_nat (length bs)); cbn [rbind fst snd].
    + by rewrite plain_placeholder.
    + by rewrite plain_buffer_json, push_segments_nil.
Qed.

(** ** Decoding *)

Lemma bufferReceiver_keep v h :
  buffer_like v = false → placeholder_like v = false →
  bufferReceiver v h = Ok (v, h).
Proof.
  unfold bufferReceiver, buffer_like, placeholder_like. intros Hb Hp.
  rewrite <- (andb_assoc (truthy v)), Hb, andb_false_r.
  rewrite <- !(andb_assoc (truthy v)), Hp, andb_false_r. done.
Qed.

Lemma get_resolve hp k (r : revived) : get k (resolve hp r) = resolve hp <$> get k r.
Proof.
  destruct r as [| | | | |kvs|[bs|slot]]; try done.
  simpl. apply assoc_fmap.
Qed.

Lemma truthy_resolve hp (r : revived) : truthy (resolve hp r) = truthy r.
Proof. by destruct r as [| | | | | |[bs|slot]]. Qed.

Lemma is_string_resolve hp s (o : option revived) :
  is_string s (resolve hp <$> o) = is_string s o.
Proof. by destruct o as [[| | | | | |[bs|slot]]|]. Qed.

Lemma is_number_resolve hp (o : option revived) :
  is_number (resolve hp <$> o) = is_number o.
Proof. by destruct o as [[| | | | | |[bs|slot]]|]. Qed.

Lemma truthy_prop_resolve hp (o : option revived) :
  truthy_prop (resolve hp <$> o) = truthy_prop o.
Proof. destruct o as [r|]; [|done]. apply truthy_resolve. Qed.

Lemma buffer_like_resolve hp (r : revived) : buffer_like (resolve hp r) = buffer_like r.
Proof.
  unfold buffer_like. by rewrite !get_resolve, is_string_resolve, truthy_prop_resolve.
Qed.

Lemma placeholder_like_resolve hp (r : revived) :
  placeholder_like (resolve hp r) = placeholder_like r.
Proof.
  unfold placeholder_like. by rewrite !get_resolve, is_string_resolve, !is_number_resolve.
Qed.

(** One step of the traversal of the properties of an object, on a property
    that the reviver returns as it is. *)
Ltac internalize_field :=
  rewrite mapM_state_cons; cbn [snd fst internalize];
  rewrite bufferReceiver_keep by done; cbn [rbind].

(** The reviver on a placeholder: a zero-filled buffer of the declared size,
    recorded with the declared index. *)
Lemma internalize_placeholder index size h :
  internalize (placeholder index size) h =
  let? buffer := Buffer_alloc size in
  Ok (JBuffer (Pending (length h)),
      h ++ [{| eb_index := index; eb_buffer := buffer |}]).
Proof.
  unfold placeholder. cbn [internalize].
  do 3 internalize_field. cbn [mapM_state rbind]. reflexivity.
Qed.

Lemma Buffer_alloc_nat n : Buffer_alloc (Z.of_nat n) = Ok (replicate n x00).
Proof.
  unfold Buffer_alloc. rewrite (proj2 (Z.ltb_ge _ _)) by lia. by rewrite Nat2Z.id.
Qed.

Lemma internalize_numbers (bs : list byte) h :
  mapM_state internalize (map (λ b, JNumber (Z_of_byte b)) bs) h =
  Ok (map (λ b, JNumber (Z_of_byte b)) bs, h).
Proof.
  induction bs as [|b bs IH]; [done|].
  cbn [map]. rewrite mapM_state_cons. cbn [internalize].
  rewrite bufferReceiver_keep by done. cbn [rbind]. by rewrite IH.
Qed.

(** The reviver on an inline buffer. *)
Lemma internalize_buffer_json bs h :
  internalize (buffer_json bs) h = Ok (JBuffer (Fresh bs), h).
Proof.
  unfold buffer_json. cbn [internalize]. internalize_field.
  rewrite mapM_state_cons. cbn [snd fst internalize].
  rewrite internalize_numbers. cbn [rbind].
  rewrite (bufferReceiver_keep (JArray _)) by done.
  cbn [rbind mapM_state].
  change (bufferReceiver (JObject [("type", JString "Buffer");
            ("data", JArray (map (λ b, JNumber (Z_of_byte b)) bs))]) h)
    with (let? bs' := Buffer_from (resolve h (JArray (map (λ b, JNumber (Z_of_byte b)) bs)))
          in Ok (JBuffer (Fresh bs'), h)).
  cbn [resolve]. rewrite List.map_map. cbn [resolve].
  by rewrite Buffer_from_bytes.
Qed.

Lemma pending_of_app next segs1 segs2 :
  pending_of next (segs1 ++ segs2) =
  pending_of next segs1 ++ pending_of (next + length segs1) segs2.
Proof.
  unfold pending_of. rewrite imap_app. f_equal.
  apply imap_ext. intros i bs _. simpl. do 2 f_equal. lia.
Qed.

Lemma agrees_app hp k segs1 segs2 :
  agrees hp k (segs1 ++ segs2) →
  agrees hp k segs1 ∧ agrees hp (k + length segs1) segs2.
Proof.
  intros Ha. split.
  - intros i bs Hi. apply Ha. by apply lookup_app_l_Some.
  - intros i bs Hi. rewrite <- Nat.add_assoc. apply Ha.
    rewrite lookup_app_r by lia. by rewrite Nat.add_comm, Nat.add_sub.
Qed.

Lemma agrees_filled h next segs : agrees (h ++ filled_of next segs) (length h) segs.
Proof.
  intros i bs Hi. rewrite lookup_app_r by lia.
  rewrite Nat.add_comm, Nat.add_sub. unfold filled_of.
  by rewrite list_lookup_imap, Hi.
Qed.

Lemma mapM_state_decode {A B C : Type}
    (g : A → nat → B * list (list byte))
    (f : B → list ExternalBuffer → result (C * list ExternalBuffer))
    (rho : list ExternalBuffer → C → A) (l : list A) :
  Forall (λ x, ∀ n h,
            ∃ z, f (g x n).1 h = Ok (z, h ++ pending_of n (g x n).2) ∧
                 ∀ hp, agrees hp (length h) (g x n).2 → rho hp z = x) l →
  ∀ n h,
    ∃ zs, mapM_state f (thread_segments g l n).1 h =
            Ok (zs, h ++ pending_of n (thread_segments g l n).2) ∧
          ∀ hp, agrees hp (length h) (thread_segments g l n).2 → map (rho hp) zs = l.
Proof.
  induction 1 as [|x l Hx Hl IH]; intros n h.
  { exists []. cbn. by rewrite app_nil_r. }
  rewrite thread_segments_cons.
  destruct (Hx n h) as (z & Hz & Hrz).
  destruct (g x n) as [y segs1]. cbn [fst snd] in *.
  destruct (IH (n + length segs1)%nat (h ++ pending_of n segs1)) as (zs & Hzs & Hrzs).
  destruct (thread_segments g l (n + length segs1)) as [ys segs2]. cbn [fst snd] in *.
  exists (z :: zs). split.
  - rewrite mapM_state_cons, Hz. cbn [rbind]. rewrite Hzs. cbn [rbind].
    by rewrite pending_of_app, app_assoc.
  - intros H0 Ha. apply agrees_app in Ha as [Ha1 Ha2]. cbn [map]. f_equal.
    + by apply Hrz.
    + apply Hrzs. rewrite length_app. unfold pending_of at 1. by rewrite length_imap.
Qed.

(** Decoding what the specification's encoding produced: the tree built by
    [JSON.parse] denotes the original value once the pending buffers hold the
    segments. *)
Lemma internalize_spec_encode v : ∀ n h,
  shape_free v = true →
  ∃ r, internalize (spec_encode v n).1 h = Ok (r, h ++ pending_of n (spec_encode v n).2) ∧
       ∀ hp, agrees hp (length h) (spec_encode v n).2 → resolve hp r = v.
Proof.
  induction v as [| b | z | s | l IH | kvs IH | bs] using js_ind; intros n h Hv.
  - exists JNull. cbn. by rewrite app_nil_r.
  - exists (JBool b). split; [|done]. cbn [spec_encode fst snd pending_of imap].
    rewrite app_nil_r. by apply bufferReceiver_keep.
  - exists (JNumber z). split; [|done]. cbn [spec_encode fst snd pending_of imap].
    rewrite app_nil_r. by apply bufferReceiver_keep.
  - exists (JString s). split; [|done]. cbn [spec_encode fst snd pending_of imap].
    rewrite app_nil_r. by apply bufferReceiver_keep.
  - unfold shape_free in Hv. cbn [all_nodes] in Hv.
    apply andb_true_iff in Hv as [_ Hkids].
    destruct (mapM_state_decode spec_encode internalize resolve l) with (n := n) (h := h)
      as (zs & Hzs & Hrzs).
    { apply (forallb_Forall _ _ _ Hkids).
      eapply Forall_impl; [exact IH|]. intros x Hx Hsf n0 h0. by apply Hx. }
    cbn [spec_encode].
    destruct (thread_segments spec_encode l n) as [ds segs]. cbn [fst snd] in *.
    exists (JArray zs). split.
    + cbn [internalize]. rewrite Hzs. cbn [rbind]. by apply bufferReceiver_keep.
    + intros H0 Ha. cbn [resolve]. f_equal. by apply Hrzs.
  - unfold shape_free in Hv. cbn [all_nodes] in Hv.
    apply andb_true_iff in Hv as [Hnode Hkids].
    apply andb_true_iff in Hnode as [Hnb Hnp].
    apply negb_true_iff in Hnb. apply negb_true_iff in Hnp.
    destruct (mapM_state_decode
                (λ kv next, let (d, segs) := spec_encode kv.2 next in ((kv.1, d), segs))
                (λ kv h, let? (r, h1) := internalize kv.2 h in Ok ((kv.1, r), h1))
                (λ hp kv, (kv.1, resolve hp kv.2)) kvs) with (n := n) (h := h)
      as (zs & Hzs & Hrzs).
    { apply (forallb_Forall _ _ _ Hkids).
      eapply Forall_impl; [exact IH|]. intros [k x] Hx Hsf n0 h0. cbn [fst snd] in *.
      destruct (Hx n0 h0 Hsf) as (r & Hr & Hrr).
      destruct (spec_encode x n0) as [d segs]. cbn [fst snd] in *.
      exists (k, r). split; [by rewrite Hr|].
      intros H0 Ha. cbn [fst snd]. f_equal. by apply Hrr. }
    assert (large_serialized_data (JObject kvs) = None) as Hnone.
    { unfold large_serialized_data.
      destruct (serialized_data (JObject kvs)) as [l|] eqn:Hsd; [|done].
      apply serialized_data_buffer_like in Hsd. congruence. }
    cbn [spec_encode]. rewrite Hnone.
    match type of Hzs with
    | context [thread_segments ?g kvs n] =>
        destruct (thread_segments g kvs n) as [ds segs]
    end.
    cbn [fst snd] in *.
    exists (JObject zs). split.
    + cbn [internalize]. rewrite Hzs. cbn [rbind].
      pose proof (Hrzs _ (agrees_filled h n segs)) as Hres.
      assert (resolve (h ++ filled_of n segs) (JObject zs) = JObject kvs) as Hobj.
      { cbn [resolve]. by rewrite Hres. }
      apply bufferReceiver_keep.
      * by rewrite <- (buffer_like_resolve (h ++ filled_of n segs)), Hobj.
      * by rewrite <- (placeholder_like_resolve (h ++ filled_of n segs)), Hobj.
    + intros H0 Ha. cbn [resolve]. f_equal. by apply Hrzs.
  - cbn [spec_encode].
    destruct (1024 <=? Z.of_nat (length bs)) eqn:Hbig; cbn [fst snd].
    + exists (JBuffer (Pending (length h))). split.
      * rewrite internalize_placeholder, Buffer_alloc_nat. cbn [rbind].
        cbn [pending_of imap]. by rewrite Nat.add_0_r.
      * intros H0 Ha. cbn [resolve]. f_equal.
        specialize (Ha 0%nat bs eq_refl). rewrite Nat.add_0_r in Ha.
        by destruct (H0 !! length h) as [e|]; simplify_eq/=.
    + exists (JBuffer (Fresh bs)). split; [|done].
      cbn [pending_of imap]. rewrite app_nil_r. apply internalize_buffer_json.
Qed.

Lemma thread_segments_Forall {A B : Type} (P : list byte → Prop)
    (g : A → nat → B * list (list byte)) (l : list A) :
  Forall (λ x, ∀ n, Forall P (g x n).2) l →
  ∀ n, Forall P (thread_segments g l n).2.
Proof.
  induction 1 as [|x l Hx Hl IH]; intros n; [constructor|].
  rewrite thread_segments_cons.
  specialize (Hx n). destruct (g x n) as [y segs1].
  specialize (IH (n + length segs1)%nat).
  destruct (thread_segments g l (n + length segs1)) as [ys segs2].
  cbn [fst snd] in *. by apply Forall_app.
Qed.

(** Every segment of the specification's traversal has 1024 bytes or more. *)
Lemma spec_encode_segments_large v : ∀ n,
  Forall (λ bs, 1024 ≤ Z.of_nat (length bs)) (spec_encode v n).2.
Proof.
  induction v as [| b | z | s | l IH | kvs IH | bs] using js_ind; intros n;
    try (by constructor).
  - cbn [spec_encode].
    pose proof (thread_segments_Forall _ spec_encode l IH n) as Hall.
    by destruct (thread_segments spec_encode l n).
  - cbn [spec_encode].
    destruct (large_serialized_data (JObject kvs)) as [l|] eqn:Hlarge.
    { cbn [snd]. repeat constructor. rewrite length_map.
      unfold large_serialized_data in Hlarge.
      destruct (serialized_data (JObject kvs)) as [l'|]; [|done].
      destruct (1024 <=? Z.of_nat (length l')) eqn:Hbig; [|done].
      injection Hlarge as <-. by apply Z.leb_le. }
    pose proof (thread_segments_Forall (λ bs, 1024 ≤ Z.of_nat (length bs))
                  (λ kv next, let (d, segs) := spec_encode kv.2 next in ((kv.1, d), segs))
                  kvs) as Hall.
    match type of Hall with
    | _ → ∀ n, Forall _ (thread_segments ?g kvs n).2 =>
        destruct (thread_segments g kvs n) as [ds segs] eqn:Hth
    end.
    cbn [fst snd]. specialize (Hall ltac:(
      eapply Forall_impl; [exact IH|]; intros [k x] Hx n0; cbn [fst snd] in *;
      specialize (Hx n0); by destruct (spec_encode x n0)) n).
    by rewrite Hth in Hall.
  - cbn [spec_encode].
    destruct (1024 <=? Z.of_nat (length bs)) eqn:Hbig; cbn [snd]; [|constructor].
    apply Z.leb_le in Hbig. by repeat constructor.
Qed.

(** C6: the document and the segments that [JSON.stringify] with
    [replacerFunction] yields are those of the specification's traversal:
    each buffer-shaped node of 1024 bytes or more is replaced by a
    placeholder with its index and size and its bytes are appended to
    [externalBuffers], in traversal order, with that index; each buffer of
    1023 bytes or less stays inline; [externalBuffersLength] grows by the
    bytes extracted, and nothing shorter than 1024 bytes is extracted. The
    values are those in which a plain object with [type] 'Buffer' and a
    truthy [data] has an array for [data]. *)
Theorem encode_extracts_large_buffers v st :
  array_buffers v = true →
  serialize v st =
    Ok ((spec_encode v (length (externalBuffers st))).1,
        push_segments st (spec_encode v (length (externalBuffers st))).2) ∧
  Forall (λ bs, 1024 ≤ Z.of_nat (length bs))
    (spec_encode v (length (externalBuffers st))).2.
Proof.
  intros Hv. split.
  - by apply serialize_spec_encode.
  - apply spec_encode_segments_large.
Qed.

(** ** Reading (claims C4 and C7) *)

Lemma Promise_all_fill path (ext : list ExternalBuffer) st :
  Promise_all
    (map (λ externalBuffer,
            let! buffer :=
              fs_read_into (bin_name path (eb_index externalBuffer))
                (eb_buffer externalBuffer) in
            ret {| eb_index := eb_index externalBuffer; eb_buffer := buffer |})
       ext) st =
  (match mapM (fill_from st path) ext with
   | Some filled => Ok filled
   | None => Err ENOENT
   end, st).
Proof.
  induction ext as [|e ext IH]; [done|].
  cbn [map Promise_all].
  assert ((let! buffer := fs_read_into (bin_name path (eb_index e)) (eb_buffer e) in
           ret {| eb_index := eb_index e; eb_buffer := buffer |}) st =
          (match fill_from st path e with
           | Some e' => Ok e'
           | None => Err ENOENT
           end, st)) as ->.
  { unfold bind, fs_read_into, bind, fs_readFile, ret, fill_from.
    by destruct (st !! bin_name path (eb_index e)). }
  rewrite IH. cbn [mapM].
  destruct (fill_from st path e) as [e'|]; [|done].
  cbn [mbind option_bind rbind].
  by destruct (mapM (fill_from st path) ext).
Qed.

(** [read], once the document is parsed: it succeeds exactly when every
    segment file that a pending buffer names exists. *)
Lemma exports_read_unfold path st d r ext :
  st !! json_name path = Some (FJson d) →
  internalize d [] = Ok (r, ext) →
  exports_read path st =
  (match mapM (fill_from st path) ext with
   | Some filled => Ok (resolve filled r)
   | None => Err ENOENT
   end, st).
Proof.
  intros Hs Hint. unfold exports_read, bind at 1, fs_readFile. rewrite Hs.
  unfold bind at 1, lift at 1. cbn [JSON_parse].
  unfold bind at 1, lift at 1. rewrite Hint.
  unfold bind at 1. rewrite Promise_all_fill.
  by destruct (mapM (fill_from st path) ext).
Qed.

Lemma all_nodes_impl (P Q : value → bool) v :
  (∀ x, P x = true → Q x = true) → all_nodes P v = true → all_nodes Q v = true.
Proof.
  intros HPQ.
  induction v as [| b | z | s | l IH | kvs IH | bs] using js_ind;
    cbn [all_nodes]; intros [Hn Hk]%andb_true_iff;
    apply andb_true_iff; (split; [by apply HPQ|]); try done.
  - apply forallb_forall. intros x Hx.
    rewrite forallb_forall in Hk. rewrite Forall_forall in IH.
    apply IH; [by apply list_elem_of_In|by apply Hk].
  - apply forallb_forall. intros x Hx.
    rewrite forallb_forall in Hk. rewrite Forall_forall in IH.
    apply IH; [by apply list_elem_of_In|by apply Hk].
Qed.

Lemma shape_free_array_buffers v : shape_free v = true → array_buffers v = true.
Proof.
  apply all_nodes_impl. intros x [Hb _]%andb_true_iff.
  by destruct (serialized_data x).
Qed.

Lemma NoDup_filled_of n segs : NoDup (map eb_index (filled_of n segs)).
Proof.
  apply NoDup_alt. intros i j x Hi Hj. unfold filled_of in *.
  change (map eb_index ?l) with (eb_index <$> l) in *.
  rewrite list_lookup_fmap, list_lookup_imap in Hi, Hj.
  destruct (segs !! i); [|done]. destruct (segs !! j); [|done].
  simpl in *. simplify_eq. lia.
Qed.

(** Once the segment files are written, filling the pending buffers gives
    each of them the bytes of its segment. *)
Lemma fill_from_written path n segs (st0 : fs) :
  mapM (fill_from (write_segments path (filled_of n segs) st0) path) (pending_of n segs)
  = Some (filled_of n segs).
Proof.
  apply mapM_Some. apply Forall2_same_length_lookup. split.
  { unfold pending_of, filled_of. by rewrite !length_imap. }
  intros i e e' He He'. unfold pending_of, filled_of in He, He'.
  rewrite list_lookup_imap in He, He'.
  destruct (segs !! i) as [bs|] eqn:Hi; [|done]. simplify_eq/=.
  unfold fill_from. cbn [eb_index eb_buffer].
  rewrite (segments_written_lookup path (filled_of n segs)
             {| eb_index := Z.of_nat (n + i); eb_buffer := bs |}).
  - cbn [content_bytes eb_index eb_buffer]. rewrite length_replicate.
    rewrite firstn_all, drop_replicate, Nat.sub_diag. by rewrite app_nil_r.
  - apply NoDup_filled_of.
  - unfold filled_of. apply elem_of_lookup_imap. eauto.
Qed.

(** C4, amended: a value none of whose plain objects has the shape of a
    serialized buffer ([type] is 'Buffer' and [data] is truthy) or of a
    placeholder ([type] is 'ExternalBuffer', [index] and [size] are numbers),
    written with success under a path whose document is not the index file,
    is what [read] of that path returns, buffers byte for byte, whatever
    their sizes. *)
Theorem read_after_write path v cachePath maxsize now st st' :
  shape_free v = true →
  json_name path ≠ metaFilePath cachePath →
  exports_write path v cachePath maxsize now st = (Ok tt, st') →
  exports_read path st' = (Ok v, st').
Proof.
  intros Hsf Hne Hw.
  apply exports_write_ok in Hw as (d & est & m & m' & st_e & Hser & _ & _ & _ & ->).
  rewrite serialize_spec_encode in Hser by by apply shape_free_array_buffers.
  injection Hser as <- <-.
  destruct (internalize_spec_encode v 0 [] Hsf) as (r & Hint & Hres).
  cbn [length] in *.
  change (externalBuffers (push_segments enc_init (spec_encode v 0).2))
    with (filled_of 0 (spec_encode v 0).2).
  rewrite (exports_read_unfold path _ (spec_encode v 0).1 r
             (pending_of 0 (spec_encode v 0).2)).
  - rewrite fill_from_written. do 2 f_equal.
    apply Hres. apply (agrees_filled [] 0).
  - rewrite segments_written_other.
    + rewrite lookup_insert_ne by done. apply lookup_insert_eq.
    + intros index Heq. symmetry in Heq. by apply bin_name_not_json in Heq.
  - exact Hint.
Qed.

(** The buffers that the parse leaves pending are zero-filled. *)
Lemma bufferReceiver_pending v h r h' :
  bufferReceiver v h = Ok (r, h') → ∃ new, h' = h ++ new ∧ Forall zeroed new.
Proof.
  unfold bufferReceiver.
  destruct (truthy v && is_string "Buffer" (get "type" v) && truthy_prop (get "data" v)).
  { destruct (get "data" v) as [d|].
    - destruct (Buffer_from (resolve h d)); [|done]. intros [= <- <-].
      exists []. by rewrite app_nil_r.
    - intros [= <- <-]. exists []. by rewrite app_nil_r. }
  destruct (truthy v && is_string "ExternalBuffer" (get "type" v) &&
            is_number (get "index" v) && is_number (get "size" v)).
  - destruct (get "index" v) as [[| | index | | | |]|];
      try (intros [= <- <-]; exists []; by rewrite app_nil_r).
    destruct (get "size" v) as [[| | size | | | |]|];
      try (intros [= <- <-]; exists []; by rewrite app_nil_r).
    unfold Buffer_alloc. destruct (size <? 0); [done|]. cbn [rbind].
    intros [= <- <-]. eexists. split; [done|].
    repeat constructor. unfold zeroed. cbn [eb_buffer]. by rewrite length_replicate.
  - intros [= <- <-]. exists []. by rewrite app_nil_r.
Qed.

Lemma mapM_state_pending {A B : Type}
    (f : A → list ExternalBuffer → result (B * list ExternalBuffer)) (l : list A) :
  Forall (λ x, ∀ h r h', f x h = Ok (r, h') →
               ∃ new, h' = h ++ new ∧ Forall zeroed new) l →
  ∀ h rs h', mapM_state f l h = Ok (rs, h') →
             ∃ new, h' = h ++ new ∧ Forall zeroed new.
Proof.
  induction 1 as [|x l Hx Hl IH]; intros h rs h'.
  { intros [= <- <-]. exists []. by rewrite app_nil_r. }
  rewrite mapM_state_cons.
  destruct (f x h) as [[r h1]|] eqn:Hf; [|done]. cbn [rbind].
  destruct (mapM_state f l h1) as [[rs' h2]|] eqn:Hm; [|done]. cbn [rbind].
  intros [= <- <-].
  destruct (Hx _ _ _ Hf) as (new1 & -> & Hz1).
  destruct (IH _ _ _ Hm) as (new2 & -> & Hz2).
  exists (new1 ++ new2). split; [by rewrite app_assoc|by apply Forall_app].
Qed.

Lemma internalize_pending (d : json) : ∀ h r h',
  internalize d h = Ok (r, h') → ∃ new, h' = h ++ new ∧ Forall zeroed new.
Proof.
  induction d as [| b | z | s | l IH | kvs IH | []] using js_ind; intros h r h';
    cbn [internalize]; try apply bufferReceiver_pending.
  - destruct (mapM_state internalize l h) as [[rs h1]|] eqn:Hm; [|done]. cbn [rbind].
    intros Hb.
    destruct (mapM_state_pending internalize l IH _ _ _ Hm) as (new1 & -> & Hz1).
    destruct (bufferReceiver_pending _ _ _ _ Hb) as (new2 & -> & Hz2).
    exists (new1 ++ new2). split; [by rewrite app_assoc|by apply Forall_app].
  - match goal with
    | |- context [mapM_state ?f kvs h] =>
        destruct (mapM_state f kvs h) as [[rs h1]|] eqn:Hm; [|done];
        assert (∃ new, h1 = h ++ new ∧ Forall zeroed new) as (new1 & -> & Hz1)
    end.
    { eapply mapM_state_pending; [|exact Hm].
      eapply Forall_impl; [exact IH|]. intros [k x] Hx h0 r0 h0'. cbn [fst snd] in *.
      destruct (internalize x h0) as [[r1 h1']|] eqn:Hi; [|done]. cbn [rbind].
      intros [= <- <-]. by eapply Hx. }
    cbn [rbind]. intros Hb.
    destruct (bufferReceiver_pending _ _ _ _ Hb) as (new2 & -> & Hz2).
    exists (new1 ++ new2). split; [by rewrite app_assoc|by apply Forall_app].
Qed.

(** C7, amended: for a document that [JSON.parse] accepts, [read] is
    rejected, with ENOENT, when the segment file that one of its
    placeholders names does not exist. When every such file exists, [read]
    succeeds, whatever the lengths of the files: each buffer receives the
    first bytes of its file, as many as the placeholder declares, and zeros
    after the end of a shorter file. *)
Theorem read_segment_files path st d r ext :
  st !! json_name path = Some (FJson d) →
  internalize d [] = Ok (r, ext) →
  ((∃ e, e ∈ ext ∧ st !! bin_name path (eb_index e) = None) →
   exports_read path st = (Err ENOENT, st)) ∧
  (∀ files,
     Forall2 (λ e c, st !! bin_name path (eb_index e) = Some c) ext files →
     exports_read path st = (Ok (resolve (zip_with filled_with ext files) r), st)).
Proof.
  intros Hs Hint. rewrite (exports_read_unfold path st d r ext Hs Hint). split.
  - intros (e & He & Hnone).
    destruct (mapM (fill_from st path) ext) as [filled|] eqn:Hm; [|done].
    apply mapM_Some in Hm.
    apply list_elem_of_lookup in He as [i Hi].
    destruct (Forall2_lookup_l _ _ _ _ _ Hm Hi) as (y & _ & Hy).
    unfold fill_from in Hy. by rewrite Hnone in Hy.
  - intros files Hfiles.
    destruct (internalize_pending d [] r ext Hint) as (new & -> & Hzero).
    cbn [app] in *.
    assert (mapM (fill_from st path) new = Some (zip_with filled_with new files)) as ->;
      [|done].
    apply mapM_Some. clear Hint.
    induction Hfiles as [|e c new files Hc Hfiles IH]; [constructor|].
    apply Forall_cons in Hzero as [He Hzero].
    cbn [zip_with]. constructor; [|by apply IH].
    unfold fill_from, filled_with. rewrite Hc. do 2 f_equal.
    unfold zeroed in He. rewrite He at 2. by rewrite drop_replicate.
Qed.

(** ** The replacer and the reviver on objects in the form of a buffer *)







(** ** The size invariant (claim C1) *)

Lemma assoc_None_not_elem {A : Type} k (kvs : list (string * A)) :
  assoc k kvs = None ↔ k ∉ map fst kvs.
Proof.
  induction kvs as [|[k' x] kvs IH]; simpl.
  - split; [intros _; apply not_elem_of_nil|done].
  - rewrite not_elem_of_cons. case_bool_decide; [subst k'|].
    + split; [done|]. by intros [? _].
    + rewrite IH. split; [by split|by intros [_ ?]].
Qed.

Lemma assoc_delete_fresh {A : Type} k (kvs : list (string * A)) :
  assoc k kvs = None → assoc_delete k kvs = kvs.
Proof.
  unfold assoc_delete. induction kvs as [|[k' x] kvs IH]; simpl; [done|].
  case_bool_decide; [done|]. intros Hn.
  rewrite filter_cons_True by done. by rewrite IH.
Qed.

Lemma assoc_delete_keys {A : Type} k (kvs : list (string * A)) :
  map fst (assoc_delete k kvs) = filter (λ k', k' ≠ k) (map fst kvs).
Proof.
  unfold assoc_delete. induction kvs as [|[k' x] kvs IH]; simpl; [done|].
  rewrite !filter_cons. simpl. case_decide; simpl; by rewrite IH.
Qed.

(** Removing the key of a listed entry takes its size off the sum. *)
Lemma sum_sizes_assoc_delete k e (es : list (string * Entry)) :
  NoDup (map fst es) → assoc k es = Some e →
  sum_sizes (Object_values (assoc_delete k es)) =
  sum_sizes (Object_values es) - entry_size e.
Proof.
  unfold assoc_delete, Object_values.
  induction es as [|[k' x] es IH]; simpl; [done|].
  intros [Hk' Hnd]%NoDup_cons. case_bool_decide.
  - subst k'. intros [= ->]. rewrite filter_cons_False by (simpl; tauto).
    fold (assoc_delete k es). rewrite assoc_delete_fresh.
    + lia.
    + by apply assoc_None_not_elem.
  - intros He. rewrite filter_cons_True by done. simpl. rewrite IH by done. lia.
Qed.

Lemma index_wf_assoc_delete k m size :
  index_wf m →
  index_wf {| meta_size := size; meta_entries := assoc_delete k (meta_entries m) |}.
Proof.
  intros [Hnd Hkeys]. split; simpl.
  - rewrite assoc_delete_keys. by apply NoDup_filter.
  - unfold assoc_delete. apply Forall_forall. intros x [_ Hx]%list_elem_of_filter.
    rewrite Forall_forall in Hkeys. by apply Hkeys.
Qed.

(** The loop of eviction keeps the invariant, as long as the entries it is
    handed are listed in the index under their own paths, once each. *)
Lemma evict_loop_invariant l : ∀ sd btr acc m popped m',
  NoDup (map entry_path l) →
  (∀ e, e ∈ l → assoc (entry_path e) (meta_entries m) = Some e) →
  index_wf m → size_invariant m →
  evict_loop l sd btr acc m = Ok (popped, m') →
  index_wf m' ∧ size_invariant m'.
Proof.
  induction l as [|e l IH]; intros sd btr acc m popped m' Hnd Hl Hwf Hinv; simpl.
  - destruct (sd <? btr); [done|]. by intros [= <- <-].
  - destruct (sd <? btr); [|by intros [= <- <-]].
    apply NoDup_cons in Hnd as [He Hnd].
    apply IH; try done.
    + intros e' He'. cbn [meta_entries]. rewrite assoc_delete_lookup.
      case_decide as Heq.
      * exfalso. apply He. rewrite <- Heq.
        change (map entry_path l) with (entry_path <$> l). by apply list_elem_of_fmap_2.
      * apply Hl. by right.
    + by apply index_wf_assoc_delete.
    + unfold size_invariant in *. cbn [meta_size meta_entries].
      rewrite (sum_sizes_assoc_delete _ e); [lia|apply Hwf|].
      apply Hl. by left.
Qed.

Lemma index_wf_lookup m e :
  index_wf m → e ∈ Object_values (meta_entries m) →
  assoc (entry_path e) (meta_entries m) = Some e.
Proof.
  intros [Hnd Hkeys]. unfold Object_values.
  induction (meta_entries m) as [|[k x] es IH]; simpl.
  { by intros ?%elem_of_nil. }
  apply NoDup_cons in Hnd as [Hk Hnd]. apply Forall_cons in Hkeys as [Hx Hkeys].
  simpl in *. intros [->|He]%elem_of_cons.
  - by rewrite bool_decide_eq_true_2.
  - case_bool_decide as Heq; [|by apply IH].
    exfalso. apply Hk. rewrite Heq.
    change (map snd es) with (snd <$> es) in He.
    apply list_elem_of_fmap in He as ([k' x'] & -> & Hin).
    rewrite Forall_forall in Hkeys. pose proof (Hkeys _ Hin) as Hp.
    cbn [fst snd] in *. rewrite Hp.
    change (map fst es) with (fst <$> es).
    by apply (list_elem_of_fmap_2 fst es (k', x')).
Qed.

Lemma index_wf_paths m :
  index_wf m → NoDup (map entry_path (Object_values (meta_entries m))).
Proof.
  intros [Hnd Hkeys]. unfold Object_values. rewrite List.map_map.
  erewrite (Forall_fmap_ext_1 (λ kv : string * Entry, entry_path kv.2) fst);
    [exact Hnd|done].
Qed.

(** Eviction keeps the invariant. *)
Lemma eviction_invariant m btr popped m' :
  index_wf m → size_invariant m →
  evict_loop (entriesByDate m) 0 btr [] m = Ok (popped, m') →
  index_wf m' ∧ size_invariant m'.
Proof.
  intros Hwf Hinv. apply evict_loop_invariant; try done.
  - unfold entriesByDate.
    change (map entry_path ?l) with (entry_path <$> l).
    rewrite sort_by_created_perm. by apply index_wf_paths.
  - intros e He. apply index_wf_lookup; [done|].
    unfold entriesByDate in He. by rewrite sort_by_created_perm in He.
Qed.

(** Recording an entry under a path that is not listed keeps the invariant;
    under a path that is listed, the recorded total exceeds the sum by the
    size of the entry replaced. *)
Lemma with_entry_fresh path size now m :
  index_wf m → size_invariant m → assoc path (meta_entries m) = None →
  index_wf (with_entry path size now m) ∧ size_invariant (with_entry path size now m).
Proof.
  intros [Hnd Hkeys] Hinv Hfresh.
  assert (assoc_set path
            {| entry_path := path; entry_size := size; entry_created := now |}
            (meta_entries m) =
          meta_entries m ++
          [(path, {| entry_path := path; entry_size := size; entry_created := now |})])
    as Hset.
  { induction (meta_entries m) as [|[k x] es IH]; simpl in *; [done|].
    case_bool_decide; [done|]. rewrite IH; try done.
    - by apply NoDup_cons in Hnd as [_ ?].
    - by apply Forall_cons in Hkeys as [_ ?]. }
  unfold with_entry, index_wf, size_invariant in *. cbn [meta_size meta_entries].
  rewrite Hset. split; [split|].
  - rewrite map_app. simpl. apply NoDup_app. split; [done|]. split.
    + intros k Hk ->%list_elem_of_singleton. by apply assoc_None_not_elem in Hfresh.
    + apply NoDup_singleton.
  - apply Forall_app. split; [done|]. by repeat constructor.
  - unfold Object_values in *. rewrite map_app, sum_sizes_app. simpl. lia.
Qed.

Lemma with_entry_replaced path size now m old :
  NoDup (map fst (meta_entries m)) → size_invariant m →
  assoc path (meta_entries m) = Some old →
  meta_size (with_entry path size now m) =
  sum_sizes (Object_values (meta_entries (with_entry path size now m))) +
  entry_size old.
Proof.
  unfold with_entry, size_invariant, Object_values. cbn [meta_size meta_entries].
  intros Hnd -> Hold.
  induction (meta_entries m) as [|[k x] es IH]; simpl in *; [done|].
  apply NoDup_cons in Hnd as [Hk Hnd].
  case_bool_decide.
  - injection Hold as ->. simpl. lia.
  - simpl. specialize (IH Hnd Hold). lia.
Qed.

(** A write under a path that the index does not list keeps the invariant:
    the defect of a write is confined to the paths that have a live entry. *)
Lemma write_fresh_invariant path data cachePath maxsize now st st' m :
  readMetaFile cachePath st = (Ok m, st) →
  index_wf m → size_invariant m →
  assoc path (meta_entries m) = None →
  exports_write path data cachePath maxsize now st = (Ok tt, st') →
  ∃ m', readMetaFile cachePath st' = (Ok m', st') ∧ index_wf m' ∧ size_invariant m'.
Proof.
  intros Hmeta Hwf Hinv Hfresh Hw.
  apply exports_write_index in Hw
    as (d & est & m0 & m1 & st_e & _ & _ & Hmeta0 & Hred & Hidx).
  rewrite Hmeta in Hmeta0. injection Hmeta0 as <-.
  eexists. split; [exact Hidx|].
  fold (with_entry path (dataString_length d + externalBuffersLength est) now m1).
  destruct (maxsize <? meta_size m + (dataString_length d + externalBuffersLength est)).
  - apply reduceCacheSize_ok in Hred as (popped & units & Hev & _).
    destruct (eviction_invariant _ _ _ _ Hwf Hinv Hev) as [Hwf1 Hinv1].
    apply with_entry_fresh; try done.
    destruct (evict_loop_ok_spec _ _ _ _ Hev) as (rest & Hspec).
    destruct Hspec as (_ & _ & _ & _ & _ & _ & _ & Hlookup).
    rewrite Hlookup, Hfresh. by case_decide.
  - destruct Hred as [-> ->]. by apply with_entry_fresh.
Qed.

(** * Further properties of the store *)

(** ** Writes *)

(** A write that needs no eviction: the state it leaves. *)
Lemma exports_write_fits path data cachePath maxsize now st d est m :
  serialize data enc_init = Ok (d, est) →
  dataString_length d + externalBuffersLength est ≤ maxsize →
  readMetaFile cachePath st = (Ok m, st) →
  meta_size m + (dataString_length d + externalBuffersLength est) ≤ maxsize →
  exports_write path data cachePath maxsize now st =
    (Ok tt,
     write_segments path (externalBuffers est)
       (<[metaFilePath cachePath :=
            FJson (metadata_to_json
              (with_entry path (dataString_length d + externalBuffersLength est) now m))]>
          (<[json_name path := FJson d]> st))).
Proof.
  intros Hser Hfit Hmeta Hroom. unfold exports_write, bind, lift. rewrite Hser.
  apply Z.ltb_ge in Hfit. rewrite Hfit. unfold ret at 1. rewrite Hmeta.
  apply Z.ltb_ge in Hroom. rewrite Hroom. unfold ret at 1.
  unfold writeMetaFile, fs_writeFile at 1 2. by rewrite Promise_all_writeFile.
Qed.

(** X1: a value other than [null] whose encoded size, the length of the
    document plus the bytes of the buffers extracted, exceeds [maxsize] is
    rejected with the size error, which carries both numbers, and no file is
    read, written or removed. *)
Theorem oversize_value_rejected path data cachePath maxsize now st d est :
  data ≠ JNull →
  serialize data enc_init = Ok (d, est) →
  maxsize < dataString_length d + externalBuffersLength est →
  exports_write path data cachePath maxsize now st =
    (Err (EntryTooLarge (dataString_length d + externalBuffersLength est) maxsize), st).
Proof.
  intros Hnn Hser Hlt. rewrite (write_too_large _ _ _ _ _ _ _ _ Hser Hlt).
  by destruct data.
Qed.

(** X2: the first write into a cache that has no index file succeeds when
    the value fits, and creates an index that lists the entry alone, with
    the encoded size of the value as its size and as the total. *)
Theorem first_write_creates_index path data cachePath maxsize now st d est :
  st !! metaFilePath cachePath = None →
  serialize data enc_init = Ok (d, est) →
  dataString_length d + externalBuffersLength est ≤ maxsize →
  ∃ st',
    exports_write path data cachePath maxsize now st = (Ok tt, st') ∧
    readMetaFile cachePath st' =
      (Ok {| meta_size := dataString_length d + externalBuffersLength est;
             meta_entries :=
               [(path, {| entry_path := path;
                          entry_size := dataString_length d + externalBuffersLength est;
                          entry_created := now |})] |}, st').
Proof.
  intros Hnone Hser Hfit.
  pose proof (readMetaFile_absent cachePath st Hnone) as Hmeta.
  eexists. split.
  - by apply (exports_write_fits _ _ _ _ _ _ _ _ _ Hser Hfit Hmeta).
  - apply readMetaFile_written. rewrite segments_written_other.
    + by rewrite lookup_insert_eq.
    + intros index Heq. symmetry in Heq. by apply bin_name_not_meta in Heq.
Qed.

(** X3: when the index file does not hold JSON, a write of a value that fits
    is rejected with the error 'fs-cache meta file is not valid json' and no
    file is written. *)
Theorem write_rejects_corrupt_index path data cachePath maxsize now st d est bs :
  st !! metaFilePath cachePath = Some (FBin bs) →
  serialize data enc_init = Ok (d, est) →
  dataString_length d + externalBuffersLength est ≤ maxsize →
  exports_write path data cachePath maxsize now st = (Err MetaNotJson, st).
Proof.
  intros Hbin Hser Hfit. unfold exports_write, bind, lift. rewrite Hser.
  apply Z.ltb_ge in Hfit. rewrite Hfit. unfold ret at 1.
  unfold readMetaFile, catch, bind, fs_readFile, lift. by rewrite Hbin.
Qed.

(** X4: after a write that succeeds, the recorded total of the index is at
    most [maxsize], and the index lists the path with the encoded size of
    the value and the time of the write. *)
Theorem written_total_within_maxsize path data cachePath maxsize now st st' :
  exports_write path data cachePath maxsize now st = (Ok tt, st') →
  ∃ d est m',
    serialize data enc_init = Ok (d, est) ∧
    readMetaFile cachePath st' = (Ok m', st') ∧
    meta_size m' ≤ maxsize ∧
    assoc path (meta_entries m') =
      Some {| entry_path := path;
              entry_size := dataString_length d + externalBuffersLength est;
              entry_created := now |}.
Proof.
  intros Hw.
  apply exports_write_index in Hw
    as (d & est & m & m1 & st_e & Hser & Hfit & Hmeta & Hred & Hidx).
  eexists d, est, _. split; [done|]. split; [exact Hidx|].
  cbn [meta_size meta_entries]. split.
  - destruct (maxsize <? meta_size m + (dataString_length d + externalBuffersLength est))
      eqn:Hover.
    + apply reduceCacheSize_ok in Hred as (popped & units & Hev & _).
      apply evict_loop_ok_spec in Hev as (rest & Hspec).
      destruct Hspec as (_ & _ & _ & _ & Hge & _ & Hsize & _). lia.
    + destruct Hred as [-> _]. apply Z.ltb_ge in Hover. lia.
  - rewrite assoc_set_lookup. by rewrite decide_True.
Qed.

(** ** Removing the files of an entry *)

(** The loop that removes the segment files removes files only. *)
Lemma unlink_loop_subseteq path : ∀ fuel i (st : fs) r st',
  unlink_loop fuel path i st = (r, st') → st' ⊆ st.
Proof.
  induction fuel as [|fuel IH]; intros i st r st'; simpl.
  { by intros [= <- <-]. }
  unfold bind, fs_unlink. destruct (st !! bin_name path i) eqn:Hs.
  - intros Hrun. etrans; [by eapply IH|]. apply delete_subseteq.
  - by intros [= <- <-].
Qed.

(** It leaves every file other than the segment files from [i] on. *)
Lemma unlink_loop_frame path : ∀ fuel i (st : fs) r st',
  unlink_loop fuel path i st = (r, st') →
  ∀ name, (∀ j, i ≤ j → name ≠ bin_name path j) → st' !! name = st !! name.
Proof.
  induction fuel as [|fuel IH]; intros i st r st'; simpl.
  { by intros [= <- <-]. }
  unfold bind, fs_unlink. destruct (st !! bin_name path i) eqn:Hs.
  - intros Hrun name Hne. rewrite (IH _ _ _ _ Hrun).
    + rewrite lookup_delete_ne; [done|]. intros Heq. by apply (Hne i); [lia|].
    + intros j Hj. apply Hne. lia.
  - by intros [= <- <-].
Qed.

(** It removes the segment files that are numbered without a gap from [i]. *)
Lemma unlink_loop_removes path : ∀ (n : nat) fuel i (st : fs) st',
  unlink_loop fuel path i st = (Err ENOENT, st') →
  (∀ j, i ≤ j < i + Z.of_nat n → is_Some (st !! bin_name path j)) →
  ∀ j, i ≤ j < i + Z.of_nat n → st' !! bin_name path j = None.
Proof.
  induction n as [|n IH]; intros fuel i st st' Hrun Hrange j Hj; [lia|].
  destruct fuel as [|fuel]; [done|]. simpl in Hrun.
  unfold bind, fs_unlink in Hrun.
  destruct (Hrange i) as [c Hc]; [lia|]. rewrite Hc in Hrun.
  destruct (decide (j = i)) as [->|Hne].
  - apply unlink_loop_subseteq in Hrun.
    eapply lookup_weaken_None; [|exact Hrun]. apply lookup_delete_eq.
  - apply (IH fuel (i + 1) _ _ Hrun); [|lia].
    intros j' Hj'. rewrite lookup_delete_ne.
    + apply Hrange. lia.
    + intros Heq%bin_name_inj. lia.
Qed.

(** It stops at the first index whose segment file is missing. *)
Lemma unlink_loop_gap path : ∀ (n : nat) fuel i (st : fs) st',
  unlink_loop fuel path i st = (Err ENOENT, st') →
  (∀ j, i ≤ j < i + Z.of_nat n → is_Some (st !! bin_name path j)) →
  st !! bin_name path (i + Z.of_nat n) = None →
  ∀ name, (∀ j, i ≤ j < i + Z.of_nat n → name ≠ bin_name path j) →
          st' !! name = st !! name.
Proof.
  induction n as [|n IH]; intros fuel i st st' Hrun Hrange Hgap name Hne;
    (destruct fuel as [|fuel]; [done|]); simpl in Hrun;
    unfold bind, fs_unlink in Hrun.
  - replace (i + Z.of_nat 0) with i in Hgap by lia. rewrite Hgap in Hrun.
    by injection Hrun as <-.
  - destruct (Hrange i) as [c Hc]; [lia|]. rewrite Hc in Hrun.
    rewrite (IH fuel (i + 1) _ _ Hrun).
    + apply lookup_delete_ne. intros Heq. by apply (Hne i); [lia|].
    + intros j Hj. rewrite lookup_delete_ne.
      * apply Hrange. lia.
      * intros Heq%bin_name_inj. lia.
    + rewrite lookup_delete_ne.
      * by replace (i + 1 + Z.of_nat n) with (i + Z.of_nat (S n)) by lia.
      * intros Heq%bin_name_inj. lia.
    + intros j Hj. apply Hne. lia.
Qed.

(** [delete] of an entry whose document exists: the files are removed, then
    the index is updated when [cachePath] is given. *)
Lemma exports_delete_unfold path cachePath st c :
  st !! json_name path = Some c →
  ∃ st1,
    unlink_loop (S (size (delete (json_name path) st))) path 0
      (delete (json_name path) st) = (Err ENOENT, st1) ∧
    exports_delete path cachePath st =
      match given cachePath with
      | Some cachePath =>
          (let! metadata := readMetaFile cachePath in
           match assoc path (meta_entries metadata) with
           | None => throw TypeError
           | Some entry =>
               writeMetaFile cachePath
                 {| meta_size := meta_size metadata - entry_size entry;
                    meta_entries := meta_entries metadata |}
           end) st1
      | None => (Ok tt, st1)
      end.
Proof.
  intros Hs.
  destruct (unlink_loop_fuel path (S (size (delete (json_name path) st))) 0
              (delete (json_name path) st)) as (st1 & Hrun & _); [lia|].
  exists st1. split; [done|].
  unfold exports_delete, bind, catch, fs_unlink. rewrite Hs, Hrun. simpl.
  by destruct (given cachePath).
Qed.

(** Once the files of an entry are removed, its document is gone. *)
Lemma unlink_loop_document path fuel i (st : fs) r st' :
  unlink_loop fuel path i (delete (json_name path) st) = (r, st') →
  st' !! json_name path = None.
Proof.
  intros Hrun%unlink_loop_subseteq.
  eapply lookup_weaken_None; [|exact Hrun]. apply lookup_delete_eq.
Qed.

(** X5: [delete] removes the document and the segment files numbered
    without a gap from 0, and stops at the first index whose segment file is
    missing: every other file, a segment file with a greater index included,
    is left as it was. *)
Theorem delete_stops_at_gap path st c k :
  0 ≤ k →
  st !! json_name path = Some c →
  (∀ j, 0 ≤ j < k → is_Some (st !! bin_name path j)) →
  st !! bin_name path k = None →
  ∃ st',
    exports_delete path None st = (Ok tt, st') ∧
    st' !! json_name path = None ∧
    (∀ j, 0 ≤ j < k → st' !! bin_name path j = None) ∧
    (∀ name, name ≠ json_name path →
       (∀ j, 0 ≤ j < k → name ≠ bin_name path j) →
       st' !! name = st !! name).
Proof.
  intros Hk Hs Hrange Hgap.
  destruct (exports_delete_unfold path None st c Hs) as (st1 & Hrun & ->).
  assert (∀ j, 0 ≤ j < 0 + Z.of_nat (Z.to_nat k) →
               is_Some (delete (json_name path) st !! bin_name path j)) as Hrange1.
  { intros j Hj. rewrite lookup_delete_ne; [apply Hrange; lia|].
    intros Heq. symmetry in Heq. by apply bin_name_not_json in Heq. }
  exists st1. simpl. split; [done|]. split; [|split].
  - by eapply unlink_loop_document.
  - intros j Hj.
    apply (unlink_loop_removes path (Z.to_nat k) _ 0 _ _ Hrun Hrange1). lia.
  - intros name Hjson Hbin.
    rewrite (unlink_loop_gap path (Z.to_nat k) _ 0 _ _ Hrun Hrange1).
    + by apply lookup_delete_ne.
    + rewrite lookup_delete_ne.
      * by replace (0 + Z.of_nat (Z.to_nat k)) with k by lia.
      * intros Heq. symmetry in Heq. by apply bin_name_not_json in Heq.
    + intros j Hj. apply Hbin. lia.
Qed.


(** X7: after a [delete] that succeeds, with or without [cachePath], [read]
    of the path is rejected with ENOENT. *)
Theorem read_after_delete path cachePath st st' :
  exports_delete path cachePath st = (Ok tt, st') →
  exports_read path st' = (Err ENOENT, st').
Proof.
  intros Hdel.
  assert (st' !! json_name path = None) as Hgone.
  { destruct (st !! json_name path) as [c|] eqn:Hs.
    - destruct (exports_delete_unfold path cachePath st c Hs) as (st1 & Hrun & Heq).
      rewrite Heq in Hdel. clear Heq.
      pose proof (unlink_loop_document _ _ _ _ _ _ Hrun) as Hnone.
      destruct (given cachePath) as [cp|]; [|by injection Hdel as <-].
      unfold bind in Hdel.
      pose proof (readMetaFile_state cp st1) as Hst1.
      destruct (readMetaFile cp st1) as [[m|e] st1'] eqn:Hmeta; [|done].
      simpl in Hst1. subst st1'.
      destruct (assoc path (meta_entries m)) as [entry|] eqn:Hentry; [|done].
      unfold writeMetaFile, fs_writeFile in Hdel. injection Hdel as <-.
      rewrite lookup_insert_ne; [done|]. intros Heq.
      rewrite readMetaFile_absent in Hmeta by by rewrite Heq.
      injection Hmeta as <-. done.
    - unfold exports_delete, bind, fs_unlink in Hdel. by rewrite Hs in Hdel. }
  unfold exports_read, bind, fs_readFile. by rewrite Hgone.
Qed.

(** ** Reading *)

(** The outcomes of [read]. *)
Lemma exports_read_cases path st :
  exports_read path st =
  (match st !! json_name path with
   | None => Err ENOENT
   | Some (FBin _) => Err SyntaxError
   | Some (FJson d) =>
       match internalize d [] with
       | Err e => Err e
       | Ok (r, ext) =>
           match mapM (fill_from st path) ext with
           | Some filled => Ok (resolve filled r)
           | None => Err ENOENT
           end
       end
   end, st).
Proof.
  unfold exports_read, bind at 1, fs_readFile.
  destruct (st !! json_name path) as [[d|bs]|]; [|done..].
  unfold bind at 1, lift at 1. cbn [JSON_parse].
  unfold bind at 1, lift at 1.
  destruct (internalize d []) as [[r ext]|e]; [|done].
  unfold bind at 1. rewrite Promise_all_fill.
  by destruct (mapM (fill_from st path) ext).
Qed.

(** X8: [read] leaves every file as it was, whether it succeeds or is
    rejected. *)
Theorem read_leaves_files path st : (exports_read path st).2 = st.
Proof. by rewrite exports_read_cases. Qed.

(** ** The files of distinct entries *)

Lemma json_name_inj p q : json_name p = json_name q → p = q.
Proof. apply append_inv_tail. Qed.

(** The decimal numeral of a number that is not negative has no dash. *)
Lemma pretty_N_go_no_dash x : ∀ s,
  "-"%char ∉ list_ascii_of_string s →
  "-"%char ∉ list_ascii_of_string (pretty_N_go x s).
Proof.
  induction (N.lt_wf_0 x) as [x _ IH]; intros s Hs.
  assert (x = 0 ∨ 0 < x)%N as [->|Hpos] by lia.
  - by rewrite pretty_N_go_0.
  - rewrite pretty_N_go_step by done. apply IH.
    { by apply N.div_lt. }
    simpl. apply not_elem_of_cons. split; [|done].
    unfold pretty_N_char. by repeat case_match.
Qed.

Lemma pretty_no_dash index :
  0 ≤ index → "-"%char ∉ list_ascii_of_string (pretty index).
Proof.
  intros Hi. destruct index as [|p|p]; [| |lia].
  - apply not_elem_of_cons. split; [done|apply not_elem_of_nil].
  - unfold pretty, pretty_Z, pretty, pretty_positive, pretty, pretty_N.
    case_decide; [done|]. apply pretty_N_go_no_dash, not_elem_of_nil.
Qed.

(** A segment file belongs to one entry and has one index. *)
Lemma bin_name_inj_path p q i j :
  0 ≤ i → 0 ≤ j → bin_name p i = bin_name q j → p = q ∧ i = j.
Proof.
  intros Hi Hj Heq. rewrite !bin_name_suffix in Heq. apply append_inv_tail in Heq.
  apply (f_equal list_ascii_of_string) in Heq. rewrite !chars_append in Heq.
  apply not_elem_of_app_cons_inv_r in Heq as (Hp & _ & Hidx);
    [|by apply pretty_no_dash..].
  split.
  - apply (f_equal string_of_list_ascii) in Hp.
    by rewrite !string_of_list_ascii_of_string in Hp.
  - apply (f_equal string_of_list_ascii) in Hidx.
    rewrite !string_of_list_ascii_of_string in Hidx. by apply pretty_Z_inj in Hidx.
Qed.

(** A file is the document or a segment file of at most one entry. *)
Lemma entry_file_path p q name : entry_file p name → entry_file q name → p = q.
Proof.
  intros [->|(i & Hi & ->)] [Hq|(j & Hj & Hq)].
  - by apply json_name_inj.
  - symmetry in Hq. by apply bin_name_not_json in Hq.
  - by apply bin_name_not_json in Hq.
  - by apply bin_name_inj_path in Hq as [-> _].
Qed.

(** X9: a file is the document or a segment file of at most one entry: the
    files of entries with distinct paths are distinct. *)
Theorem entry_files_disjoint p q name :
  p ≠ q → entry_file p name → ¬ entry_file q name.
Proof. intros Hne Hp Hq. by apply Hne, (entry_file_path p q name). Qed.

Lemma entry_file_not_meta path cachePath name :
  json_name path ≠ metaFilePath cachePath → entry_file path name →
  name ≠ metaFilePath cachePath.
Proof.
  intros Hne [->|(i & _ & ->)]; [done|]. apply bin_name_not_meta.
Qed.

(** ** The closure of the replacer *)

Lemma replacerFunction_numbered v st v2 st' :
  segments_numbered st → replacerFunction v st = Ok (v2, st') →
  segments_numbered st' ∧ externalBuffers st `prefix_of` externalBuffers st'.
Proof.
  intros [Hidx Hlen]. unfold replacerFunction.
  destruct (shouldExternalize v); [|by intros [= <- <-]].
  destruct (get "data" v) as [d|]; [|by intros [= <- <-]].
  destruct (Buffer_from d) as [buffer|]; [|done]. cbn [rbind]. intros [= <- <-].
  split; [split|]; cbn [externalBuffers externalBuffersLength].
  - intros i e Hi. apply lookup_app_Some in Hi as [Hi|[Hge Hi]]; [by apply Hidx|].
    apply list_lookup_singleton_Some in Hi as [Hi <-]. simpl. lia.
  - rewrite map_app, concat_app, length_app, Hlen. simpl. rewrite app_nil_r. lia.
  - by apply prefix_app_r.
Qed.

Lemma mapM_state_numbered {A B : Type}
    (f : A → enc_state → result (B * enc_state)) (l : list A) :
  Forall (λ x, ∀ st y st', segments_numbered st → f x st = Ok (y, st') →
               segments_numbered st' ∧
               externalBuffers st `prefix_of` externalBuffers st') l →
  ∀ st ys st', segments_numbered st → mapM_state f l st = Ok (ys, st') →
    segments_numbered st' ∧ externalBuffers st `prefix_of` externalBuffers st'.
Proof.
  induction 1 as [|x l Hx Hl IH]; intros st ys st' Hst.
  { by intros [= <- <-]. }
  rewrite mapM_state_cons.
  destruct (f x st) as [[y st1]|] eqn:Hf; [|done]. cbn [rbind].
  destruct (mapM_state f l st1) as [[ys' st2]|] eqn:Hm; [|done]. cbn [rbind].
  intros [= <- <-].
  destruct (Hx _ _ _ Hst Hf) as [Hst1 Hp1].
  destruct (IH _ _ _ Hst1 Hm) as [Hst2 Hp2].
  split; [done|]. by etrans.
Qed.

(** The encoding keeps the closure of the replacer consistent, and keeps the
    buffers extracted before. *)
Lemma serialize_numbered v : ∀ st d st',
  segments_numbered st → serialize v st = Ok (d, st') →
  segments_numbered st' ∧ externalBuffers st `prefix_of` externalBuffers st'.
Proof.
  induction v as [| b | n | s | l IH | kvs IH | bs] using js_ind;
    intros st d st' Hst; cbn [serialize];
    destruct (replacerFunction _ st) as [[v2 st1]|] eqn:Hrep; try done;
    cbn [rbind]; apply (replacerFunction_numbered _ _ _ _ Hst) in Hrep as [Hst1 Hp1];
    destruct (shouldExternalize _); try by intros [= <- <-].
  - destruct (mapM_state serialize l st1) as [[ds st2]|] eqn:Hm; [|done].
    cbn [rbind]. intros [= <- <-].
    destruct (mapM_state_numbered serialize l IH _ _ _ Hst1 Hm) as [Hst2 Hp2].
    split; [done|]. by etrans.
  - match goal with
    | |- context [mapM_state ?f kvs st1] =>
        destruct (mapM_state f kvs st1) as [[ds st2]|] eqn:Hm; [|done]
    end.
    cbn [rbind]. intros [= <- <-].
    eapply mapM_state_numbered in Hm as [Hst2 Hp2]; [|idtac|exact Hst1].
    + split; [done|]. by etrans.
    + eapply Forall_impl; [exact IH|]. intros [k x] Hx st0 y st0' Hst0. simpl.
      destruct (serialize x st0) as [[d0 st3]|] eqn:Hser; [|done]. cbn [rbind].
      intros [= <- <-]. by eapply Hx.
Qed.

Lemma enc_init_numbered : segments_numbered enc_init.
Proof. split; [|done]. intros i e Hi. by destruct i. Qed.

(** X10: whatever the value, when the encoding succeeds the buffer at
    position [i] of [externalBuffers] carries the index [i], the one of its
    placeholder, and [externalBuffersLength] is the number of bytes of all
    the buffers extracted. *)
Theorem encoder_numbers_segments v d est :
  serialize v enc_init = Ok (d, est) → segments_numbered est.
Proof.
  intros Hser. by destruct (serialize_numbered v _ _ _ enc_init_numbered Hser).
Qed.

Lemma segments_numbered_NoDup est :
  segments_numbered est → NoDup (map eb_index (externalBuffers est)).
Proof.
  intros [Hidx _]. apply NoDup_alt. intros i j x Hi Hj.
  change (map eb_index ?l) with (eb_index <$> l) in *.
  rewrite list_lookup_fmap in Hi, Hj.
  destruct (externalBuffers est !! i) as [ei|] eqn:Hei; [|done].
  destruct (externalBuffers est !! j) as [ej|] eqn:Hej; [|done].
  apply Hidx in Hei, Hej. simplify_eq/=. lia.
Qed.

Lemma segments_numbered_index est e :
  segments_numbered est → e ∈ externalBuffers est → 0 ≤ eb_index e.
Proof.
  intros [Hidx _] [i Hi]%list_elem_of_lookup. rewrite (Hidx _ _ Hi). lia.
Qed.

(** ** The files a write leaves *)

Lemma segments_written_frame path (ebs : list ExternalBuffer) name : ∀ st : fs,
  (∀ e, e ∈ ebs → name ≠ bin_name path (eb_index e)) →
  write_segments path ebs st !! name = st !! name.
Proof.
  unfold write_segments.
  induction ebs as [|eb ebs IH]; intros st Hne; simpl; [done|].
  rewrite IH.
  - rewrite lookup_insert_ne; [done|]. intros Heq. by apply (Hne eb); [left|].
  - intros e He. apply Hne. by right.
Qed.

(** X11: a write of a value that fits, into a cache that has room for it,
    succeeds; it creates the document, one segment file for each buffer
    extracted, numbered from 0, and the index with the new entry, and leaves
    every other file as it was. *)
Theorem write_without_eviction_files path data cachePath maxsize now st d est m :
  serialize data enc_init = Ok (d, est) →
  dataString_length d + externalBuffersLength est ≤ maxsize →
  readMetaFile cachePath st = (Ok m, st) →
  meta_size m + (dataString_length d + externalBuffersLength est) ≤ maxsize →
  json_name path ≠ metaFilePath cachePath →
  ∃ st',
    exports_write path data cachePath maxsize now st = (Ok tt, st') ∧
    st' !! json_name path = Some (FJson d) ∧
    (∀ i e, externalBuffers est !! i = Some e →
       st' !! bin_name path (Z.of_nat i) = Some (FBin (eb_buffer e))) ∧
    readMetaFile cachePath st' =
      (Ok (with_entry path (dataString_length d + externalBuffersLength est) now m),
       st') ∧
    (∀ name, name ≠ json_name path → name ≠ metaFilePath cachePath →
       (∀ i, (i < length (externalBuffers est))%nat →
             name ≠ bin_name path (Z.of_nat i)) →
       st' !! name = st !! name).
Proof.
  intros Hser Hfit Hmeta Hroom Hne.
  pose proof (serialize_numbered data _ _ _ enc_init_numbered Hser) as [Hnum _].
  eexists. split; [by apply (exports_write_fits _ _ _ _ _ _ _ _ _ Hser Hfit Hmeta)|].
  split; [|split; [|split]].
  - rewrite segments_written_other.
    + rewrite lookup_insert_ne by done. apply lookup_insert_eq.
    + intros index Heq. symmetry in Heq. by apply bin_name_not_json in Heq.
  - intros i e Hi. destruct Hnum as [Hidx Hlen]. rewrite <- (Hidx _ _ Hi).
    apply segments_written_lookup.
    + by apply segments_numbered_NoDup.
    + by eapply list_elem_of_lookup_2.
  - apply readMetaFile_written. rewrite segments_written_other.
    + apply lookup_insert_eq.
    + intros index Heq. symmetry in Heq. by apply bin_name_not_meta in Heq.
  - intros name Hjson Hidx Hbin. rewrite segments_written_frame.
    + by rewrite !lookup_insert_ne.
    + intros e [i Hi]%list_elem_of_lookup. destruct Hnum as [Hnum _].
      rewrite (Hnum _ _ Hi). apply Hbin. by eapply lookup_lt_Some.
Qed.

(** X12: after a write that succeeds, [delete] of the path succeeds and
    removes the document and every segment file that the write created. *)
Theorem delete_after_write path data cachePath maxsize now st st1 :
  exports_write path data cachePath maxsize now st = (Ok tt, st1) →
  ∃ d est st2,
    serialize data enc_init = Ok (d, est) ∧
    exports_delete path None st1 = (Ok tt, st2) ∧
    st2 !! json_name path = None ∧
    ∀ e, e ∈ externalBuffers est → st2 !! bin_name path (eb_index e) = None.
Proof.
  intros Hw.
  apply exports_write_ok in Hw as (d & est & m & m' & st_e & Hser & _ & _ & _ & ->).
  pose proof (serialize_numbered data _ _ _ enc_init_numbered Hser) as [Hnum _].
  match goal with |- context [exports_delete path None ?s] => set (st1 := s) end.
  assert (is_Some (st1 !! json_name path)) as [c Hc].
  { unfold st1. rewrite segments_written_other.
    - destruct (decide (metaFilePath cachePath = json_name path)) as [->|Hne].
      + rewrite lookup_insert_eq. eauto.
      + rewrite lookup_insert_ne by done. rewrite lookup_insert_eq. eauto.
    - intros index Heq. symmetry in Heq. by apply bin_name_not_json in Heq. }
  destruct (exports_delete_unfold path None st1 c Hc) as (st2 & Hrun & Hdel).
  exists d, est, st2. split; [done|]. split; [done|]. split.
  { by eapply unlink_loop_document. }
  intros e [i Hi]%list_elem_of_lookup.
  destruct Hnum as [Hidx Hlen].
  apply (unlink_loop_removes path (length (externalBuffers est)) _ 0 _ _ Hrun).
  - intros j Hj. rewrite lookup_delete_ne.
    + destruct (lookup_lt_is_Some_2 (externalBuffers est) (Z.to_nat j)) as [ej Hej];
        [lia|].
      replace j with (eb_index ej) by (rewrite (Hidx _ _ Hej); lia).
      unfold st1. rewrite (segments_written_lookup path (externalBuffers est) ej).
      * eauto.
      * by apply segments_numbered_NoDup.
      * by eapply list_elem_of_lookup_2.
    + intros Heq. symmetry in Heq. by apply bin_name_not_json in Heq.
  - rewrite (Hidx _ _ Hi). apply lookup_lt_Some in Hi. lia.
Qed.

(** ** Eviction and the files *)

(** [delete] without [cachePath] succeeds when the document exists and is
    rejected with ENOENT otherwise; it removes files of the entry only. *)
Lemma exports_delete_None path st :
  ∃ st',
    exports_delete path None st =
      (match st !! json_name path with
       | Some _ => Ok tt
       | None => Err ENOENT
       end, st') ∧
    st' ⊆ st ∧
    (∀ name, ¬ entry_file path name → st' !! name = st !! name) ∧
    (is_Some (st !! json_name path) → st' !! json_name path = None).
Proof.
  destruct (st !! json_name path) as [c|] eqn:Hs.
  - destruct (exports_delete_unfold path None st c Hs) as (st1 & Hrun & ->). simpl.
    exists st1. split; [done|]. split; [|split].
    + etrans; [by eapply unlink_loop_subseteq|apply delete_subseteq].
    + intros name Hname. rewrite (unlink_loop_frame _ _ _ _ _ _ Hrun).
      * apply lookup_delete_ne. intros <-. apply Hname. by left.
      * intros j Hj ->. apply Hname. right. eauto.
    + intros _. by eapply unlink_loop_document.
  - exists st. unfold exports_delete, bind, fs_unlink. rewrite Hs.
    split; [done|]. split; [done|]. split; [done|]. by intros [??].
Qed.

(** The deletions that eviction starts. *)
Lemma Promise_all_delete (popped : list Entry) : ∀ st r st',
  Promise_all (map (λ entry, exports_delete (entry_path entry) None) popped) st
    = (r, st') →
  st' ⊆ st ∧
  (∀ name, (∀ e, e ∈ popped → ¬ entry_file (entry_path e) name) →
           st' !! name = st !! name) ∧
  match r with
  | Ok _ =>
      ∀ e, e ∈ popped →
        is_Some (st !! json_name (entry_path e)) ∧
        st' !! json_name (entry_path e) = None
  | Err err =>
      err = ENOENT ∧ ∃ e, e ∈ popped ∧ st' !! json_name (entry_path e) = None
  end ∧
  ((∃ e, e ∈ popped ∧ st !! json_name (entry_path e) = None) → r = Err ENOENT).
Proof.
  induction popped as [|e popped IH]; intros st r st'.
  { intros [= <- <-]. split; [done|]. split; [done|]. split.
    - by intros e ?%elem_of_nil.
    - by intros (e & ?%elem_of_nil & _). }
  cbn [map Promise_all].
  destruct (exports_delete_None (entry_path e) st)
    as (st1 & -> & Hsub1 & Hframe1 & Hgone1).
  destruct (Promise_all _ st1) as [rs st2] eqn:Hrest.
  destruct (IH _ _ _ Hrest) as (Hsub2 & Hframe2 & Hres2 & Hmiss2).
  intros [= <- <-]. split; [by etrans|]. split; [|split].
  - intros name Hname. rewrite Hframe2, Hframe1; [done|..].
    + apply Hname. by left.
    + intros e' He'. apply Hname. by right.
  - destruct (st !! json_name (entry_path e)) as [c|] eqn:Hs; cbn [rbind].
    + destruct rs as [l|err]; cbn [rbind].
      * intros e' [->|He']%elem_of_cons.
        -- split; [eauto|].
           eapply lookup_weaken_None; [|exact Hsub2]. apply Hgone1. eauto.
        -- destruct (Hres2 e' He') as [[c' Hc'] Hnone]. split; [|done].
           exists c'. by eapply lookup_weaken.
      * destruct Hres2 as (-> & e' & He' & Hnone). split; [done|].
        exists e'. split; [by right|done].
    + split; [done|]. exists e. split; [by left|].
      eapply lookup_weaken_None; [|exact Hsub2].
      eapply lookup_weaken_None; [exact Hs|exact Hsub1].
  - intros (e' & [->|He']%elem_of_cons & Hnone).
    + by rewrite Hnone.
    + rewrite Hmiss2.
      * by destruct (st !! json_name (entry_path e)).
      * exists e'. split; [done|]. by eapply lookup_weaken_None.
Qed.

(** X13: eviction that succeeds has found the document of every entry it
    takes, and has removed it; it creates no file, and leaves every file that
    is not the document or a segment file of an entry it takes. *)
Theorem eviction_removes_documents m bytesToReduce st m' st' :
  reduceCacheSize m bytesToReduce st = (Ok m', st') →
  ∃ popped,
    evict_loop (entriesByDate m) 0 bytesToReduce [] m = Ok (popped, m') ∧
    (∀ e, e ∈ popped →
       is_Some (st !! json_name (entry_path e)) ∧
       st' !! json_name (entry_path e) = None) ∧
    st' ⊆ st ∧
    (∀ name, (∀ e, e ∈ popped → ¬ entry_file (entry_path e) name) →
       st' !! name = st !! name).
Proof.
  intros Hred. apply reduceCacheSize_ok in Hred as (popped & units & Hev & Hall).
  apply Promise_all_delete in Hall as (Hsub & Hframe & Hgone & _).
  exists popped. by split_and!.
Qed.

(** X14: when the index lists an entry whose document is gone and a write
    has to evict that entry, the write is rejected with ENOENT; it removes
    files at most: the document of the new value is not written and the index
    file is not rewritten. *)
Theorem write_fails_on_stale_index
    path data cachePath maxsize now st d est m popped m' e :
  serialize data enc_init = Ok (d, est) →
  dataString_length d + externalBuffersLength est ≤ maxsize →
  readMetaFile cachePath st = (Ok m, st) →
  maxsize < meta_size m + (dataString_length d + externalBuffersLength est) →
  evict_loop (entriesByDate m) 0
    (meta_size m + (dataString_length d + externalBuffersLength est) - maxsize) [] m
    = Ok (popped, m') →
  e ∈ popped →
  st !! json_name (entry_path e) = None →
  ∃ st',
    exports_write path data cachePath maxsize now st = (Err ENOENT, st') ∧ st' ⊆ st.
Proof.
  intros Hser Hfit Hmeta Hover Hev He Hnone.
  unfold exports_write, bind at 1, lift. rewrite Hser.
  apply Z.ltb_ge in Hfit. rewrite Hfit. unfold bind at 1, ret at 1.
  unfold bind at 1. rewrite Hmeta.
  apply Z.ltb_lt in Hover. rewrite Hover. unfold bind at 1.
  rewrite (reduceCacheSize_unfold _ _ _ _ _ Hev). unfold bind at 1.
  destruct (Promise_all _ st) as [r st1] eqn:Hall.
  apply Promise_all_delete in Hall as (Hsub & _ & _ & Hmiss).
  rewrite Hmiss by eauto. eauto.
Qed.

(** ** Entries are independent *)

(** The steps of a write that succeeds, with the entries that it evicts. *)
Lemma exports_write_steps path data cachePath maxsize now st st' :
  exports_write path data cachePath maxsize now st = (Ok tt, st') →
  ∃ d est m m' popped units st_e,
    serialize data enc_init = Ok (d, est) ∧
    readMetaFile cachePath st = (Ok m, st) ∧
    (∀ k, assoc k (meta_entries m') =
          if decide (k ∈ map entry_path popped) then None
          else assoc k (meta_entries m)) ∧
    Promise_all (map (λ entry, exports_delete (entry_path entry) None) popped) st
      = (Ok units, st_e) ∧
    st' =
      write_segments path (externalBuffers est)
        (<[metaFilePath cachePath :=
             FJson (metadata_to_json
               (with_entry path (dataString_length d + externalBuffersLength est)
                  now m'))]>
           (<[json_name path := FJson d]> st_e)).
Proof.
  intros Hw.
  apply exports_write_ok in Hw as (d & est & m & m' & st_e & Hser & _ & Hmeta & Hred & ->).
  destruct (maxsize <? meta_size m + (dataString_length d + externalBuffersLength est)).
  - apply reduceCacheSize_ok in Hred as (popped & units & Hev & Hall).
    apply evict_loop_ok_spec in Hev as (rest & Hspec).
    destruct Hspec as (_ & _ & _ & _ & _ & _ & _ & Hlookup).
    by exists d, est, m, m', popped, units, st_e.
  - destruct Hred as [-> ->]. by exists d, est, m, m, [], [], st.
Qed.

(** [read] of a state that holds the document and the segments of a value
    returns the value. *)
Lemma read_of_encoded path v (st : fs) :
  shape_free v = true →
  st !! json_name path = Some (FJson (spec_encode v 0).1) →
  (∀ i bs, (spec_encode v 0).2 !! i = Some bs →
           st !! bin_name path (Z.of_nat i) = Some (FBin bs)) →
  exports_read path st = (Ok v, st).
Proof.
  intros Hsf Hdoc Hsegs.
  destruct (internalize_spec_encode v 0 [] Hsf) as (r & Hint & Hres).
  cbn [length] in *.
  rewrite (exports_read_unfold path _ (spec_encode v 0).1 r
             (pending_of 0 (spec_encode v 0).2) Hdoc Hint).
  assert (mapM (fill_from st path) (pending_of 0 (spec_encode v 0).2) =
          Some (filled_of 0 (spec_encode v 0).2)) as ->.
  { apply mapM_Some. apply Forall2_same_length_lookup. split.
    { unfold pending_of, filled_of. by rewrite !length_imap. }
    intros i e e' He He'. unfold pending_of, filled_of in He, He'.
    rewrite list_lookup_imap in He, He'.
    destruct ((spec_encode v 0).2 !! i) as [bs|] eqn:Hi; [|done]. simplify_eq/=.
    unfold fill_from. cbn [eb_index eb_buffer].
    rewrite (Hsegs _ _ Hi).
    cbn [content_bytes eb_index eb_buffer]. rewrite length_replicate.
    rewrite firstn_all, drop_replicate, Nat.sub_diag. by rewrite app_nil_r. }
  do 2 f_equal. apply Hres. apply (agrees_filled [] 0).
Qed.

(** X15: an entry that the index still lists after a later write under
    another path reads back as it was written: a write disturbs another entry
    only by evicting it. *)
Theorem write_keeps_other_entry
    p q vq data cachePath maxsize now1 now2 st st1 st2 m2 :
  shape_free vq = true →
  p ≠ q →
  json_name q ≠ metaFilePath cachePath →
  exports_write q vq cachePath maxsize now1 st = (Ok tt, st1) →
  exports_write p data cachePath maxsize now2 st1 = (Ok tt, st2) →
  readMetaFile cachePath st2 = (Ok m2, st2) →
  is_Some (assoc q (meta_entries m2)) →
  exports_read q st2 = (Ok vq, st2).
Proof.
  intros Hsf Hpq Hqmeta Hw1 Hw2 Hmeta2 Hlisted.
  (* the files of [q] after the first write *)
  apply exports_write_ok in Hw1
    as (dq & estq & mq & mq' & st_q & Hserq & _ & _ & _ & ->).
  rewrite serialize_spec_encode in Hserq by by apply shape_free_array_buffers.
  injection Hserq as <- <-. cbn [length] in *.
  change (externalBuffers (push_segments enc_init (spec_encode vq 0).2))
    with (filled_of 0 (spec_encode vq 0).2) in *.
  match type of Hw2 with exports_write _ _ _ _ _ ?s = _ => set (st1 := s) in * end.
  assert (st1 !! json_name q = Some (FJson (spec_encode vq 0).1)) as Hdoc1.
  { unfold st1. rewrite segments_written_other.
    - rewrite lookup_insert_ne by done. apply lookup_insert_eq.
    - intros index Heq. symmetry in Heq. by apply bin_name_not_json in Heq. }
  assert (∀ i bs, (spec_encode vq 0).2 !! i = Some bs →
                  st1 !! bin_name q (Z.of_nat i) = Some (FBin bs)) as Hsegs1.
  { intros i bs Hi. unfold st1.
    apply (segments_written_lookup q (filled_of 0 (spec_encode vq 0).2)
             {| eb_index := Z.of_nat (0 + i); eb_buffer := bs |}).
    - apply NoDup_filled_of.
    - unfold filled_of. apply elem_of_lookup_imap. eauto. }
  (* the second write leaves them *)
  assert (∀ name, entry_file q name → st2 !! name = st1 !! name) as Hframe.
  { intros name Hname.
    destruct (exports_write_steps _ _ _ _ _ _ _ Hw2)
      as (d & est & m & m' & popped & units & st_e & Hser & _ & Hkeys & Hall & Hst2).
    pose proof (serialize_numbered data _ _ _ enc_init_numbered Hser) as [Hnum _].
    assert (q ∉ map entry_path popped) as Hkept.
    { intros Hin. destruct Hlisted as [x Hx].
      assert (readMetaFile cachePath st2 =
              (Ok (with_entry p (dataString_length d + externalBuffersLength est)
                     now2 m'), st2)) as Hidx.
      { apply readMetaFile_written. rewrite Hst2, segments_written_other.
        - apply lookup_insert_eq.
        - intros index Heq. symmetry in Heq. by apply bin_name_not_meta in Heq. }
      rewrite Hmeta2 in Hidx. injection Hidx as ->.
      cbn [with_entry meta_entries] in Hx.
      rewrite assoc_set_lookup, decide_False in Hx by done.
      rewrite Hkeys, decide_True in Hx by done. done. }
    apply Promise_all_delete in Hall as (_ & Hdel & _ & _).
    rewrite Hst2, segments_written_frame.
    - rewrite !lookup_insert_ne.
      + apply Hdel. intros e He Hfile. apply Hkept.
        rewrite (entry_file_path q (entry_path e) name Hname Hfile).
        change (map entry_path popped) with (entry_path <$> popped).
        by apply list_elem_of_fmap_2.
      + intros Heq. apply Hpq. apply (entry_file_path p q name); [|done].
        left. done.
      + intros Heq. by apply (entry_file_not_meta q cachePath name).
    - intros e He Heq. apply Hpq. apply (entry_file_path p q name); [|done].
      right. exists (eb_index e). split; [|done].
      by eapply segments_numbered_index. }
  apply read_of_encoded; [done|..].
  - rewrite Hframe; [done|]. by left.
  - intros i bs Hi. rewrite Hframe; [by apply Hsegs1|].
    right. exists (Z.of_nat i). split; [lia|done].
Qed.

(** ** The size invariant under writes to fresh paths *)

(** A write lists no path other than its own. *)
Lemma exports_write_unlisted path data cachePath maxsize now st st' m m1 k :
  readMetaFile cachePath st = (Ok m, st) →
  exports_write path data cachePath maxsize now st = (Ok tt, st') →
  readMetaFile cachePath st' = (Ok m1, st') →
  k ≠ path → assoc k (meta_entries m) = None → assoc k (meta_entries m1) = None.
Proof.
  intros Hmeta Hw Hmeta1 Hk Hnone.
  destruct (exports_write_steps _ _ _ _ _ _ _ Hw)
    as (d & est & m0 & m' & popped & units & st_e & Hser & Hmeta0 & Hkeys & Hall & Hst').
  rewrite Hmeta in Hmeta0. injection Hmeta0 as <-.
  assert (readMetaFile cachePath st' =
          (Ok (with_entry path (dataString_length d + externalBuffersLength est)
                 now m'), st')) as Hidx.
  { apply readMetaFile_written. rewrite Hst', segments_written_other.
    - apply lookup_insert_eq.
    - intros index Heq. symmetry in Heq. by apply bin_name_not_meta in Heq. }
  rewrite Hmeta1 in Hidx. injection Hidx as ->.
  cbn [with_entry meta_entries].
  rewrite assoc_set_lookup, decide_False by done.
  rewrite Hkeys, Hnone. by case_decide.
Qed.

(** X16: from an index that satisfies the invariant, lists no path twice and
    lists each entry under its own path, every sequence of writes that
    succeed, under paths that differ from one another and that the index
    does not list, leaves an index that satisfies the invariant: the recorded
    total is the sum of the sizes of the entries. *)
Theorem fresh_writes_keep_invariant cachePath maxsize ws : ∀ st st' m,
  readMetaFile cachePath st = (Ok m, st) →
  index_wf m → size_invariant m →
  NoDup (map (λ w : string * value * Z, w.1.1) ws) →
  (∀ w, w ∈ ws → assoc w.1.1 (meta_entries m) = None) →
  run_operations cachePath maxsize (writes ws) st = (Ok tt, st') →
  ∃ m', readMetaFile cachePath st' = (Ok m', st') ∧ index_wf m' ∧ size_invariant m'.
Proof.
  induction ws as [|[[p v] now] ws IH]; intros st st' m Hmeta Hwf Hinv Hnd Hfresh.
  { intros [= <-]. eauto. }
  cbn [writes map run_operations fst snd]. unfold bind at 1.
  destruct (exports_write p v cachePath maxsize now st) as [[[]|e] st1] eqn:Hw;
    [|done].
  intros Hrun. cbn [map fst snd] in Hnd. apply NoDup_cons in Hnd as [Hp Hnd].
  destruct (write_fresh_invariant p v cachePath maxsize now st st1 m Hmeta Hwf Hinv)
    as (m1 & Hmeta1 & Hwf1 & Hinv1); [|done|].
  { apply (Hfresh (p, v, now)). by left. }
  apply (IH st1 st' m1 Hmeta1 Hwf1 Hinv1 Hnd); [|exact Hrun].
  intros w Hin.
  apply (exports_write_unlisted p v cachePath maxsize now st st1 m m1); try done.
  - intros Heq. apply Hp. rewrite <- Heq.
    change (map (λ w : string * value * Z, w.1.1) ws) with
      ((λ w : string * value * Z, w.1.1) <$> ws).
    by apply (list_elem_of_fmap_2 (λ w : string * value * Z, w.1.1)).
  - apply Hfresh. by right.
Qed.

(** ** What [read] depends on *)

(** X17: what [read] returns depends on the document and on the segment
    files of the path only: it is the same in two states of the file system
    that agree on them. *)
Theorem read_depends_on_entry_files path (st1 st2 : fs) :
  st1 !! json_name path = st2 !! json_name path →
  (∀ index, st1 !! bin_name path index = st2 !! bin_name path index) →
  (exports_read path st1).1 = (exports_read path st2).1.
Proof.
  intros Hdoc Hsegs. rewrite !exports_read_cases. cbn [fst]. rewrite Hdoc.
  destruct (st2 !! json_name path) as [[d|bs]|]; [|done..].
  destruct (internalize d []) as [[r ext]|e]; [|done].
  assert (mapM (fill_from st1 path) ext = mapM (fill_from st2 path) ext) as ->; [|done].
  apply mapM_ext. intros e. unfold fill_from. by rewrite Hsegs.
Qed.

(** ** Writes into a consistent cache *)

(** The deletions that eviction starts all succeed when the entries have
    distinct paths and their documents exist. *)
Lemma Promise_all_delete_ok (popped : list Entry) : ∀ st : fs,
  NoDup (map entry_path popped) →
  (∀ e, e ∈ popped → is_Some (st !! json_name (entry_path e))) →
  ∃ units st',
    Promise_all (map (λ entry, exports_delete (entry_path entry) None) popped) st
      = (Ok units, st').
Proof.
  induction popped as [|e popped IH]; intros st Hnd Hdocs.
  { by exists [], st. }
  cbn [map] in Hnd. apply NoDup_cons in Hnd as [He Hnd].
  cbn [map Promise_all].
  destruct (exports_delete_None (entry_path e) st) as (st1 & -> & _ & Hframe & _).
  destruct (Hdocs e) as [c ->]; [by left|].
  destruct (IH st1 Hnd) as (units & st2 & ->).
  - intros e' He'. rewrite Hframe; [apply Hdocs; by right|].
    intros Hfile. apply He.
    rewrite (entry_file_path (entry_path e) (entry_path e')
               (json_name (entry_path e'))); [|done|by left].
    change (map entry_path popped) with (entry_path <$> popped).
    by apply list_elem_of_fmap_2.
  - cbn [rbind]. eauto.
Qed.

(** X18: in a cache whose index satisfies the invariant, lists no path twice
    and lists each entry under its own path, and in which every entry listed
    has its document, the write of a value whose encoding succeeds and fits
    [maxsize] succeeds, with or without eviction. *)
Theorem write_succeeds_in_consistent_cache
    path data cachePath maxsize now st d est m :
  serialize data enc_init = Ok (d, est) →
  dataString_length d + externalBuffersLength est ≤ maxsize →
  readMetaFile cachePath st = (Ok m, st) →
  index_wf m → size_invariant m →
  (∀ e, e ∈ Object_values (meta_entries m) →
        is_Some (st !! json_name (entry_path e))) →
  ∃ st', exports_write path data cachePath maxsize now st = (Ok tt, st').
Proof.
  intros Hser Hfit Hmeta Hwf Hinv Hdocs.
  destruct (decide (meta_size m + (dataString_length d + externalBuffersLength est)
                    ≤ maxsize)) as [Hroom|Hover].
  { eexists. by apply (exports_write_fits _ _ _ _ _ _ _ _ _ Hser Hfit Hmeta). }
  destruct (evict_loop_spec m
              (meta_size m + (dataString_length d + externalBuffersLength est) - maxsize))
    as (popped & rest & m' & Hev & Hspec).
  { exists (length (entriesByDate m)). rewrite firstn_all.
    unfold size_invariant in Hinv. unfold entriesByDate.
    rewrite (sum_sizes_perm _ _ (sort_by_created_perm _)). lia. }
  destruct Hspec as (Hperm & _ & Hsplit & _).
  destruct (Promise_all_delete_ok popped st) as (units & st_e & Hall).
  { apply index_wf_paths in Hwf. rewrite <- Hperm, Hsplit in Hwf.
    rewrite map_app in Hwf. by apply NoDup_app in Hwf as [? _]. }
  { intros e He. apply Hdocs. rewrite <- Hperm, Hsplit.
    apply elem_of_app. by left. }
  unfold exports_write, bind at 1, lift. rewrite Hser.
  apply Z.ltb_ge in Hfit. rewrite Hfit. unfold bind at 1, ret at 1.
  unfold bind at 1. rewrite Hmeta.
  assert ((maxsize <? meta_size m + (dataString_length d + externalBuffersLength est))
          = true) as -> by (apply Z.ltb_lt; lia).
  unfold bind at 1. rewrite (reduceCacheSize_unfold _ _ _ _ _ Hev).
  unfold bind at 1. rewrite Hall. unfold ret at 1.
  unfold bind at 1, fs_writeFile at 1. unfold bind at 1, writeMetaFile, fs_writeFile at 1.
  unfold bind. rewrite Promise_all_writeFile. eauto.
Qed.

(** ** The recorded total after an overwrite and after a delete *)

(** X19: a write, without eviction, under a path that the index lists
    replaces the entry and adds the size of the new value to the recorded
    total without taking off the size of the entry replaced: from an index
    that satisfies the invariant, the total then exceeds the sum of the sizes
    of the entries by the size of the entry replaced. *)
Theorem overwrite_inflates_total path data cachePath maxsize now st d est m old :
  serialize data enc_init = Ok (d, est) →
  dataString_length d + externalBuffersLength est ≤ maxsize →
  readMetaFile cachePath st = (Ok m, st) →
  meta_size m + (dataString_length d + externalBuffersLength est) ≤ maxsize →
  NoDup (map fst (meta_entries m)) →
  size_invariant m →
  assoc path (meta_entries m) = Some old →
  ∃ st' m',
    exports_write path data cachePath maxsize now st = (Ok tt, st') ∧
    readMetaFile cachePath st' = (Ok m', st') ∧
    map fst (meta_entries m') = map fst (meta_entries m) ∧
    meta_size m' = sum_sizes (Object_values (meta_entries m')) + entry_size old.
Proof.
  intros Hser Hfit Hmeta Hroom Hnd Hinv Hold.
  eexists _, _. split; [|split; [|split]].
  - by apply (exports_write_fits _ _ _ _ _ _ _ _ _ Hser Hfit Hmeta).
  - apply readMetaFile_written. rewrite segments_written_other.
    + apply lookup_insert_eq.
    + intros index Heq. symmetry in Heq. by apply bin_name_not_meta in Heq.
  - cbn [with_entry meta_entries]. clear Hnd Hinv.
    induction (meta_entries m) as [|[k x] es IH]; simpl in *; [done|].
    case_bool_decide; simpl; [by subst k|]. by rewrite IH.
  - by apply with_entry_replaced.
Qed.


(** ** Eviction on write (claim C3) *)

Lemma assoc_Some_elem {A : Type} k (x : A) (kvs : list (string * A)) :
  assoc k kvs = Some x → (k, x) ∈ kvs.
Proof.
  induction kvs as [|[k' y] kvs IH]; simpl; [done|].
  case_bool_decide.
  - intros [= ->]. subst k'. by left.
  - intros Hx. right. by apply IH.
Qed.

Lemma assoc_elem_NoDup {A : Type} k (x : A) (kvs : list (string * A)) :
  NoDup (map fst kvs) → (k, x) ∈ kvs → assoc k kvs = Some x.
Proof.
  induction kvs as [|[k' y] kvs IH]; simpl; [by intros _ ?%elem_of_nil|].
  intros [Hk' Hnd]%NoDup_cons [[= -> ->]|Hin]%elem_of_cons.
  - by rewrite bool_decide_eq_true_2.
  - case_bool_decide as Heq; [|by apply IH].
    exfalso. apply Hk'. subst k'.
    change (map fst kvs) with (fst <$> kvs).
    by apply (list_elem_of_fmap_2 fst kvs (k, x)).
Qed.

Lemma index_wf_key m k e :
  index_wf m → assoc k (meta_entries m) = Some e → entry_path e = k.
Proof.
  intros [_ Hkeys] Hk%assoc_Some_elem.
  rewrite Forall_forall in Hkeys. by apply (Hkeys (k, e)).
Qed.

Lemma index_wf_values m :
  index_wf m → NoDup (Object_values (meta_entries m)).
Proof.
  intros Hwf%index_wf_paths.
  change (map entry_path ?l) with (entry_path <$> l) in Hwf.
  by apply NoDup_fmap_1 in Hwf.
Qed.

Lemma Object_values_elem (es : list (string * Entry)) e :
  NoDup (map fst es) →
  e ∈ Object_values es ↔ ∃ k, assoc k es = Some e.
Proof.
  intros Hnd. unfold Object_values. change (map snd es) with (snd <$> es). split.
  - intros ([k x] & -> & Hin)%list_elem_of_fmap. exists k. by apply assoc_elem_NoDup.
  - intros [k Hk%assoc_Some_elem]. by apply (list_elem_of_fmap_2 snd es (k, e)).
Qed.

(** The loop of eviction keeps the index well formed. *)
Lemma evict_loop_wf l : ∀ sd btr acc m popped m',
  index_wf m → evict_loop l sd btr acc m = Ok (popped, m') → index_wf m'.
Proof.
  induction l as [|e l IH]; intros sd btr acc m popped m' Hwf; simpl.
  - destruct (sd <? btr); [done|]. by intros [= <- <-].
  - destruct (sd <? btr); [|by intros [= <- <-]].
    apply IH. by apply index_wf_assoc_delete.
Qed.

(** The entries map after eviction, entry by entry. *)
Lemma evict_loop_entries m bytesToReduce popped m' :
  index_wf m →
  evict_loop (entriesByDate m) 0 bytesToReduce [] m = Ok (popped, m') →
  ∃ rest, evicts_oldest_first m bytesToReduce popped rest m'.
Proof.
  intros Hwf Hev.
  pose proof (evict_loop_wf _ _ _ _ _ _ _ Hwf Hev) as Hwf'.
  destruct (evict_loop_ok_spec _ _ _ _ Hev) as (rest & Hspec).
  destruct Hspec as (Hperm & Hsorted & Hsplit & Holder & Hge & Hmin & Hsize & Hlookup).
  assert (∀ e, e ∈ popped → assoc (entry_path e) (meta_entries m) = Some e) as Hlisted.
  { intros e He. apply index_wf_lookup; [done|].
    rewrite <- Hperm, Hsplit. apply elem_of_app. by left. }
  assert (∀ k e, assoc k (meta_entries m') = Some e ↔
                 assoc k (meta_entries m) = Some e ∧ e ∉ popped) as Hentries.
  { intros k e. rewrite Hlookup. case_decide as Hk.
    - split; [done|]. intros [Hke Hne]. exfalso. apply Hne.
      change (map entry_path popped) with (entry_path <$> popped) in Hk.
      apply list_elem_of_fmap in Hk as (e2 & -> & He2).
      rewrite (Hlisted e2 He2) in Hke. by injection Hke as <-.
    - split; [|by intros [? _]]. intros Hke. split; [done|]. intros He. apply Hk.
      rewrite <- (index_wf_key m k e Hwf Hke).
      change (map entry_path popped) with (entry_path <$> popped).
      by apply list_elem_of_fmap_2. }
  exists rest. unfold evicts_oldest_first. split_and!; try done.
  pose proof (index_wf_values m Hwf) as Hnd.
  rewrite <- Hperm, Hsplit in Hnd. apply NoDup_app in Hnd as (Hndp & Hdisj & Hndr).
  apply NoDup_Permutation; [by apply index_wf_values|done|].
  intros e. rewrite (Object_values_elem _ e (proj1 Hwf')). split.
  - intros [k [Hke Hne]%Hentries].
    assert (e ∈ popped ++ rest) as [?|?]%elem_of_app; [|done..].
    rewrite <- Hsplit, Hperm. apply (Object_values_elem _ e (proj1 Hwf)). eauto.
  - intros He.
    assert (e ∈ Object_values (meta_entries m)) as Hin.
    { rewrite <- Hperm, Hsplit. apply elem_of_app. by right. }
    apply (Object_values_elem _ e (proj1 Hwf)) in Hin as [k Hk].
    exists k. apply Hentries. split; [done|]. intros Hp. by apply (Hdisj e).
Qed.

(** Recording an entry keeps the index well formed. *)
Lemma with_entry_wf path size now m :
  index_wf m → index_wf (with_entry path size now m).
Proof.
  intros [Hnd Hkeys]. unfold with_entry, index_wf. cbn [meta_entries].
  induction (meta_entries m) as [|[k x] es IH]; simpl.
  { split; [apply NoDup_singleton|by repeat constructor]. }
  apply NoDup_cons in Hnd as [Hk Hnd]. apply Forall_cons in Hkeys as [Hx Hkeys].
  destruct (IH Hnd Hkeys) as [IHnd IHkeys].
  case_bool_decide as Heq; simpl.
  - subst k. split; [by apply NoDup_cons|]. by constructor.
  - split; [|by constructor]. apply NoDup_cons. split; [|done].
    intros Hin. apply Hk. clear -Hin Heq.
    induction es as [|[k' y] es IH]; simpl in *.
    + apply list_elem_of_singleton in Hin. congruence.
    + case_bool_decide; simpl in *.
      * apply elem_of_cons in Hin as [->|Hin]; [done|]. by right.
      * apply elem_of_cons in Hin as [->|Hin]; [by left|]. right. by apply IH.
Qed.

(** C3: a write of a value that fits [maxsize], into a cache whose index
    [m] lists each entry once, under its own path, and whose recorded total
    plus the size of the new entry exceeds [maxsize], runs eviction with
    [bytesToReduce = m.size + totalSize - maxsize]. When the sizes of the
    entries reach that target, eviction takes the entries in ascending order
    of creation time, one after the other, until the sizes taken add up to
    the target and no longer; it removes each entry taken from the entries
    map and subtracts its size from the recorded total; the entries not
    taken stay in the map, under their keys, as they were. The documents of
    the entries taken are then deleted: when they exist, the write succeeds;
    the index it leaves on disk is the reduced index with the new entry, and
    is again well formed; the documents of the entries taken are gone, and
    those of the entries not taken are as they were. *)
Theorem eviction_on_write path data cachePath maxsize now st d est m :
  serialize data enc_init = Ok (d, est) →
  dataString_length d + externalBuffersLength est ≤ maxsize →
  readMetaFile cachePath st = (Ok m, st) →
  index_wf m →
  maxsize < meta_size m + (dataString_length d + externalBuffersLength est) →
  (∃ k, meta_size m + (dataString_length d + externalBuffersLength est) - maxsize
        ≤ sum_sizes (take k (entriesByDate m))) →
  ∃ popped rest m',
    evict_loop (entriesByDate m) 0
      (meta_size m + (dataString_length d + externalBuffersLength est) - maxsize)
      [] m = Ok (popped, m') ∧
    evicts_oldest_first m
      (meta_size m + (dataString_length d + externalBuffersLength est) - maxsize)
      popped rest m' ∧
    reduceCacheSize m
      (meta_size m + (dataString_length d + externalBuffersLength est) - maxsize) st =
      (Promise_all (map (λ entry, exports_delete (entry_path entry) None) popped) ;;
       ret m') st ∧
    ((∀ e, e ∈ popped → is_Some (st !! json_name (entry_path e))) →
     ∃ st',
       exports_write path data cachePath maxsize now st = (Ok tt, st') ∧
       readMetaFile cachePath st' =
         (Ok (with_entry path (dataString_length d + externalBuffersLength est) now m'),
          st') ∧
       index_wf
         (with_entry path (dataString_length d + externalBuffersLength est) now m') ∧
       (∀ e, e ∈ popped → entry_path e ≠ path →
             json_name (entry_path e) ≠ metaFilePath cachePath →
             st' !! json_name (entry_path e) = None) ∧
       (∀ e, e ∈ rest → entry_path e ≠ path →
             json_name (entry_path e) ≠ metaFilePath cachePath →
             st' !! json_name (entry_path e) = st !! json_name (entry_path e))).
Proof.
  intros Hser Hfit Hmeta Hwf Hover Henough.
  destruct (evict_loop_spec _ _ Henough) as (popped & rest0 & m' & Hev & _).
  destruct (evict_loop_entries _ _ _ _ Hwf Hev) as (rest & Hspec).
  exists popped, rest, m'.
  split; [done|]. split; [done|]. split; [by apply reduceCacheSize_unfold|].
  intros Hdocs.
  destruct Hspec as (Hperm & _ & Hsplit & _).
  pose proof (index_wf_paths m Hwf) as Hpaths.
  rewrite <- Hperm, Hsplit, map_app in Hpaths.
  apply NoDup_app in Hpaths as (Hndp & Hdisj & _).
  destruct (Promise_all_delete_ok popped st Hndp Hdocs) as (units & st_e & Hall).
  eexists. split; [|split; [|split; [|split]]].
  - unfold exports_write, bind at 1, lift. rewrite Hser.
    apply Z.ltb_ge in Hfit. rewrite Hfit. unfold bind at 1, ret at 1.
    unfold bind at 1. rewrite Hmeta.
    apply Z.ltb_lt in Hover. rewrite Hover.
    unfold bind at 1. rewrite (reduceCacheSize_unfold _ _ _ _ _ Hev).
    unfold bind at 1. rewrite Hall. unfold ret at 1.
    unfold bind at 1, fs_writeFile at 1.
    unfold bind at 1, writeMetaFile, fs_writeFile at 1.
    unfold bind. rewrite Promise_all_writeFile. reflexivity.
  - apply readMetaFile_written. rewrite segments_written_other.
    + apply lookup_insert_eq.
    + intros index Heq. symmetry in Heq. by apply bin_name_not_meta in Heq.
  - apply with_entry_wf. by eapply evict_loop_wf.
  - intros e He Hpath Hnm.
    apply Promise_all_delete in Hall as (_ & _ & Hgone & _).
    rewrite segments_written_other.
    + rewrite !lookup_insert_ne; [by apply Hgone|..].
      * intros Heq. by apply json_name_inj in Heq.
      * done.
    + intros index Heq. symmetry in Heq. by apply bin_name_not_json in Heq.
  - intros e He Hpath Hnm.
    apply Promise_all_delete in Hall as (_ & Hframe & _ & _).
    rewrite segments_written_other.
    + rewrite !lookup_insert_ne.
      * apply Hframe. intros e' He' Hfile. apply (Hdisj (entry_path e)).
        -- rewrite <- (entry_file_path (entry_path e') (entry_path e)
                         (json_name (entry_path e)) Hfile); [|by left].
           change (map entry_path popped) with (entry_path <$> popped).
           by apply list_elem_of_fmap_2.
        -- change (map entry_path rest) with (entry_path <$> rest).
           by apply list_elem_of_fmap_2.
      * intros Heq. by apply json_name_inj in Heq.
      * done.
    + intros index Heq. symmetry in Heq. by apply bin_name_not_json in Heq.
Qed.

(** ** Detection by shape, from [write] to [read] (claim C10) *)



















End Store.

(** * Concrete runs *)

Lemma eviction_on_write_witness :
  serialize (H := basic_platform) (JString "nnnn") enc_init =
    Ok (JString "nnnn", enc_init) ∧
  dataString_length (JString "nnnn") + externalBuffersLength enc_init ≤ 14 ∧
  readMetaFile "c" cache_three = (Ok index_three, cache_three) ∧
  index_wf index_three ∧
  14 < meta_size index_three +
       (dataString_length (JString "nnnn") + externalBuffersLength enc_init) ∧
  (∃ k, meta_size index_three +
        (dataString_length (JString "nnnn") + externalBuffersLength enc_init) - 14
        ≤ sum_sizes (take k (entriesByDate index_three))) ∧
  entriesByDate index_three = [entry_a; entry_d; entry_b] ∧
  evict_loop (entriesByDate index_three) 0 10 [] index_three =
    Ok ([entry_a; entry_d], {| meta_size := 6; meta_entries := [("c/b", entry_b)] |}) ∧
  evicts_oldest_first index_three 10 [entry_a; entry_d] [entry_b]
    {| meta_size := 6; meta_entries := [("c/b", entry_b)] |} ∧
  (∀ e, e ∈ [entry_a; entry_d] → is_Some (cache_three !! json_name (entry_path e))) ∧
  ∃ st',
    exports_write (H := basic_platform) "c/n" (JString "nnnn") "c" 14 400 cache_three
      = (Ok tt, st') ∧
    readMetaFile "c" st' =
      (Ok {| meta_size := 12;
             meta_entries :=
               [("c/b", entry_b);
                ("c/n", {| entry_path := "c/n"; entry_size := 6;
                           entry_created := 400 |})] |}, st') ∧
    st' !! "c/a.json" = None ∧
    st' !! "c/d.json" = None ∧
    st' !! "c/b.json" = Some (FJson (JString "bbbb")).
Proof.
  assert (serialize (H := basic_platform) (JString "nnnn") enc_init =
          Ok (JString "nnnn", enc_init)) as H1 by reflexivity.
  assert (dataString_length (JString "nnnn") + externalBuffersLength enc_init ≤ 14)
    as H2 by (vm_compute; discriminate).
  assert (readMetaFile "c" cache_three = (Ok index_three, cache_three)) as H3
    by (vm_compute; reflexivity).
  assert (index_wf index_three) as H4.
  { split; [apply (bool_decide_unpack _); vm_compute; exact I|by repeat constructor]. }
  assert (14 < meta_size index_three +
               (dataString_length (JString "nnnn") + externalBuffersLength enc_init))
    as H5 by (vm_compute; reflexivity).
  assert (∃ k, meta_size index_three +
               (dataString_length (JString "nnnn") + externalBuffersLength enc_init) - 14
               ≤ sum_sizes (take k (entriesByDate index_three))) as H6
    by (exists 2%nat; vm_compute; discriminate).
  assert (entriesByDate index_three = [entry_a; entry_d; entry_b]) as H7
    by (vm_compute; reflexivity).
  assert (evict_loop (entriesByDate index_three) 0 10 [] index_three =
          Ok ([entry_a; entry_d],
              {| meta_size := 6; meta_entries := [("c/b", entry_b)] |})) as H8
    by (vm_compute; reflexivity).
  assert (∀ e, e ∈ [entry_a; entry_d] →
               is_Some (cache_three !! json_name (entry_path e))) as H9.
  { intros e [->|[->|[]%elem_of_nil]%elem_of_cons]%elem_of_cons;
      vm_compute; by eexists. }
  destruct (eviction_on_write (H := basic_platform) "c/n" (JString "nnnn") "c" 14 400
              cache_three (JString "nnnn") enc_init index_three H1 H2 H3 H4 H5 H6)
    as (popped & rest & m' & Hev & Hspec & _ & Hwrite).
  change (meta_size index_three +
          (dataString_length (JString "nnnn") + externalBuffersLength enc_init) - 14)
    with 10 in Hev, Hspec.
  rewrite H8 in Hev. injection Hev as <- <-.
  assert (rest = [entry_b]) as ->.
  { destruct Hspec as (_ & _ & Hsplit & _). rewrite H7 in Hsplit.
    by injection Hsplit as <-. }
  destruct (Hwrite H9) as (st' & Hw & Hidx & _ & Hgone & Hkept).
  split; [exact H1|]. split; [exact H2|]. split; [exact H3|]. split; [exact H4|].
  split; [exact H5|]. split; [exact H6|]. split; [exact H7|]. split; [exact H8|].
  split; [exact Hspec|]. split; [exact H9|].
  exists st'. split; [exact Hw|]. split; [exact Hidx|].
  split; [|split].
  - apply (Hgone entry_a); [by left|discriminate|].
    apply (bool_decide_unpack _). vm_compute. exact I.
  - apply (Hgone entry_d); [by right; left|discriminate|].
    apply (bool_decide_unpack _). vm_compute. exact I.
  - change (st' !! json_name (entry_path entry_b) = Some (FJson (JString "bbbb"))).
    rewrite (Hkept entry_b); [vm_compute; reflexivity|by left|discriminate|].
    apply (bool_decide_unpack _). vm_compute. exact I.
Defined.

(** The run of that write: [c/a] is evicted, its document is deleted, and
    the index lists [c/b] alone. *)
Lemma eviction_run :
  ∃ st',
    exports_write (H := basic_platform) "c/b" (JString "bbbb") "c" 10 200 cache_a
      = (Ok tt, st') ∧
    st' !! json_name "c/a" = None ∧
    st' !! json_name "c/b" = Some (FJson (JString "bbbb")) ∧
    readMetaFile "c" st' =
      (Ok {| meta_size := 6;
             meta_entries :=
               [("c/b", {| entry_path := "c/b"; entry_size := 6;
                           entry_created := 200 |})] |}, st').
Proof.
  eexists. split; [vm_compute; reflexivity|].
  split; [vm_compute; reflexivity|]. split; vm_compute; reflexivity.
Qed.

Lemma delete_missing_entry_witness :
  (∅ : fs) !! json_name "c/a" = None ∧
  exports_delete "c/a" (Some "c") ∅ = (Err ENOENT, ∅).
Proof.
  split; [reflexivity|]. apply (delete_missing_entry "c/a" (Some "c") ∅). reflexivity.
Defined.

Lemma eviction_underflow_faults_witness :
  (∀ k, sum_sizes (take k (entriesByDate index_short)) < 20) ∧
  evict_loop (entriesByDate index_short) 0 20 [] index_short = Err TypeError ∧
  reduceCacheSize index_short 20 cache_a = (Err TypeError, cache_a).
Proof.
  assert (∀ k, sum_sizes (take k (entriesByDate index_short)) < 20) as H1
    by (intros [|[|k]]; vm_compute; reflexivity).
  split; [exact H1|].
  exact (eviction_underflow_faults index_short 20 cache_a H1).
Defined.

(** C1, at two sequences of operations on the empty cache [c] with
    [maxsize = 100]. Writing the path [c/a] twice leaves an index whose
    recorded total is 12 while its one entry has size 6; writing [c/a] and
    deleting it with [cachePath] leaves an index whose recorded total is 0
    while the entry, of size 6, is still listed. Both sequences succeed, and
    neither index satisfies the invariant. *)
Theorem size_invariant_broken :
  (∃ st m,
     run_operations (H := basic_platform) "c" 100
       [OpWrite "c/a" (JString "aaaa") 100; OpWrite "c/a" (JString "aaaa") 200] ∅
       = (Ok tt, st) ∧
     readMetaFile "c" st = (Ok m, st) ∧
     meta_size m = 12 ∧ sum_sizes (Object_values (meta_entries m)) = 6 ∧
     ¬ size_invariant m) ∧
  (∃ st m,
     run_operations (H := basic_platform) "c" 100
       [OpWrite "c/a" (JString "aaaa") 100; OpDelete "c/a" (Some "c")] ∅
       = (Ok tt, st) ∧
     readMetaFile "c" st = (Ok m, st) ∧
     meta_size m = 0 ∧ sum_sizes (Object_values (meta_entries m)) = 6 ∧
     ¬ size_invariant m).
Proof.
  split.
  - eexists _, _. split; [vm_compute; reflexivity|].
    split; [vm_compute; reflexivity|].
    split; [reflexivity|]. split; [reflexivity|]. discriminate.
  - eexists _, _. split; [vm_compute; reflexivity|].
    split; [vm_compute; reflexivity|].
    split; [reflexivity|]. split; [reflexivity|]. discriminate.
Qed.

(** C2, at the cache [cache_a], whose index lists [c/a] with size 6:
    [delete] of [c/a] with [cachePath] succeeds and removes the files, and
    the index it writes has recorded total 0 but still lists [c/a]. *)
Theorem delete_keeps_entry :
  ∃ st m,
    exports_delete "c/a" (Some "c") cache_a = (Ok tt, st) ∧
    st !! json_name "c/a" = None ∧
    readMetaFile "c" st = (Ok m, st) ∧
    meta_size m = 0 ∧
    assoc "c/a" (meta_entries m) =
      Some {| entry_path := "c/a"; entry_size := 6; entry_created := 100 |}.
Proof.
  eexists _, _. split; [vm_compute; reflexivity|].
  split; [vm_compute; reflexivity|].
  split; [vm_compute; reflexivity|].
  split; reflexivity.
Qed.

Lemma encode_extracts_large_buffers_witness :
  array_buffers three_buffers = true ∧
  spec_encode (H := basic_platform) three_buffers 0 =
    (JArray [buffer_json (replicate 1023 x00); placeholder 0 1024; placeholder 1 1024],
     [replicate 1024 x01; replicate 1024 x07]) ∧
  serialize (H := basic_platform) three_buffers enc_init =
    Ok ((spec_encode (H := basic_platform) three_buffers 0).1,
        push_segments enc_init (spec_encode (H := basic_platform) three_buffers 0).2) ∧
  Forall (λ bs, 1024 ≤ Z.of_nat (length bs))
    (spec_encode (H := basic_platform) three_buffers 0).2.
Proof.
  split; [vm_compute; reflexivity|]. split; [vm_compute; reflexivity|].
  apply (encode_extracts_large_buffers (H := basic_platform) three_buffers enc_init).
  vm_compute. reflexivity.
Defined.

Lemma read_after_write_witness :
  shape_free nested_value = true ∧
  json_name "c/k" ≠ metaFilePath "c" ∧
  exports_write (H := basic_platform) "c/k" nested_value "c" 5000 100 ∅ =
    (Ok tt, (exports_write (H := basic_platform) "c/k" nested_value "c" 5000 100 ∅).2) ∧
  exports_read (H := basic_platform) "c/k"
    (exports_write (H := basic_platform) "c/k" nested_value "c" 5000 100 ∅).2 =
    (Ok nested_value,
     (exports_write (H := basic_platform) "c/k" nested_value "c" 5000 100 ∅).2).
Proof.
  assert (shape_free nested_value = true) as H1 by (vm_compute; reflexivity).
  assert (json_name "c/k" ≠ metaFilePath "c") as H2
    by (apply (bool_decide_unpack _); vm_compute; exact I).
  assert (exports_write (H := basic_platform) "c/k" nested_value "c" 5000 100 ∅ =
          (Ok tt, (exports_write (H := basic_platform) "c/k" nested_value "c" 5000 100 ∅).2))
    as H3 by (vm_compute; reflexivity).
  split; [exact H1|]. split; [exact H2|]. split; [exact H3|].
  exact (read_after_write (H := basic_platform) "c/k" nested_value "c" 5000 100 ∅ _
           H1 H2 H3).
Defined.

(** The round trip fails on both: the first is written with success and read
    back as a buffer; the second is written with success and cannot be read,
    for want of a segment file. *)
Lemma read_after_write_counterexample :
  (exports_write (H := basic_platform) "c/k" buffer_object "c" 5000 100 ∅).1 = Ok tt ∧
  (exports_read (H := basic_platform) "c/k"
     (exports_write (H := basic_platform) "c/k" buffer_object "c" 5000 100 ∅).2).1
    = Ok (JBuffer [x01; x02]) ∧
  JBuffer [x01; x02] ≠ buffer_object ∧
  (exports_write (H := basic_platform) "c/k" placeholder_object "c" 5000 100 ∅).1 = Ok tt ∧
  (exports_read (H := basic_platform) "c/k"
     (exports_write (H := basic_platform) "c/k" placeholder_object "c" 5000 100 ∅).2).1
    = Err ENOENT.
Proof.
  split; [vm_compute; reflexivity|]. split; [vm_compute; reflexivity|].
  split; [discriminate|]. split; vm_compute; reflexivity.
Qed.

(** The segment file is shorter than the placeholder declares, and [read]
    succeeds with a buffer padded with zeros. *)
Lemma read_segment_files_counterexample :
  truncated_entry !! json_name "p" = Some (FJson (placeholder 0 4)) ∧
  truncated_entry !! bin_name "p" 0 = Some (FBin [x01; x02]) ∧
  exports_read (H := basic_platform) "p" truncated_entry =
    (Ok (JBuffer [x01; x02; x00; x00]), truncated_entry).
Proof. repeat split; vm_compute; reflexivity. Qed.

Lemma read_segment_files_witness :
  truncated_entry !! json_name "p" = Some (FJson (placeholder 0 4)) ∧
  internalize (H := basic_platform) (placeholder 0 4) [] =
    Ok (JBuffer (Pending 0), [{| eb_index := 0; eb_buffer := replicate 4 x00 |}]) ∧
  exports_read (H := basic_platform) "p" truncated_entry =
    (Ok (JBuffer [x01; x02; x00; x00]), truncated_entry) ∧
  exports_read (H := basic_platform) "p" (delete "p-0.bin" truncated_entry) =
    (Err ENOENT, delete "p-0.bin" truncated_entry).
Proof.
  assert (internalize (H := basic_platform) (placeholder 0 4) [] =
          Ok (JBuffer (Pending 0), [{| eb_index := 0; eb_buffer := replicate 4 x00 |}]))
    as H2 by (vm_compute; reflexivity).
  split; [vm_compute; reflexivity|]. split; [exact H2|]. split.
  - destruct (read_segment_files (H := basic_platform) "p" truncated_entry
                (placeholder 0 4) (JBuffer (Pending 0))
                [{| eb_index := 0; eb_buffer := replicate 4 x00 |}])
      as [_ Hpresent]; [vm_compute; reflexivity|exact H2|].
    rewrite (Hpresent [FBin [x01; x02]]); [reflexivity|].
    repeat constructor.
  - destruct (read_segment_files (H := basic_platform) "p"
                (delete "p-0.bin" truncated_entry)
                (placeholder 0 4) (JBuffer (Pending 0))
                [{| eb_index := 0; eb_buffer := replicate 4 x00 |}])
      as [Hmissing _]; [vm_compute; reflexivity|exact H2|].
    apply Hmissing. eexists. split; [apply list_elem_of_here|]. vm_compute. reflexivity.
Defined.


(** ** Further runs *)

Lemma oversize_value_rejected_witness :
  JString "bbbb" ≠ (JNull : value) ∧
  serialize (H := basic_platform) (JString "bbbb") enc_init =
    Ok (JString "bbbb", enc_init) ∧
  5 < dataString_length (JString "bbbb") + externalBuffersLength enc_init ∧
  exports_write (H := basic_platform) "c/b" (JString "bbbb") "c" 5 200 cache_a =
    (Err (EntryTooLarge 6 5), cache_a).
Proof.
  assert (JString "bbbb" ≠ (JNull : value)) as H1 by discriminate.
  assert (serialize (H := basic_platform) (JString "bbbb") enc_init =
          Ok (JString "bbbb", enc_init)) as H2 by reflexivity.
  assert (5 < dataString_length (JString "bbbb") + externalBuffersLength enc_init)
    as H3 by (vm_compute; reflexivity).
  split; [exact H1|]. split; [exact H2|]. split; [exact H3|].
  exact (oversize_value_rejected (H := basic_platform) "c/b" (JString "bbbb") "c" 5 200
           cache_a (JString "bbbb") enc_init H1 H2 H3).
Defined.

Lemma first_write_creates_index_witness :
  (∅ : fs) !! metaFilePath "c" = None ∧
  serialize (H := basic_platform) (JString "aaaa") enc_init =
    Ok (JString "aaaa", enc_init) ∧
  dataString_length (JString "aaaa") + externalBuffersLength enc_init ≤ 10 ∧
  ∃ st',
    exports_write (H := basic_platform) "c/a" (JString "aaaa") "c" 10 100 ∅
      = (Ok tt, st') ∧
    readMetaFile "c" st' =
      (Ok {| meta_size := dataString_length (JString "aaaa") +
                          externalBuffersLength enc_init;
             meta_entries :=
               [("c/a", {| entry_path := "c/a";
                           entry_size := dataString_length (JString "aaaa") +
                                         externalBuffersLength enc_init;
                           entry_created := 100 |})] |}, st').
Proof.
  assert ((∅ : fs) !! metaFilePath "c" = None) as H1 by reflexivity.
  assert (serialize (H := basic_platform) (JString "aaaa") enc_init =
          Ok (JString "aaaa", enc_init)) as H2 by reflexivity.
  assert (dataString_length (JString "aaaa") + externalBuffersLength enc_init ≤ 10)
    as H3 by (vm_compute; discriminate).
  split; [exact H1|]. split; [exact H2|]. split; [exact H3|].
  exact (first_write_creates_index (H := basic_platform) "c/a" (JString "aaaa") "c" 10
           100 ∅ (JString "aaaa") enc_init H1 H2 H3).
Defined.

Lemma write_rejects_corrupt_index_witness :
  corrupt_cache !! metaFilePath "c" = Some (FBin [x00]) ∧
  serialize (H := basic_platform) (JString "aaaa") enc_init =
    Ok (JString "aaaa", enc_init) ∧
  dataString_length (JString "aaaa") + externalBuffersLength enc_init ≤ 10 ∧
  exports_write (H := basic_platform) "c/a" (JString "aaaa") "c" 10 100 corrupt_cache
    = (Err MetaNotJson, corrupt_cache).
Proof.
  assert (corrupt_cache !! metaFilePath "c" = Some (FBin [x00])) as H1
    by (vm_compute; reflexivity).
  assert (serialize (H := basic_platform) (JString "aaaa") enc_init =
          Ok (JString "aaaa", enc_init)) as H2 by reflexivity.
  assert (dataString_length (JString "aaaa") + externalBuffersLength enc_init ≤ 10)
    as H3 by (vm_compute; discriminate).
  split; [exact H1|]. split; [exact H2|]. split; [exact H3|].
  exact (write_rejects_corrupt_index (H := basic_platform) "c/a" (JString "aaaa") "c" 10
           100 corrupt_cache (JString "aaaa") enc_init [x00] H1 H2 H3).
Defined.

Lemma written_total_within_maxsize_witness :
  exports_write (H := basic_platform) "c/b" (JString "bbbb") "c" 10 200 cache_a =
    (Ok tt,
     (exports_write (H := basic_platform) "c/b" (JString "bbbb") "c" 10 200 cache_a).2) ∧
  ∃ d est m',
    serialize (H := basic_platform) (JString "bbbb") enc_init = Ok (d, est) ∧
    readMetaFile "c"
      (exports_write (H := basic_platform) "c/b" (JString "bbbb") "c" 10 200 cache_a).2 =
      (Ok m',
       (exports_write (H := basic_platform) "c/b" (JString "bbbb") "c" 10 200 cache_a).2) ∧
    meta_size m' ≤ 10 ∧
    assoc "c/b" (meta_entries m') =
      Some {| entry_path := "c/b";
              entry_size := dataString_length d + externalBuffersLength est;
              entry_created := 200 |}.
Proof.
  assert (exports_write (H := basic_platform) "c/b" (JString "bbbb") "c" 10 200 cache_a =
          (Ok tt,
           (exports_write (H := basic_platform) "c/b" (JString "bbbb") "c" 10 200
              cache_a).2)) as H1 by (vm_compute; reflexivity).
  split; [exact H1|].
  exact (written_total_within_maxsize (H := basic_platform) "c/b" (JString "bbbb") "c"
           10 200 cache_a _ H1).
Defined.

Lemma delete_stops_at_gap_witness :
  0 ≤ 1 ∧
  gapped_entry !! json_name "p" = Some (FJson JNull) ∧
  (∀ j, 0 ≤ j < 1 → is_Some (gapped_entry !! bin_name "p" j)) ∧
  gapped_entry !! bin_name "p" 1 = None ∧
  ∃ st',
    exports_delete "p" None gapped_entry = (Ok tt, st') ∧
    st' !! json_name "p" = None ∧
    (∀ j, 0 ≤ j < 1 → st' !! bin_name "p" j = None) ∧
    (∀ name, name ≠ json_name "p" →
       (∀ j, 0 ≤ j < 1 → name ≠ bin_name "p" j) →
       st' !! name = gapped_entry !! name).
Proof.
  assert (0 ≤ 1) as H1 by lia.
  assert (gapped_entry !! json_name "p" = Some (FJson JNull)) as H2
    by (vm_compute; reflexivity).
  assert (∀ j, 0 ≤ j < 1 → is_Some (gapped_entry !! bin_name "p" j)) as H3.
  { intros j Hj. assert (j = 0) as -> by lia. vm_compute. by eexists. }
  assert (gapped_entry !! bin_name "p" 1 = None) as H4 by (vm_compute; reflexivity).
  split; [exact H1|]. split; [exact H2|]. split; [exact H3|]. split; [exact H4|].
  exact (delete_stops_at_gap "p" gapped_entry (FJson JNull) 1 H1 H2 H3 H4).
Defined.


Lemma read_after_delete_witness :
  exports_delete "c/a" (Some "c") cache_a =
    (Ok tt, (exports_delete "c/a" (Some "c") cache_a).2) ∧
  exports_read (H := basic_platform) "c/a" (exports_delete "c/a" (Some "c") cache_a).2 =
    (Err ENOENT, (exports_delete "c/a" (Some "c") cache_a).2).
Proof.
  assert (exports_delete "c/a" (Some "c") cache_a =
          (Ok tt, (exports_delete "c/a" (Some "c") cache_a).2)) as H1
    by (vm_compute; reflexivity).
  split; [exact H1|].
  exact (read_after_delete (H := basic_platform) "c/a" (Some "c") cache_a _ H1).
Defined.

Lemma entry_files_disjoint_witness :
  "a" ≠ "b" ∧ entry_file "a" (bin_name "a" 0) ∧ ¬ entry_file "b" (bin_name "a" 0).
Proof.
  assert ("a" ≠ "b") as H1 by discriminate.
  assert (entry_file "a" (bin_name "a" 0)) as H2.
  { right. exists 0. split; [lia|reflexivity]. }
  split; [exact H1|]. split; [exact H2|].
  exact (entry_files_disjoint "a" "b" (bin_name "a" 0) H1 H2).
Defined.

Lemma encoder_numbers_segments_witness :
  serialize (H := basic_platform) (JArray [JString "x"; big_buffer]) enc_init =
    Ok (JArray [JString "x"; placeholder 0 1024], big_buffer_extracted) ∧
  segments_numbered big_buffer_extracted.
Proof.
  assert (serialize (H := basic_platform) (JArray [JString "x"; big_buffer]) enc_init =
          Ok (JArray [JString "x"; placeholder 0 1024], big_buffer_extracted)) as H1
    by (vm_compute; reflexivity).
  split; [exact H1|].
  exact (encoder_numbers_segments (H := basic_platform) (JArray [JString "x"; big_buffer])
           (JArray [JString "x"; placeholder 0 1024]) big_buffer_extracted H1).
Defined.

Lemma write_without_eviction_files_witness :
  serialize (H := basic_platform) big_buffer enc_init =
    Ok (placeholder 0 1024, big_buffer_extracted) ∧
  dataString_length (placeholder 0 1024) + externalBuffersLength big_buffer_extracted
    ≤ 5000 ∧
  readMetaFile "c" cache_a = (Ok index_a, cache_a) ∧
  meta_size index_a +
    (dataString_length (placeholder 0 1024) + externalBuffersLength big_buffer_extracted)
    ≤ 5000 ∧
  json_name "c/b" ≠ metaFilePath "c" ∧
  ∃ st',
    exports_write (H := basic_platform) "c/b" big_buffer "c" 5000 200 cache_a
      = (Ok tt, st') ∧
    st' !! json_name "c/b" = Some (FJson (placeholder 0 1024)) ∧
    (∀ i e, externalBuffers big_buffer_extracted !! i = Some e →
       st' !! bin_name "c/b" (Z.of_nat i) = Some (FBin (eb_buffer e))) ∧
    readMetaFile "c" st' =
      (Ok (with_entry "c/b"
             (dataString_length (placeholder 0 1024) +
              externalBuffersLength big_buffer_extracted) 200 index_a), st') ∧
    (∀ name, name ≠ json_name "c/b" → name ≠ metaFilePath "c" →
       (∀ i, (i < length (externalBuffers big_buffer_extracted))%nat →
             name ≠ bin_name "c/b" (Z.of_nat i)) →
       st' !! name = cache_a !! name).
Proof.
  assert (serialize (H := basic_platform) big_buffer enc_init =
          Ok (placeholder 0 1024, big_buffer_extracted)) as H1
    by (vm_compute; reflexivity).
  assert (dataString_length (placeholder 0 1024) +
          externalBuffersLength big_buffer_extracted ≤ 5000) as H2
    by (vm_compute; discriminate).
  assert (readMetaFile "c" cache_a = (Ok index_a, cache_a)) as H3
    by (vm_compute; reflexivity).
  assert (meta_size index_a +
          (dataString_length (placeholder 0 1024) +
           externalBuffersLength big_buffer_extracted) ≤ 5000) as H4
    by (vm_compute; discriminate).
  assert (json_name "c/b" ≠ metaFilePath "c") as H5
    by (apply (bool_decide_unpack _); vm_compute; exact I).
  split; [exact H1|]. split; [exact H2|]. split; [exact H3|]. split; [exact H4|].
  split; [exact H5|].
  exact (write_without_eviction_files (H := basic_platform) "c/b" big_buffer "c" 5000
           200 cache_a (placeholder 0 1024) big_buffer_extracted index_a
           H1 H2 H3 H4 H5).
Defined.

Lemma delete_after_write_witness :
  exports_write (H := basic_platform) "c/b" big_buffer "c" 5000 200 cache_a =
    (Ok tt, (exports_write (H := basic_platform) "c/b" big_buffer "c" 5000 200 cache_a).2) ∧
  ∃ d est st2,
    serialize (H := basic_platform) big_buffer enc_init = Ok (d, est) ∧
    exports_delete "c/b" None
      (exports_write (H := basic_platform) "c/b" big_buffer "c" 5000 200 cache_a).2
      = (Ok tt, st2) ∧
    st2 !! json_name "c/b" = None ∧
    ∀ e, e ∈ externalBuffers est → st2 !! bin_name "c/b" (eb_index e) = None.
Proof.
  assert (exports_write (H := basic_platform) "c/b" big_buffer "c" 5000 200 cache_a =
          (Ok tt,
           (exports_write (H := basic_platform) "c/b" big_buffer "c" 5000 200 cache_a).2))
    as H1 by (vm_compute; reflexivity).
  split; [exact H1|].
  exact (delete_after_write (H := basic_platform) "c/b" big_buffer "c" 5000 200 cache_a
           _ H1).
Defined.

Lemma eviction_removes_documents_witness :
  reduceCacheSize index_a 2 cache_a =
    (Ok {| meta_size := 0; meta_entries := [] |},
     (reduceCacheSize index_a 2 cache_a).2) ∧
  ∃ popped,
    evict_loop (entriesByDate index_a) 0 2 [] index_a =
      Ok (popped, {| meta_size := 0; meta_entries := [] |}) ∧
    (∀ e, e ∈ popped →
       is_Some (cache_a !! json_name (entry_path e)) ∧
       (reduceCacheSize index_a 2 cache_a).2 !! json_name (entry_path e) = None) ∧
    (reduceCacheSize index_a 2 cache_a).2 ⊆ cache_a ∧
    (∀ name, (∀ e, e ∈ popped → ¬ entry_file (entry_path e) name) →
       (reduceCacheSize index_a 2 cache_a).2 !! name = cache_a !! name).
Proof.
  assert (reduceCacheSize index_a 2 cache_a =
          (Ok {| meta_size := 0; meta_entries := [] |},
           (reduceCacheSize index_a 2 cache_a).2)) as H1 by (vm_compute; reflexivity).
  split; [exact H1|].
  exact (eviction_removes_documents index_a 2 cache_a _ _ H1).
Defined.

Lemma write_fails_on_stale_index_witness :
  serialize (H := basic_platform) (JString "bbbb") enc_init =
    Ok (JString "bbbb", enc_init) ∧
  dataString_length (JString "bbbb") + externalBuffersLength enc_init ≤ 10 ∧
  readMetaFile "c" stale_cache = (Ok index_a, stale_cache) ∧
  10 < meta_size index_a +
       (dataString_length (JString "bbbb") + externalBuffersLength enc_init) ∧
  evict_loop (entriesByDate index_a) 0
    (meta_size index_a +
     (dataString_length (JString "bbbb") + externalBuffersLength enc_init) - 10)
    [] index_a = Ok ([entry_a], {| meta_size := 0; meta_entries := [] |}) ∧
  entry_a ∈ [entry_a] ∧
  stale_cache !! json_name (entry_path entry_a) = None ∧
  ∃ st',
    exports_write (H := basic_platform) "c/b" (JString "bbbb") "c" 10 200 stale_cache
      = (Err ENOENT, st') ∧
    st' ⊆ stale_cache.
Proof.
  assert (serialize (H := basic_platform) (JString "bbbb") enc_init =
          Ok (JString "bbbb", enc_init)) as H1 by reflexivity.
  assert (dataString_length (JString "bbbb") + externalBuffersLength enc_init ≤ 10)
    as H2 by (vm_compute; discriminate).
  assert (readMetaFile "c" stale_cache = (Ok index_a, stale_cache)) as H3
    by (vm_compute; reflexivity).
  assert (10 < meta_size index_a +
               (dataString_length (JString "bbbb") + externalBuffersLength enc_init))
    as H4 by (vm_compute; reflexivity).
  assert (evict_loop (entriesByDate index_a) 0
            (meta_size index_a +
             (dataString_length (JString "bbbb") + externalBuffersLength enc_init) - 10)
            [] index_a = Ok ([entry_a], {| meta_size := 0; meta_entries := [] |}))
    as H5 by (vm_compute; reflexivity).
  assert (entry_a ∈ [entry_a]) as H6 by apply list_elem_of_here.
  assert (stale_cache !! json_name (entry_path entry_a) = None) as H7
    by (vm_compute; reflexivity).
  split; [exact H1|]. split; [exact H2|]. split; [exact H3|]. split; [exact H4|].
  split; [exact H5|]. split; [exact H6|]. split; [exact H7|].
  exact (write_fails_on_stale_index (H := basic_platform) "c/b" (JString "bbbb") "c" 10
           200 stale_cache (JString "bbbb") enc_init index_a [entry_a]
           {| meta_size := 0; meta_entries := [] |} entry_a H1 H2 H3 H4 H5 H6 H7).
Defined.

Lemma write_keeps_other_entry_witness :
  shape_free big_buffer = true ∧
  "c/b" ≠ "c/a" ∧
  json_name "c/a" ≠ metaFilePath "c" ∧
  exports_write (H := basic_platform) "c/a" big_buffer "c" 5000 100 ∅ =
    (Ok tt, (two_entries (H := basic_platform)).1) ∧
  exports_write (H := basic_platform) "c/b" (JString "bbbb") "c" 5000 200 (two_entries (H := basic_platform)).1 =
    (Ok tt, (two_entries (H := basic_platform)).2) ∧
  readMetaFile "c" (two_entries (H := basic_platform)).2 =
    (Ok {| meta_size := 1077;
           meta_entries :=
             [("c/a", {| entry_path := "c/a"; entry_size := 1071;
                         entry_created := 100 |});
              ("c/b", {| entry_path := "c/b"; entry_size := 6;
                         entry_created := 200 |})] |}, (two_entries (H := basic_platform)).2) ∧
  is_Some (assoc "c/a"
             [("c/a", {| entry_path := "c/a"; entry_size := 1071;
                         entry_created := 100 |});
              ("c/b", {| entry_path := "c/b"; entry_size := 6;
                         entry_created := 200 |})]) ∧
  exports_read (H := basic_platform) "c/a" (two_entries (H := basic_platform)).2 = (Ok big_buffer, (two_entries (H := basic_platform)).2).
Proof.
  assert (shape_free big_buffer = true) as H1 by (vm_compute; reflexivity).
  assert ("c/b" ≠ "c/a") as H2 by discriminate.
  assert (json_name "c/a" ≠ metaFilePath "c") as H3
    by (apply (bool_decide_unpack _); vm_compute; exact I).
  assert (exports_write (H := basic_platform) "c/a" big_buffer "c" 5000 100 ∅ =
          (Ok tt, (two_entries (H := basic_platform)).1)) as H4 by (vm_compute; reflexivity).
  assert (exports_write (H := basic_platform) "c/b" (JString "bbbb") "c" 5000 200
            (two_entries (H := basic_platform)).1 = (Ok tt, (two_entries (H := basic_platform)).2)) as H5 by (vm_compute; reflexivity).
  assert (readMetaFile "c" (two_entries (H := basic_platform)).2 =
          (Ok {| meta_size := 1077;
                 meta_entries :=
                   [("c/a", {| entry_path := "c/a"; entry_size := 1071;
                               entry_created := 100 |});
                    ("c/b", {| entry_path := "c/b"; entry_size := 6;
                               entry_created := 200 |})] |}, (two_entries (H := basic_platform)).2)) as H6
    by (vm_compute; reflexivity).
  assert (is_Some (assoc "c/a"
                     [("c/a", {| entry_path := "c/a"; entry_size := 1071;
                                 entry_created := 100 |});
                      ("c/b", {| entry_path := "c/b"; entry_size := 6;
                                 entry_created := 200 |})])) as H7
    by (by eexists).
  split; [exact H1|]. split; [exact H2|]. split; [exact H3|]. split; [exact H4|].
  split; [exact H5|]. split; [exact H6|]. split; [exact H7|].
  exact (write_keeps_other_entry (H := basic_platform) "c/b" "c/a" big_buffer
           (JString "bbbb") "c" 5000 100 200 ∅ (two_entries (H := basic_platform)).1 (two_entries (H := basic_platform)).2 _
           H1 H2 H3 H4 H5 H6 H7).
Defined.

Lemma fresh_writes_keep_invariant_witness :
  readMetaFile "c" ∅ = (Ok {| meta_size := 0; meta_entries := [] |}, ∅) ∧
  index_wf {| meta_size := 0; meta_entries := [] |} ∧
  size_invariant {| meta_size := 0; meta_entries := [] |} ∧
  NoDup (map (λ w : string * value * Z, w.1.1)
           [("c/a", JString "aaaa", 100); ("c/b", JString "bbbb", 200)]) ∧
  (∀ w : string * value * Z,
     w ∈ [("c/a", JString "aaaa", 100); ("c/b", JString "bbbb", 200)] →
     assoc w.1.1 (meta_entries {| meta_size := 0; meta_entries := [] |}) = None) ∧
  run_operations (H := basic_platform) "c" 10
    (writes [("c/a", JString "aaaa", 100); ("c/b", JString "bbbb", 200)]) ∅ =
    (Ok tt,
     (run_operations (H := basic_platform) "c" 10
        (writes [("c/a", JString "aaaa", 100); ("c/b", JString "bbbb", 200)]) ∅).2) ∧
  ∃ m',
    readMetaFile "c"
      (run_operations (H := basic_platform) "c" 10
         (writes [("c/a", JString "aaaa", 100); ("c/b", JString "bbbb", 200)]) ∅).2 =
      (Ok m',
       (run_operations (H := basic_platform) "c" 10
          (writes [("c/a", JString "aaaa", 100); ("c/b", JString "bbbb", 200)]) ∅).2) ∧
    index_wf m' ∧ size_invariant m'.
Proof.
  assert (readMetaFile "c" ∅ = (Ok {| meta_size := 0; meta_entries := [] |}, ∅))
    as H1 by reflexivity.
  assert (index_wf {| meta_size := 0; meta_entries := [] |}) as H2.
  { split; simpl; constructor. }
  assert (size_invariant {| meta_size := 0; meta_entries := [] |}) as H3
    by reflexivity.
  assert (NoDup (map (λ w : string * value * Z, w.1.1)
                   [("c/a", JString "aaaa", 100); ("c/b", JString "bbbb", 200)]))
    as H4.
  { apply (bool_decide_unpack _). vm_compute. exact I. }
  assert (∀ w : string * value * Z,
            w ∈ [("c/a", JString "aaaa", 100); ("c/b", JString "bbbb", 200)] →
            assoc w.1.1 (meta_entries {| meta_size := 0; meta_entries := [] |}) = None)
    as H5 by reflexivity.
  assert (run_operations (H := basic_platform) "c" 10
            (writes [("c/a", JString "aaaa", 100); ("c/b", JString "bbbb", 200)]) ∅ =
          (Ok tt,
           (run_operations (H := basic_platform) "c" 10
              (writes [("c/a", JString "aaaa", 100); ("c/b", JString "bbbb", 200)])
              ∅).2)) as H6 by (vm_compute; reflexivity).
  split; [exact H1|]. split; [exact H2|]. split; [exact H3|]. split; [exact H4|].
  split; [exact H5|]. split; [exact H6|].
  exact (fresh_writes_keep_invariant (H := basic_platform) "c" 10
           [("c/a", JString "aaaa", 100); ("c/b", JString "bbbb", 200)] ∅ _
           {| meta_size := 0; meta_entries := [] |} H1 H2 H3 H4 H5 H6).
Defined.

Lemma read_depends_on_entry_files_witness :
  truncated_entry !! json_name "p" =
    (<["x.json" := FJson JNull]> truncated_entry : fs) !! json_name "p" ∧
  (∀ index, truncated_entry !! bin_name "p" index =
            (<["x.json" := FJson JNull]> truncated_entry : fs) !! bin_name "p" index) ∧
  (exports_read (H := basic_platform) "p" truncated_entry).1 =
  (exports_read (H := basic_platform) "p"
     (<["x.json" := FJson JNull]> truncated_entry)).1.
Proof.
  assert (truncated_entry !! json_name "p" =
          (<["x.json" := FJson JNull]> truncated_entry : fs) !! json_name "p") as H1
    by (vm_compute; reflexivity).
  assert (∀ index, truncated_entry !! bin_name "p" index =
                   (<["x.json" := FJson JNull]> truncated_entry : fs)
                     !! bin_name "p" index) as H2.
  { intros index. rewrite lookup_insert_ne; [reflexivity|].
    intros Heq. symmetry in Heq. exact (bin_name_not_json "p" index "x" Heq). }
  split; [exact H1|]. split; [exact H2|].
  exact (read_depends_on_entry_files (H := basic_platform) "p" truncated_entry
           (<["x.json" := FJson JNull]> truncated_entry) H1 H2).
Defined.

Lemma write_succeeds_in_consistent_cache_witness :
  serialize (H := basic_platform) (JString "bbbb") enc_init =
    Ok (JString "bbbb", enc_init) ∧
  dataString_length (JString "bbbb") + externalBuffersLength enc_init ≤ 10 ∧
  readMetaFile "c" cache_a = (Ok index_a, cache_a) ∧
  index_wf index_a ∧
  size_invariant index_a ∧
  (∀ e, e ∈ Object_values (meta_entries index_a) →
        is_Some (cache_a !! json_name (entry_path e))) ∧
  ∃ st',
    exports_write (H := basic_platform) "c/b" (JString "bbbb") "c" 10 200 cache_a
      = (Ok tt, st').
Proof.
  assert (serialize (H := basic_platform) (JString "bbbb") enc_init =
          Ok (JString "bbbb", enc_init)) as H1 by reflexivity.
  assert (dataString_length (JString "bbbb") + externalBuffersLength enc_init ≤ 10)
    as H2 by (vm_compute; discriminate).
  assert (readMetaFile "c" cache_a = (Ok index_a, cache_a)) as H3
    by (vm_compute; reflexivity).
  assert (index_wf index_a) as H4.
  { split; simpl; [apply NoDup_singleton|by repeat constructor]. }
  assert (size_invariant index_a) as H5 by reflexivity.
  assert (∀ e, e ∈ Object_values (meta_entries index_a) →
               is_Some (cache_a !! json_name (entry_path e))) as H6.
  { intros e He. apply list_elem_of_singleton in He as ->. vm_compute. by eexists. }
  split; [exact H1|]. split; [exact H2|]. split; [exact H3|]. split; [exact H4|].
  split; [exact H5|]. split; [exact H6|].
  exact (write_succeeds_in_consistent_cache (H := basic_platform) "c/b" (JString "bbbb")
           "c" 10 200 cache_a (JString "bbbb") enc_init index_a H1 H2 H3 H4 H5 H6).
Defined.

Lemma overwrite_inflates_total_witness :
  serialize (H := basic_platform) (JString "bb") enc_init = Ok (JString "bb", enc_init) ∧
  dataString_length (JString "bb") + externalBuffersLength enc_init ≤ 100 ∧
  readMetaFile "c" cache_a = (Ok index_a, cache_a) ∧
  meta_size index_a + (dataString_length (JString "bb") + externalBuffersLength enc_init)
    ≤ 100 ∧
  NoDup (map fst (meta_entries index_a)) ∧
  size_invariant index_a ∧
  assoc "c/a" (meta_entries index_a) = Some entry_a ∧
  ∃ st' m',
    exports_write (H := basic_platform) "c/a" (JString "bb") "c" 100 200 cache_a
      = (Ok tt, st') ∧
    readMetaFile "c" st' = (Ok m', st') ∧
    map fst (meta_entries m') = map fst (meta_entries index_a) ∧
    meta_size m' = sum_sizes (Object_values (meta_entries m')) + entry_size entry_a.
Proof.
  assert (serialize (H := basic_platform) (JString "bb") enc_init =
          Ok (JString "bb", enc_init)) as H1 by reflexivity.
  assert (dataString_length (JString "bb") + externalBuffersLength enc_init ≤ 100)
    as H2 by (vm_compute; discriminate).
  assert (readMetaFile "c" cache_a = (Ok index_a, cache_a)) as H3
    by (vm_compute; reflexivity).
  assert (meta_size index_a +
          (dataString_length (JString "bb") + externalBuffersLength enc_init) ≤ 100)
    as H4 by (vm_compute; discriminate).
  assert (NoDup (map fst (meta_entries index_a))) as H5 by apply NoDup_singleton.
  assert (size_invariant index_a) as H6 by reflexivity.
  assert (assoc "c/a" (meta_entries index_a) = Some entry_a) as H7 by reflexivity.
  split; [exact H1|]. split; [exact H2|]. split; [exact H3|]. split; [exact H4|].
  split; [exact H5|]. split; [exact H6|]. split; [exact H7|].
  exact (overwrite_inflates_total (H := basic_platform) "c/a" (JString "bb") "c" 100 200
           cache_a (JString "bb") enc_init index_a entry_a H1 H2 H3 H4 H5 H6 H7).
Defined.


(** The run of [delete] on an entry whose segment files have a gap: the
    segment file past the gap is left behind. *)
Lemma delete_leaves_later_segment :
  (exports_delete "p" None gapped_entry).1 = Ok tt ∧
  (exports_delete "p" None gapped_entry).2 !! "p.json" = None ∧
  (exports_delete "p" None gapped_entry).2 !! "p-0.bin" = None ∧
  (exports_delete "p" None gapped_entry).2 !! "p-2.bin" = Some (FBin [x03]).
Proof. repeat split; vm_compute; reflexivity. Qed.
